(** * OzonSellerApi: the fetch engine and the record normalizer

    A shallow embedding of [tools/functions.py], [tools/exceptions.py] and of
    the paginator loops of [fetchers/FBO.py], [fetchers/FBS.py] and
    [fetchers/Finance.py],
    followed by the properties of the specification that concern them.

    Conventions.
    - JSON data is the inductive [value]; a Python [dict] is an association
      list in insertion order (the order [for k in d] visits), with the
      update-in-place / append-at-the-end behaviour of [d[k] = v].
    - Mutable Python objects that are passed around (the records of a list)
      live in a [heap]; a list of records is a list of locations.
    - A Python exception is a constructor of [exn]; code that can raise
      returns an [outcome].
    - A [while] loop whose termination is not structural carries a fuel
      argument and returns an [option]: [None] says that the fuel ran out
      with the loop still running.  The development proves that this does
      not happen where the specification promises a result. *)

From Stdlib Require Import ZArith List String Ascii Bool Arith Lia.
From Stdlib Require Import Permutation.
Import ListNotations.

Local Open Scope string_scope.
Local Open Scope list_scope.

#[local] Set Warnings "-register-all".

(* ================================================================== *)
(** * Python values, exceptions and outcomes *)
(* ================================================================== *)

(** JSON-like data as produced by [response.json()].  Floating-point
    numbers do not occur in the fields the modelled functions inspect and
    are left out. *)
Inductive value : Type :=
| VNone
| VBool (b : bool)
| VInt (z : Z)
| VStr (s : string)
| VList (l : list value)
| VDict (d : list (string * value)).

(** A Python [dict] with string keys, in insertion order. *)
Definition dict : Type := list (string * value).

(** The exceptions the modelled code can raise.  [PyException] is the
    [Exception(f"... Код ошибки: {status_code}. Message: {error_message}")]
    of the paginators: its two arguments are the two interpolated fields. *)
Inductive exn : Type :=
| KeyError (k : value)
| TypeError
| IndexError
| ZeroDivisionError
| CancelledError
| PyException (status_code : Z) (error_message : value)
| DanglingReference.

(** [DanglingReference] is not a Python exception: it is what reading a
    location that names no object of the store gives.  Lists of records
    built by Python never hold such a location. *)

Inductive outcome (A : Type) : Type :=
| Ok (a : A)
| Raise (e : exn).
Arguments Ok {A} a.
Arguments Raise {A} e.

Definition bind {A B : Type} (m : outcome A) (k : A -> outcome B) : outcome B :=
  match m with
  | Ok a => k a
  | Raise e => Raise e
  end.

Notation "x <- m ;; k" := (bind m (fun x => k))
  (at level 61, m at next level, right associativity).

(** ** Dictionary primitives *)

(** [d.get(k)] / the lookup half of [d[k]]. *)
Fixpoint dict_get (k : string) (d : dict) : option value :=
  match d with
  | [] => None
  | (k', v) :: d' => if String.eqb k k' then Some v else dict_get k d'
  end.

(** [d[k]]: raises [KeyError] when the key is absent. *)
Definition dict_getitem (k : string) (d : dict) : outcome value :=
  match dict_get k d with
  | Some v => Ok v
  | None => Raise (KeyError (VStr k))
  end.

(** [d[k] = v]: an existing key keeps its position, a new key goes last. *)
Fixpoint dict_set (k : string) (v : value) (d : dict) : dict :=
  match d with
  | [] => [(k, v)]
  | (k', v') :: d' =>
      if String.eqb k k' then (k, v) :: d' else (k', v') :: dict_set k v d'
  end.

(** [d.pop(k)] on a key that is present (the result value is not used). *)
Fixpoint dict_pop (k : string) (d : dict) : dict :=
  match d with
  | [] => []
  | (k', v') :: d' =>
      if String.eqb k k' then d' else (k', v') :: dict_pop k d'
  end.

Definition keys (d : dict) : list string := map fst d.

(** A Python dict never holds a key twice. *)
Fixpoint unique_keys (d : dict) : bool :=
  match d with
  | [] => true
  | (k, _) :: d' => negb (existsb (String.eqb k) (keys d')) && unique_keys d'
  end.

(** [bool(v)]: the truth value Python gives a JSON value. *)
Definition truthy (v : value) : bool :=
  match v with
  | VNone => false
  | VBool b => b
  | VInt z => negb (Z.eqb z 0)
  | VStr s => negb (String.eqb s "")
  | VList l => match l with [] => false | _ => true end
  | VDict d => match d with [] => false | _ => true end
  end.

(** [len(v)]; [None], booleans and integers have no length. *)
Definition py_len (v : value) : outcome nat :=
  match v with
  | VList l => Ok (List.length l)
  | VStr s => Ok (String.length s)
  | VDict d => Ok (List.length d)
  | _ => Raise TypeError
  end.

(** [v[i]] for an integer index [0 <= i]; the keys of a JSON mapping are
    strings, so that an integer is none of them. *)
Definition py_index (v : value) (i : nat) : outcome value :=
  match v with
  | VList l =>
      match nth_error l i with Some x => Ok x | None => Raise IndexError end
  | VStr s =>
      match String.get i s with
      | Some c => Ok (VStr (String c EmptyString))
      | None => Raise IndexError
      end
  | VDict _ => Raise (KeyError (VInt (Z.of_nat i)))
  | _ => Raise TypeError
  end.

(** The elements [for x in v] yields, as [list.__iadd__] consumes them. *)
Definition py_iter (v : value) : outcome (list value) :=
  match v with
  | VList l => Ok l
  | VStr s => Ok (map (fun c => VStr (String c EmptyString)) (list_ascii_of_string s))
  | VDict d => Ok (map (fun kv => VStr (fst kv)) d)
  | _ => Raise TypeError
  end.

(* ================================================================== *)
(** * tools/functions.py: flatten_dict *)
(* ================================================================== *)

Definition is_dict (v : value) : bool :=
  match v with VDict _ => true | _ => false end.

(** [any(isinstance(i, dict) for i in parent_dict.values())] *)
Definition any_dict_value (parent_dict : dict) : bool :=
  existsb (fun kv => is_dict (snd kv)) parent_dict.

(** [for nested_key, nested_value in parent_dict[parent_key].items():
        parent_dict[parent_key + "__" + nested_key] = nested_value] *)
Fixpoint promote (parent_key : string) (nested : dict) (parent_dict : dict) : dict :=
  match nested with
  | [] => parent_dict
  | (nested_key, nested_value) :: rest =>
      promote parent_key rest
        (dict_set ((parent_key ++ "__") ++ nested_key) nested_value parent_dict)
  end.

(** [for parent_key in list(parent_dict): ...], over the snapshot of the
    keys taken when the pass starts. *)
Fixpoint for_parent_keys (snapshot : list string) (parent_dict : dict) : outcome dict :=
  match snapshot with
  | [] => Ok parent_dict
  | parent_key :: rest =>
      v <- dict_getitem parent_key parent_dict ;;
      match v with
      | VDict nested =>
          for_parent_keys rest (dict_pop parent_key (promote parent_key nested parent_dict))
      | _ => for_parent_keys rest parent_dict
      end
  end.

(** [while any(...): for parent_key in list(parent_dict): ...] *)
Fixpoint while_any_dict (fuel : nat) (parent_dict : dict) : option (outcome dict) :=
  if any_dict_value parent_dict then
    match fuel with
    | O => None
    | S fuel' =>
        match for_parent_keys (keys parent_dict) parent_dict with
        | Ok d => while_any_dict fuel' d
        | Raise e => Some (Raise e)
        end
    end
  else Some (Ok parent_dict).

(** Number of mappings inside a value: the quantity every pass of the
    [while] loop decreases. *)
Fixpoint dict_nodes (v : value) : nat :=
  match v with
  | VList l =>
      (fix go (l : list value) : nat :=
         match l with [] => O | x :: l' => dict_nodes x + go l' end) l
  | VDict d =>
      S ((fix go (d : list (string * value)) : nat :=
            match d with [] => O | (_, x) :: d' => dict_nodes x + go d' end) d)
  | _ => O
  end.

Fixpoint nodes_of (d : dict) : nat :=
  match d with
  | [] => O
  | (_, x) :: d' => dict_nodes x + nodes_of d'
  end.

(** The body of [flatten_dict]'s outer loop on one record, with one unit
    of fuel for every mapping the record holds. *)
Definition flatten_parent (parent_dict : dict) : option (outcome dict) :=
  while_any_dict (nodes_of parent_dict) parent_dict.

(** ** The object store *)

Definition loc : Type := nat.
Definition heap : Type := list dict.

Definition heap_get (h : heap) (l : loc) : option dict := nth_error h l.

Fixpoint heap_set (h : heap) (l : loc) (d : dict) : heap :=
  match h, l with
  | [], _ => []
  | _ :: h', O => d :: h'
  | x :: h', S l' => x :: heap_set h' l' d
  end.

(** [alloc]: a fresh object, as [deepcopy] creates one. *)
Definition heap_alloc (h : heap) (d : dict) : heap * loc :=
  (h ++ [d], List.length h).

(** [for parent_dict in array: while ...]: every record is rewritten in
    place, at its own location. *)
Fixpoint for_array (array : list loc) (h : heap) : option (outcome heap) :=
  match array with
  | [] => Some (Ok h)
  | l :: rest =>
      match heap_get h l with
      | None => Some (Raise DanglingReference)
      | Some parent_dict =>
          match flatten_parent parent_dict with
          | Some (Ok d) => for_array rest (heap_set h l d)
          | Some (Raise e) => Some (Raise e)
          | None => None
          end
      end
  end.

(** [flatten_dict(data_to_unpack)]: [array = data_to_unpack.copy()] is a
    new list holding the same record objects. *)
Definition flatten_dict (h : heap) (data_to_unpack : list loc)
  : option (outcome (heap * list loc)) :=
  let array := data_to_unpack in
  match for_array array h with
  | Some (Ok h') => Some (Ok (h', array))
  | Some (Raise e) => Some (Raise e)
  | None => None
  end.

(* ================================================================== *)
(** * tools/functions.py: mult_data and mult_data2 *)
(* ================================================================== *)

(** A [for] loop over a list, threading the loop state; an exception
    leaves the loop. *)
Fixpoint for_each {A S : Type} (l : list A) (body : A -> S -> outcome S) (s : S)
  : outcome S :=
  match l with
  | [] => Ok s
  | x :: l' => s' <- body x s ;; for_each l' body s'
  end.

Definition heap_getitem (h : heap) (l : loc) : outcome dict :=
  match heap_get h l with
  | Some d => Ok d
  | None => Raise DanglingReference
  end.

(** [new_data.append(deepcopy(record))]: the copy is a fresh object. *)
Definition append_deepcopy (record : loc) (st : heap * list loc)
  : outcome (heap * list loc * loc) :=
  d <- heap_getitem (fst st) record ;;
  let (h', fresh) := heap_alloc (fst st) d in
  Ok (h', snd st ++ [fresh], fresh).

(** [new_data[-1][column] = new_data[-1][column][item]] *)
Definition pick_item (column : string) (item : nat) (clone : dict) : outcome dict :=
  v <- dict_getitem column clone ;;
  e <- py_index v item ;;
  Ok (dict_set column e clone).

(** [new_data[-1][k] = f(new_data[-1])], on the object at [l]. *)
Definition heap_update (l : loc) (f : dict -> outcome dict) (h : heap) : outcome heap :=
  d <- heap_getitem h l ;;
  d' <- f d ;;
  Ok (heap_set h l d').

Definition column_len (h : heap) (record : loc) (column : string) : outcome nat :=
  d <- heap_getitem h record ;;
  v <- dict_getitem column d ;;
  py_len v.

(** The body of [mult_data]'s inner [for]: one clone of [group_name]. *)
Definition mult_data_clone (column : string) (group_name : loc) (item : nat)
    (st : heap * list loc) : outcome (heap * list loc) :=
  a <- append_deepcopy group_name st ;;
  let '(h1, new_data, last) := a in
  h2 <- heap_update last (pick_item column item) h1 ;;
  Ok (h2, new_data).

(** The body of [mult_data]'s outer [for], on one record. *)
Definition mult_data_record (column : string) (group_name : loc)
    (st : heap * list loc) : outcome (heap * list loc) :=
  n <- column_len (fst st) group_name column ;;
  for_each (seq 0 n) (mult_data_clone column group_name) st.

Definition mult_data (h : heap) (data : list loc) (column : string)
  : outcome (heap * list loc) :=
  for_each data (mult_data_record column) (h, []).

(** [new_data[-1][second_column] = None] *)
Definition set_none (column : string) (clone : dict) : outcome dict :=
  Ok (dict_set column VNone clone).

(** The body of the [for] under [if len(...) != len(...)]. *)
Definition mult_data2_unaligned (first_column second_column : string) (note : loc)
    (i1 : nat) (st : heap * list loc) : outcome (heap * list loc) :=
  a <- append_deepcopy note st ;;
  let '(h1, new_data, last) := a in
  h2 <- heap_update last (set_none second_column) h1 ;;
  h3 <- heap_update last (pick_item first_column i1) h2 ;;
  Ok (h3, new_data).

(** The body of the [for] under [elif len(...) == len(...)]. *)
Definition mult_data2_aligned (first_column second_column : string) (note : loc)
    (i1 : nat) (st : heap * list loc) : outcome (heap * list loc) :=
  a <- append_deepcopy note st ;;
  let '(h1, new_data, last) := a in
  h2 <- heap_update last (pick_item second_column i1) h1 ;;
  h3 <- heap_update last (pick_item first_column i1) h2 ;;
  Ok (h3, new_data).

(** The body of [mult_data2]'s outer [for], on one record. *)
Definition mult_data2_note (first_column second_column : string) (note : loc)
    (st : heap * list loc) : outcome (heap * list loc) :=
  n1 <- column_len (fst st) note first_column ;;
  n2 <- column_len (fst st) note second_column ;;
  if negb (Nat.eqb n1 n2) then
    for_each (seq 0 n1) (mult_data2_unaligned first_column second_column note) st
  else
    for_each (seq 0 n1) (mult_data2_aligned first_column second_column note) st.

Definition mult_data2 (h : heap) (data_to_mult : list loc)
    (first_column second_column : string) : outcome (heap * list loc) :=
  for_each data_to_mult (mult_data2_note first_column second_column) (h, []).

(* ================================================================== *)
(** * tools/functions.py: dates_delta *)
(* ================================================================== *)

Local Open Scope Z_scope.

(** A pandas [Timestamp] is a count of ticks since the epoch and a
    [Timedelta] a count of ticks, at the resolution the timestamp carries:
    nanoseconds in pandas before 3.0, where [to_datetime] gives no other;
    seconds, milliseconds, microseconds or nanoseconds from pandas 2.0 on,
    and microseconds for what pandas 3 parses from a date string.  pandas
    keeps both in 64 bits and refuses what does not fit; the counts here are
    unbounded. *)
Definition Timestamp : Type := Z.
Definition Timedelta : Type := Z.

Definition NS_PER_DAY : Z := 86400000000000.

(** [Timedelta.days]: whole days, rounded towards minus infinity. *)
Definition Timedelta_days (td : Timedelta) : Z := td / NS_PER_DAY.

(** [(a / b).__ceil__()] for integers [a] and [b > 0].  The quotient is a
    binary64 number; for the day counts a [Timedelta] can hold its ceiling
    is the ceiling of the exact quotient. *)
Definition ceil_div (a b : Z) : Z := - ((- a) / b).

(** Nearest integer to [n / d], ties to the even one ([0 <= n], [0 < d]). *)
Definition round_half_even (n d : Z) : Z :=
  let q := n / d in
  let r := n mod d in
  if 2 * r <? d then q
  else if d <? 2 * r then q + 1
  else if Z.even q then q else q + 1.

(** [int(a / b)] for [0 <= a] and [0 < b]: Python's true division of two
    integers is the binary64 number nearest to the exact quotient (53-bit
    significand, ties to even), and the conversion back to an integer
    truncates. *)
Definition trunc_truediv_pos (a b : Z) : Z :=
  if a <? b then
    if (2 ^ 54 - 1) * b <=? 2 ^ 54 * a then 1 else 0
  else
    let e := Z.log2 (a / b) - 52 in
    if 0 <=? e then round_half_even a (b * 2 ^ e) * 2 ^ e
    else round_half_even (a * 2 ^ (- e)) b / 2 ^ (- e).

Definition trunc_truediv (a b : Z) : Z :=
  Z.sgn a * Z.sgn b * trunc_truediv_pos (Z.abs a) (Z.abs b).

(** [Timedelta / int]: pandas computes [Timedelta(self.value / other)],
    the true division of two Python integers followed by the truncation of
    the floating-point quotient to a count of ticks, at the resolution of
    the [Timedelta]. *)
Definition Timedelta_truediv (td : Timedelta) (other : Z) : outcome Timedelta :=
  if other =? 0 then Raise ZeroDivisionError
  else Ok (trunc_truediv td other).

(** [dates_delta] on counts of nanoseconds. *)
Definition dates_delta (time_since time_to : Timestamp) : outcome (Z * Timedelta) :=
  let years := ceil_div (Timedelta_days (time_to - time_since)) 365 in
  interval_step <- Timedelta_truediv (time_to - time_since) years ;;
  Ok (years, interval_step).

(** The resolutions a [Timestamp] can carry. *)
Inductive resolution : Type :=
| Seconds
| Milliseconds
| Microseconds
| Nanoseconds.

Definition ticks_per_second (unit : resolution) : Z :=
  match unit with
  | Seconds => 1
  | Milliseconds => 1000
  | Microseconds => 1000000
  | Nanoseconds => 1000000000
  end.

Definition ticks_per_day (unit : resolution) : Z := 86400 * ticks_per_second unit.

(** [Timedelta.days] at a resolution. *)
Definition Timedelta_days_at (unit : resolution) (td : Timedelta) : Z :=
  td / ticks_per_day unit.

(** [dates_delta] on counts of ticks at a resolution: the days are read
    from the count by the length of a day in ticks, and the division acts
    on the count itself. *)
Definition dates_delta_at (unit : resolution) (time_since time_to : Timestamp)
  : outcome (Z * Timedelta) :=
  let years := ceil_div (Timedelta_days_at unit (time_to - time_since)) 365 in
  interval_step <- Timedelta_truediv (time_to - time_since) years ;;
  Ok (years, interval_step).

(* ================================================================== *)
(** * The paginator loops *)
(* ================================================================== *)

(** What [session.post] delivers: [result.status] and the JSON object
    [await result.json()]. *)
Record response : Type := Response { status : Z; json : dict }.

(** How a run of [_fetch] on a script of responses ends: the coroutine
    returned, it raised, or it has posted a request and awaits a response
    the script does not hold. *)
Inductive ending : Type :=
| Returned
| Raised (e : exn)
| Awaiting.

(** The observable state of a [_fetch] run: the shared buffer [self.data],
    the cursor, and the cursors of the requests posted so far. *)
Record fetch_run : Type := FetchRun {
  self_data : list value;
  cursor : Z;
  posted : list Z;
  ended : ending
}.

(** One pass through the body of a paginator's [while] after the response
    arrived: the buffer and cursor it leaves, and whether the loop goes on
    ([inl switcher]) or an exception leaves it ([inr e]). *)
Definition iteration : Type := list value * Z * (bool + exn).

(** [v[k]] for a string key: only a mapping can be subscripted by one. *)
Definition py_getitem_str (v : value) (k : string) : outcome value :=
  match v with
  | VDict d => dict_getitem k d
  | _ => Raise TypeError
  end.

(** [page == v] for an integer [page] and a JSON value [v]. *)
Definition py_eq_int (page : Z) (v : value) : bool :=
  match v with
  | VInt z => page =? z
  | VBool b => page =? (if b then 1 else 0)
  | _ => false
  end.

(** [result.get("message")] followed by the truth test of [if]: the
    message, when there is one that Python takes for true. *)
Definition get_message (result : dict) : option value :=
  match dict_get "message" result with
  | Some m => if truthy m then Some m else None
  | None => None
  end.

Module FBOPostingList.

(** The body of the [while] of [FBOPostingList._fetch]. *)
Definition on_response (r : response) (data : list value) (offset : Z) : iteration :=
  let status_code := status r in
  let result := json r in
  match get_message result with
  | Some error_message => (data, offset, inr (PyException status_code error_message))
  | None =>
      match (page <- dict_getitem "result" result ;;
             n <- py_len page ;;
             items <- py_iter page ;;
             Ok (negb (Z.of_nat n <? 1000), items)) with
      | Ok (switcher, items) => (data ++ items, offset + 1000, inl switcher)
      | Raise e => (data, offset, inr e)
      end
  end.

(** [while switcher: ...] with [offset] the cursor; every pass posts
    the request for the current offset first. *)
Fixpoint loop (script : list response) (data : list value) (offset : Z)
    (sent : list Z) : fetch_run :=
  let sent := sent ++ [offset] in
  match script with
  | [] => FetchRun data offset sent Awaiting
  | r :: script' =>
      match on_response r data offset with
      | (data', offset', inr e) => FetchRun data' offset' sent (Raised e)
      | (data', offset', inl true) => loop script' data' offset' sent
      | (data', offset', inl false) => FetchRun data' offset' sent Returned
      end
  end.

(** [_fetch]: [offset = 0], [switcher = True], then the loop. *)
Definition _fetch (script : list response) (data : list value) : fetch_run :=
  loop script data 0 [].

End FBOPostingList.

Module FBSPostingList.

(** The body of the [while] of [FBSPostingList._fetch]: the postings are
    appended before [has_next] is read. *)
Definition on_response (r : response) (data : list value) (offset : Z) : iteration :=
  let status_code := status r in
  let result := json r in
  match get_message result with
  | Some error_message => (data, offset, inr (PyException status_code error_message))
  | None =>
      match (res <- dict_getitem "result" result ;;
             postings <- py_getitem_str res "postings" ;;
             py_iter postings) with
      | Ok items =>
          match (res <- dict_getitem "result" result ;;
                 py_getitem_str res "has_next") with
          | Ok has_next => (data ++ items, offset + 1000, inl (truthy has_next))
          | Raise e => (data ++ items, offset, inr e)
          end
      | Raise e => (data, offset, inr e)
      end
  end.

(** [while has_next: ...] with [offset] the cursor. *)
Fixpoint loop (script : list response) (data : list value) (offset : Z)
    (sent : list Z) : fetch_run :=
  let sent := sent ++ [offset] in
  match script with
  | [] => FetchRun data offset sent Awaiting
  | r :: script' =>
      match on_response r data offset with
      | (data', offset', inr e) => FetchRun data' offset' sent (Raised e)
      | (data', offset', inl true) => loop script' data' offset' sent
      | (data', offset', inl false) => FetchRun data' offset' sent Returned
      end
  end.

(** [_fetch]: [offset = 0], [has_next = True], then the loop. *)
Definition _fetch (script : list response) (data : list value) : fetch_run :=
  loop script data 0 [].

End FBSPostingList.

Module AsyncFinanceRealizationList.

(** The body of the [while] of [AsyncFinanceRealizationList._fetch]:
    the operations are appended before [page_count] is read. *)
Definition on_response (r : response) (data : list value) (page : Z) : iteration :=
  let status_code := status r in
  let result := json r in
  match get_message result with
  | Some error_message => (data, page, inr (PyException status_code error_message))
  | None =>
      match (res <- dict_getitem "result" result ;;
             ops <- py_getitem_str res "operations" ;;
             py_iter ops) with
      | Ok items =>
          match (res <- dict_getitem "result" result ;;
                 py_getitem_str res "page_count") with
          | Ok page_count =>
              (data ++ items, page + 1, inl (negb (py_eq_int page page_count)))
          | Raise e => (data ++ items, page, inr e)
          end
      | Raise e => (data, page, inr e)
      end
  end.

Fixpoint loop (script : list response) (data : list value) (page : Z)
    (sent : list Z) : fetch_run :=
  let sent := sent ++ [page] in
  match script with
  | [] => FetchRun data page sent Awaiting
  | r :: script' =>
      match on_response r data page with
      | (data', page', inr e) => FetchRun data' page' sent (Raised e)
      | (data', page', inl true) => loop script' data' page' sent
      | (data', page', inl false) => FetchRun data' page' sent Returned
      end
  end.

(** [_fetch]: [page = 1], [switcher = True], then the loop. *)
Definition _fetch (script : list response) (data : list value) : fetch_run :=
  loop script data 1 [].

End AsyncFinanceRealizationList.

(* ================================================================== *)
(** * tools/functions.py: manage_asyncio_wait *)
(* ================================================================== *)

(** A task as [asyncio.create_task] makes it: its name and what its
    coroutine does when it is left to run to the end. *)
Inductive coroutine_end : Type :=
| Finishes
| RaisesExn (e : exn).

Record Coroutine : Type := MkCoroutine { name : nat; body : coroutine_end }.

(** How an [asyncio.Task] is found when it is done. *)
Inductive task_result : Type :=
| Succeeded
| Failed (e : exn)
| Cancelled.

Record Task : Type := MkTask { task_id : nat; result : task_result }.

(** The task once done.  A task on which [cancel()] was called while it
    was pending is found cancelled: the cancellation reaches [_fetch] at
    the [await] it is suspended in, and [_fetch] does not catch it. *)
Definition completed (cancelled : bool) (c : Coroutine) : Task :=
  MkTask (name c)
    (if cancelled then Cancelled
     else match body c with
          | Finishes => Succeeded
          | RaisesExn e => Failed e
          end).

(** What a call of the orchestrator leaves behind: the exception that left
    it, if any ([None]: it returned [None] normally), the exceptions handed
    to [logging.error], and the tasks on which [cancel()] was called. *)
Record orchestration : Type := Orchestration {
  raised : option exn;
  logged : list exn;
  cancel_calls : list nat
}.

(** [done_task.exception()]: [None] for a task that succeeded, the
    exception of one that failed; on a cancelled task the call itself
    raises [CancelledError]. *)
Definition exception (t : Task) : outcome (option exn) :=
  match result t with
  | Succeeded => Ok None
  | Failed e => Ok (Some e)
  | Cancelled => Raise CancelledError
  end.

(** [for done_task in done: ...].  [pending] names the tasks not yet
    done; the flag tells whether [cancel()] has been called on them. *)
Fixpoint for_done (done : list Task) (pending : list nat) (cancelled : bool)
    (o : orchestration) : bool * orchestration :=
  match done with
  | [] => (cancelled, o)
  | done_task :: rest =>
      match exception done_task with
      | Ok None => for_done rest pending cancelled o
      | Ok (Some e) =>
          for_done rest pending true
            (Orchestration (raised o) (logged o ++ [e]) (cancel_calls o ++ pending))
      | Raise e => (cancelled, Orchestration (Some e) (logged o) (cancel_calls o))
      end
  end.

(** [while pending: done, pending = await asyncio.wait(pending, FIRST_COMPLETED); ...].
    The event loop's choices are the argument: [rounds] lists, in order,
    the sets [done] that the successive calls of [asyncio.wait] return.
    Since [cancel()] is only ever called on all pending tasks at once, one
    flag records it. *)
Fixpoint wait_loop (rounds : list (list Coroutine)) (cancelled : bool)
    (o : orchestration) : orchestration :=
  match rounds with
  | [] => o
  | done :: pending =>
      let (cancelled', o') :=
        for_done (map (completed cancelled) done)
                 (map name (List.concat pending)) cancelled o in
      match raised o' with
      | Some _ => o'
      | None => wait_loop pending cancelled' o'
      end
  end.

Definition manage_asyncio_wait (rounds : list (list Coroutine)) : orchestration :=
  wait_loop rounds false (Orchestration None [] []).

(* ================================================================== *)
(** * fetchers/FBO.py: _main, the fan-out *)
(* ================================================================== *)

Module FanOut.

(** A fetch task is suspended in its [while], waiting for the response
    to the request at [offset], or it is done. *)
Inductive task_state : Type :=
| Running (offset : Z)
| Done (r : task_result).

(** The run: the shared [self.data], the tasks (one per window, in
    creation order), the orchestrator's [pending] set and record, and
    whether [manage_asyncio_wait] has been left. *)
Record run_state : Type := RunState {
  buffer : list value;
  tasks : list task_state;
  pending : list nat;
  orch : orchestration;
  finished : bool
}.

(** What the event loop does next: it hands task [i] the response to its
    request, or it resumes the orchestrator from [asyncio.wait]. *)
Inductive event : Type :=
| Deliver (i : nat) (r : response)
| Wake.

Fixpoint set_task (ts : list task_state) (i : nat) (t : task_state) : list task_state :=
  match ts, i with
  | [], _ => []
  | _ :: ts', O => t :: ts'
  | x :: ts', S i' => x :: set_task ts' i' t
  end.

Definition is_done (ts : list task_state) (i : nat) : bool :=
  match nth_error ts i with
  | Some (Done _) => true
  | _ => false
  end.

Definition as_task (ts : list task_state) (i : nat) : Task :=
  match nth_error ts i with
  | Some (Done r) => MkTask i r
  | _ => MkTask i Succeeded
  end.

(** The cancellation reaches a task at its suspension point: a running
    task ends cancelled, without reading another response. *)
Definition cancel_running (t : task_state) : task_state :=
  match t with
  | Running _ => Done Cancelled
  | Done r => Done r
  end.

(** One pass of a task through the body of [_fetch]'s loop. *)
Definition deliver (i : nat) (r : response) (s : run_state) : run_state :=
  match nth_error (tasks s) i with
  | Some (Running offset) =>
      let '(data', offset', next) := FBOPostingList.on_response r (buffer s) offset in
      let t := match next with
               | inl true => Running offset'
               | inl false => Done Succeeded
               | inr e => Done (Failed e)
               end in
      RunState data' (set_task (tasks s) i t) (pending s) (orch s) (finished s)
  | _ => s
  end.

(** One pass of the orchestrator through the body of its [while]:
    [asyncio.wait] returns only when some pending task is done. *)
Definition wake (s : run_state) : run_state :=
  if finished s then s
  else
    let done := filter (is_done (tasks s)) (pending s) in
    let pending' := filter (fun i => negb (is_done (tasks s) i)) (pending s) in
    match done with
    | [] => s
    | _ =>
        let (cancelled, o) :=
          for_done (map (as_task (tasks s)) done) pending' false (orch s) in
        let ts := if cancelled then map cancel_running (tasks s) else tasks s in
        let over := match raised o, pending' with
                    | Some _, _ => true
                    | None, [] => true
                    | None, _ => false
                    end in
        RunState (buffer s) ts pending' o over
    end.

Definition step (s : run_state) (ev : event) : run_state :=
  match ev with
  | Deliver i r => deliver i r s
  | Wake => wake s
  end.

Definition run (evs : list event) (s : run_state) : run_state :=
  fold_left step evs s.

(** [_main]: one task per window, [years] of them, all pending. *)
Definition _main (years : nat) (data : list value) : run_state :=
  RunState data (repeat (Running 0) years) (seq 0 years)
           (Orchestration None [] []) (Nat.eqb years 0).

End FanOut.

(* ================================================================== *)
(** * Vocabulary of the specification *)
(* ================================================================== *)

(** ** Record normalizer *)

(** The records of [data] exist in the store and are Python dicts. *)
Definition records_ok (h : heap) (data : list loc) : bool :=
  forallb (fun l => match heap_get h l with
                    | Some d => unique_keys d
                    | None => false
                    end) data.


(** The store [st] reached from [h] still holds [h] untouched, and the
    records listed in its output are objects created since. *)
Definition extends (h : heap) (st : heap * list loc) : Prop :=
  (exists t, fst st = h ++ t) /\ Forall (fun l => (List.length h <= l)%nat) (snd st).

(** ** Count-based paginator *)

(** A response of the order-list endpoint that carries no error message
    and a list of postings. *)
Definition page_items (r : response) : option (list value) :=
  match get_message (json r), dict_get "result" (json r) with
  | None, Some (VList l) => Some l
  | _, _ => None
  end.

Definition full_page (r : response) : bool :=
  match page_items r with
  | Some l => Nat.eqb (List.length l) 1000
  | None => false
  end.

Definition short_page (r : response) : bool :=
  match page_items r with
  | Some l => Nat.ltb (List.length l) 1000
  | None => false
  end.

Definition items_of (r : response) : list value :=
  match page_items r with
  | Some l => l
  | None => []
  end.

(** The offsets [start], [start + 1000], ... of [n] successive requests. *)
Definition offsets (start : Z) (n : nat) : list Z :=
  map (fun i => start + 1000 * Z.of_nat i) (seq 0 n).

(** A mock response: status 200 and [n] postings. *)
Definition page_of_size (n : nat) : response :=
  Response 200 [("result", VList (repeat (VDict []) n))].

(** ** Page-count paginator *)

(** A response of the transaction endpoint that carries no error message,
    operations that can be appended and a page count. *)
Definition reports (r : response) : option (list value * value) :=
  match get_message (json r), dict_get "result" (json r) with
  | None, Some (VDict res) =>
      match dict_get "operations" res, dict_get "page_count" res with
      | Some ops, Some page_count =>
          match py_iter ops with
          | Ok items => Some (items, page_count)
          | _ => None
          end
      | _, _ => None
      end
  | _, _ => None
  end.

(** Every response reports a page count below the page it answers, the
    pages being [page], [page + 1], ... *)
Fixpoint below_counter (page : Z) (script : list response) : bool :=
  match script with
  | [] => true
  | r :: script' =>
      match reports r with
      | Some (_, VInt page_count) =>
          (page_count <? page) && below_counter (page + 1) script'
      | _ => false
      end
  end.

(** The pages [start], [start + 1], ... of [n] successive requests. *)
Definition pages (start : Z) (n : nat) : list Z :=
  map (fun i => start + Z.of_nat i) (seq 0 n).

(** A mock response: status 200, [n] operations and a page count. *)
Definition operations_page (n : nat) (page_count : Z) : response :=
  Response 200 [("result", VDict [("operations", VList (repeat (VDict []) n));
                                  ("page_count", VInt page_count)])].

(** ** Orchestrator *)

Definition finishes (c : Coroutine) : bool :=
  match body c with
  | Finishes => true
  | RaisesExn _ => false
  end.

(** The only exception that can leave the orchestrator. *)
Definition quiet (o : orchestration) : Prop :=
  raised o = None \/ raised o = Some CancelledError.

(** [o'] continues [o]: nothing logged or cancelled is forgotten. *)
Definition continues (o o' : orchestration) : Prop :=
  (exists l, logged o' = logged o ++ l) /\
  (exists c, cancel_calls o' = cancel_calls o ++ c).

(* ================================================================== *)
(** * fetchers/FBO.py and fetchers/FBS.py: the windows of _main *)
(* ================================================================== *)

Local Open Scope Z_scope.

(** [FBOPostingList._main] and [FBSPostingList._main]:
    [for year in range(self.years): create_task(self._fetch(session, since));
     since += self.interval + offsets.Second(1)],
    with [second] for [offsets.Second(1)] as a count of ticks.
    Every task fetches the window from [since] to [since + self.interval]
    ([_fetch] computes both ends before its loop). *)
Fixpoint task_windows (second : Z) (years : nat) (since : Timestamp)
    (interval : Timedelta) : list (Timestamp * Timestamp) :=
  match years with
  | O => []
  | S years' =>
      (since, since + interval)
        :: task_windows second years' (since + (interval + second)) interval
  end.

(** [__init__] followed by the loop of [_main], on timestamps at a
    resolution: [range(self.years)] is empty when [self.years] is
    negative. *)
Definition posting_windows (unit : resolution) (date_since date_to : Timestamp)
  : outcome (list (Timestamp * Timestamp)) :=
  p <- dates_delta_at unit date_since date_to ;;
  let (years, interval) := p in
  Ok (task_windows (ticks_per_second unit) (Z.to_nat years) date_since interval).

(* ================================================================== *)
(** * fetchers/Products.py *)
(* ================================================================== *)

Local Open Scope Z_scope.

Module Products.

(** What leaves a method of [Products]: an exception of Python itself, or
    the [Exception(f"... OZON request: {status_code}\nURL: {api_method}\n
    Message: {message}")] of a refused request, whose three arguments are
    the three interpolated fields. *)
Inductive failure : Type :=
| Python (e : exn)
| RequestError (status_code : Z) (api_method : string) (message : value).

Definition lift {A : Type} (m : outcome A) : A + failure :=
  match m with
  | Ok a => inl a
  | Raise e => inr (Python e)
  end.

(** [_post_request]: the items, the total and the last id of the page, or
    the exception built from a status other than 200. *)
Definition _post_request (api_method : string) (req : response)
  : (value * value * value) + failure :=
  if negb (status req =? 200) then
    match dict_getitem "message" (json req) with
    | Ok message => inr (RequestError (status req) api_method message)
    | Raise e => inr (Python e)
    end
  else
    lift (result <- dict_getitem "result" (json req) ;;
          items <- py_getitem_str result "items" ;;
          total <- py_getitem_str result "total" ;;
          last_id <- py_getitem_str result "last_id" ;;
          Ok (items, total, last_id)).

(** [cnt >= total] for the integer [cnt] and a JSON value [total]. *)
Definition py_int_ge (cnt : Z) (total : value) : outcome bool :=
  match total with
  | VInt z => Ok (z <=? cnt)
  | VBool b => Ok ((if b then 1 else 0) <=? cnt)
  | _ => Raise TypeError
  end.

Inductive ending : Type :=
| Returned
| Raised (e : failure)
| Awaiting.

(** The observable state of a run of [_get_products_prices_stocks]: the
    list [self_attr] it fills, [self.body["last_id"]], and the [last_id]
    of every request posted. *)
Record paging : Type := Paging {
  self_attr : list value;
  body_last_id : value;
  posted : list value;
  ended : ending
}.

(** [self.body["limit"]], as [__init__] sets it. *)
Definition limit : Z := 1000.

(** [while switch: ...]; every pass posts the request with the current
    [self.body["last_id"]] first. *)
Fixpoint loop (api : string) (script : list response) (self_attr : list value)
    (last_id : value) (cnt : Z) (sent : list value) : paging :=
  let sent := sent ++ [last_id] in
  match script with
  | [] => Paging self_attr last_id sent Awaiting
  | req :: script' =>
      match _post_request api req with
      | inr e => Paging self_attr last_id sent (Raised e)
      | inl (items, total, last_id') =>
          match py_iter items with
          | Raise e => Paging self_attr last_id sent (Raised (Python e))
          | Ok items =>
              let self_attr := self_attr ++ items in
              let cnt := cnt + limit in
              match py_int_ge cnt total with
              | Raise e => Paging self_attr last_id' sent (Raised (Python e))
              | Ok true => Paging self_attr VNone sent Returned
              | Ok false => loop api script' self_attr last_id' cnt sent
              end
          end
      end
  end.

(** [_get_products_prices_stocks(api, self_attr)], entered with
    [self.body["last_id"]] as the object holds it. *)
Definition _get_products_prices_stocks (api : string) (script : list response)
    (self_attr : list value) (last_id : value) : paging :=
  loop api script self_attr last_id 0 [].

(** [[product["product_id"] for product in self.products]]. *)
Fixpoint products_id (products : list value) : outcome (list value) :=
  match products with
  | [] => Ok []
  | product :: rest =>
      id <- py_getitem_str product "product_id" ;;
      ids <- products_id rest ;;
      Ok (id :: ids)
  end.

(** [(len(products_id) / 1000).__ceil__()]. *)
Definition thousands (products_id : list value) : nat :=
  Z.to_nat (ceil_div (Z.of_nat (List.length products_id)) 1000).

(** [products_id[(1000 * n_thousand):(1000 * (n_thousand + 1))]]. *)
Definition slice (products_id : list value) (n_thousand : nat) : list value :=
  firstn 1000 (skipn (1000 * n_thousand) products_id).

Definition product_info_list : string :=
  "https://api-seller.ozon.ru/v2/product/info/list".

(** The observable state of a run of [_get_products_info_list]:
    [self.product_info] and the list of ids of every request posted. *)
Record info_run : Type := InfoRun {
  product_info : list value;
  requested : list (list value);
  info_ended : ending
}.

(** [for n_thousand in range(thousands): ...]. *)
Fixpoint for_thousands (products_id : list value) (range : list nat)
    (script : list response) (product_info : list value)
    (sent : list (list value)) : info_run :=
  match range with
  | [] => InfoRun product_info sent Returned
  | n_thousand :: range' =>
      let sent := sent ++ [slice products_id n_thousand] in
      match script with
      | [] => InfoRun product_info sent Awaiting
      | req :: script' =>
          if status req =? 200 then
            match (result <- dict_getitem "result" (json req) ;;
                   items <- py_getitem_str result "items" ;;
                   py_iter items) with
            | Ok items =>
                for_thousands products_id range' script' (product_info ++ items) sent
            | Raise e => InfoRun product_info sent (Raised (Python e))
            end
          else
            match dict_getitem "message" (json req) with
            | Ok message =>
                InfoRun product_info sent
                        (Raised (RequestError (status req) product_info_list message))
            | Raise e => InfoRun product_info sent (Raised (Python e))
            end
      end
  end.

Definition _get_products_info_list (products : list value) (script : list response)
    (product_info : list value) : info_run :=
  match products_id products with
  | Raise e => InfoRun product_info [] (Raised (Python e))
  | Ok ids => for_thousands ids (seq 0 (thousands ids)) script product_info []
  end.

End Products.

Local Open Scope nat_scope.

(* ================================================================== *)
(** * tools/functions.py: flatten_list *)
(* ================================================================== *)

Fixpoint all2 {A : Type} (f : A -> A -> bool) (l m : list A) : bool :=
  match l, m with
  | [], [] => true
  | x :: l', y :: m' => f x y && all2 f l' m'
  | _, _ => false
  end.

(** [a == b] on JSON values: [True] and [False] are the integers 1 and 0,
    lists are equal item by item, mappings when they hold equal values
    under the same keys, and values of different kinds are unequal. *)
Fixpoint py_eqb (a b : value) {struct a} : bool :=
  match a, b with
  | VNone, VNone => true
  | VBool x, VBool y => Bool.eqb x y
  | VBool x, VInt y => Z.eqb (if x then 1 else 0) y
  | VInt x, VBool y => Z.eqb x (if y then 1 else 0)
  | VInt x, VInt y => Z.eqb x y
  | VStr x, VStr y => String.eqb x y
  | VList l, VList m => all2 py_eqb l m
  | VDict d, VDict e =>
      Nat.eqb (List.length d) (List.length e) &&
      forallb (fun kv : string * value => let (k, x) := kv in
                         match dict_get k e with
                         | Some y => py_eqb x y
                         | None => false
                         end) d
  | _, _ => false
  end.

Definition is_list (v : value) : bool :=
  match v with
  | VList _ => true
  | _ => false
  end.

(** [l.remove(x)]: the first item equal to [x] goes; [None] is
    Python's [ValueError] when there is none. *)
Fixpoint list_remove (x : value) (l : list value) : option (list value) :=
  match l with
  | [] => None
  | item :: l' =>
      if py_eqb item x then Some l'
      else match list_remove x l' with
           | Some r => Some (item :: r)
           | None => None
           end
  end.

(** How a run of [flatten_list] ends. *)
Inductive flattening : Type :=
| Gives (output_array : list value)
| ValueError
| OutOfFuel.

(** [for value in output_array: ...], with [v] for the loop variable: the
    iterator of a list keeps an index [i] into the list, which the body
    shortens and extends, and stops when the index reaches the end. *)
Fixpoint for_values (fuel : nat) (i : nat) (output_array : list value) : flattening :=
  match fuel with
  | O => OutOfFuel
  | S fuel' =>
      match nth_error output_array i with
      | None => Gives output_array
      | Some v =>
          match v with
          | VList for_append =>
              match list_remove v output_array with
              | None => ValueError
              | Some removed => for_values fuel' (S i) (removed ++ for_append)
              end
          | _ => for_values fuel' (S i) output_array
          end
      end
  end.

(** Number of values in a value, lists in lists counted with their items. *)
Fixpoint nodes (v : value) : nat :=
  match v with
  | VList l => S (list_sum (map nodes l))
  | _ => 1
  end.

Definition weight (array : list value) : nat := list_sum (map nodes array).

(** [while any(isinstance(i, list) for i in output_array): for ...]. *)
Fixpoint while_any_list (fuel : nat) (output_array : list value) : flattening :=
  match fuel with
  | O => OutOfFuel
  | S fuel' =>
      if existsb is_list output_array then
        match for_values (S (weight output_array)) 0 output_array with
        | Gives output_array' => while_any_list fuel' output_array'
        | stopped => stopped
        end
      else Gives output_array
  end.

(** [flatten_list(array)]; [deepcopy] gives the loops a list of their own,
    which a list of values is. *)
Definition flatten_list (array : list value) : flattening :=
  let output_array := array in
  while_any_list (S (weight output_array)) output_array.

(* ================================================================== *)
(** * fetchers/Finance.py: the windows of _main *)
(* ================================================================== *)

Local Open Scope Z_scope.

Module FinanceWindows.

(** A [Timestamp] as the calendar sees it: the date and the nanoseconds
    since midnight.  The years are unbounded here; [datetime] stops at
    9999. *)
Record datetime : Type := Datetime {
  year : Z;
  month : Z;
  day : Z;
  time : Z
}.

Definition isleap (y : Z) : bool :=
  (y mod 4 =? 0) && (negb (y mod 100 =? 0) || (y mod 400 =? 0)).

(** [calendar.monthrange(year, month)[1]]: the days of the month. *)
Definition monthrange (y m : Z) : Z :=
  if m =? 2 then (if isleap y then 29 else 28)
  else if (m =? 4) || (m =? 6) || (m =? 9) || (m =? 11) then 30
  else 31.

(** [a < b] on timestamps. *)
Definition lt (a b : datetime) : bool :=
  if year a =? year b then
    if month a =? month b then
      if day a =? day b then time a <? time b
      else day a <? day b
    else month a <? month b
  else year a <? year b.

(** [dt + relativedelta(months=+1)]: the next month, on the same day or
    on the month's last one. *)
Definition plus_month (dt : datetime) : datetime :=
  let m := month dt + 1 in
  let y := if 12 <? m then year dt + 1 else year dt in
  let m := if 12 <? m then m - 12 else m in
  Datetime y m (Z.min (monthrange y m) (day dt)) (time dt).

(** [dt + timedelta(days=1)]. *)
Definition plus_day (dt : datetime) : datetime :=
  if day dt <? monthrange (year dt) (month dt) then
    Datetime (year dt) (month dt) (day dt + 1) (time dt)
  else if month dt <? 12 then Datetime (year dt) (month dt + 1) 1 (time dt)
  else Datetime (year dt + 1) 1 1 (time dt).

(** [dt + relativedelta(months=+1, days=+1)]: the month first, the day
    after it. *)
Definition plus_month_day (dt : datetime) : datetime := plus_day (plus_month dt).

(** [while start < self.to: ...]; [pending] holds the two dates every task
    is created with. *)
Fixpoint while_start (fuel : nat) (start to : datetime)
    (pending : list (datetime * datetime)) : option (list (datetime * datetime)) :=
  match fuel with
  | O => None
  | S fuel' =>
      if lt start to then
        let date_to := plus_month start in
        while_start fuel' (plus_month_day start) to (pending ++ [(start, date_to)])
      else Some pending
  end.

(** Months since year 0. *)
Definition month_index (dt : datetime) : Z := 12 * year dt + month dt.

(** [_main], with one unit of fuel for every month from [self.since] to
    [self.to] and one for the last test. *)
Definition _main (since to : datetime) : option (list (datetime * datetime)) :=
  while_start (S (Z.to_nat (month_index to - month_index since + 1))) since to [].

End FinanceWindows.

(* ================================================================== *)
(** * Vocabulary of the further properties *)
(* ================================================================== *)

(** ** Explode *)

Local Open Scope nat_scope.

(** The record at [l], for a location that names one. *)
Definition record_at (h : heap) (l : loc) : dict :=
  match heap_get h l with
  | Some d => d
  | None => []
  end.

(** The record at [l] holds a list under [column]. *)
Definition list_column (h : heap) (column : string) (l : loc) : bool :=
  match dict_get column (record_at h l) with
  | Some (VList _) => true
  | _ => false
  end.

(** One copy of the record for every element of the list under [column],
    the list replaced by the element. *)
Definition explode_record (column : string) (d : dict) : list dict :=
  match dict_get column d with
  | Some (VList items) => map (fun x => dict_set column x d) items
  | _ => []
  end.

(** The same for two lists read side by side. *)
Definition explode_record2 (first_column second_column : string) (d : dict) : list dict :=
  match dict_get first_column d, dict_get second_column d with
  | Some (VList l1), Some (VList l2) =>
      map (fun xy => dict_set first_column (fst xy) (dict_set second_column (snd xy) d))
          (combine l1 l2)
  | _, _ => []
  end.

(** The record at [l] holds lists of one length under the two columns. *)
Definition aligned_columns (h : heap) (first_column second_column : string) (l : loc)
  : bool :=
  match dict_get first_column (record_at h l), dict_get second_column (record_at h l) with
  | Some (VList l1), Some (VList l2) => Nat.eqb (List.length l1) (List.length l2)
  | _, _ => false
  end.

(** ** Flag and page-count paginators *)

Local Open Scope Z_scope.

(** A response of the FBS endpoint that carries no error message, postings
    that can be appended and a [has_next] field. *)
Definition postings_page (r : response) : option (list value * value) :=
  match get_message (json r), dict_get "result" (json r) with
  | None, Some (VDict res) =>
      match dict_get "postings" res, dict_get "has_next" res with
      | Some postings, Some has_next =>
          match py_iter postings with
          | Ok items => Some (items, has_next)
          | _ => None
          end
      | _, _ => None
      end
  | _, _ => None
  end.

Definition more_page (r : response) : bool :=
  match postings_page r with
  | Some (_, has_next) => truthy has_next
  | None => false
  end.

Definition final_page (r : response) : bool :=
  match postings_page r with
  | Some (_, has_next) => negb (truthy has_next)
  | None => false
  end.

Definition postings_of (r : response) : list value :=
  match postings_page r with
  | Some (items, _) => items
  | None => []
  end.

(** A mock response of the FBS endpoint. *)
Definition postings_response (n : nat) (has_next : bool) : response :=
  Response 200 [("result", VDict [("postings", VList (repeat (VDict []) n));
                                  ("has_next", VBool has_next)])].

Definition operations_of (r : response) : list value :=
  match reports r with
  | Some (items, _) => items
  | None => []
  end.

(** Every response reports a page count other than the page it answers,
    the pages being [page], [page + 1], ... *)
Fixpoint other_pages (page : Z) (script : list response) : bool :=
  match script with
  | [] => true
  | r :: script' =>
      match reports r with
      | Some (_, page_count) =>
          negb (py_eq_int page page_count) && other_pages (page + 1) script'
      | None => false
      end
  end.

(** The response reports the page it answers as the page count. *)
Definition last_page (page : Z) (r : response) : bool :=
  match reports r with
  | Some (_, page_count) => py_eq_int page page_count
  | None => false
  end.

(** ** Any paginator, and the orchestrator *)

(** The cursors [start], [start + step], ... of [n] successive requests. *)
Definition cursors (start step : Z) (n : nat) : list Z :=
  map (fun i => start + step * Z.of_nat i) (seq 0 n).

(** Some task inspected in one round fails while a later round still holds
    a task. *)
Fixpoint fails_with_pending (rounds : list (list Coroutine)) : bool :=
  match rounds with
  | [] => false
  | done :: pending =>
      (negb (forallb finishes done)
       && match List.concat pending with [] => false | _ => true end)
      || fails_with_pending pending
  end.

(** The exceptions of the tasks that fail, in order. *)
Definition failures (cs : list Coroutine) : list exn :=
  flat_map (fun c => match body c with
                     | RaisesExn e => [e]
                     | Finishes => []
                     end) cs.

(** ** Flatten *)

Local Open Scope nat_scope.

(** The fields a record ends with when nothing collides: every value that
    is not a mapping, under the keys on the way to it joined by [__]. *)
Fixpoint paths_entry (key : string) (v : value) : list (string * value) :=
  match v with
  | VDict d =>
      (fix go (d : list (string * value)) : list (string * value) :=
         match d with
         | [] => []
         | (nested_key, x) :: d' =>
             paths_entry ((key ++ "__") ++ nested_key) x ++ go d'
         end) d
  | _ => [(key, v)]
  end.

Definition paths (d : dict) : list (string * value) :=
  flat_map (fun kv => paths_entry (fst kv) (snd kv)) d.

(** The keys flattening goes through: those of the fields and of every
    mapping on the way. *)
Fixpoint node_keys_entry (key : string) (v : value) : list string :=
  key ::
  match v with
  | VDict d =>
      (fix go (d : list (string * value)) : list string :=
         match d with
         | [] => []
         | (nested_key, x) :: d' =>
             node_keys_entry ((key ++ "__") ++ nested_key) x ++ go d'
         end) d
  | _ => []
  end.

Definition node_keys (d : dict) : list string :=
  flat_map (fun kv => node_keys_entry (fst kv) (snd kv)) d.

Fixpoint distinct (l : list string) : bool :=
  match l with
  | [] => true
  | k :: l' => negb (existsb (String.eqb k) l') && distinct l'
  end.

(** What [promote] adds to the parent record for a mapping under
    [parent_key]. *)
Definition promoted (parent_key : string) (nested : dict) : dict :=
  map (fun kv => ((parent_key ++ "__") ++ fst kv, snd kv)%string) nested.

(** ** Fan-out *)

Definition is_running (t : FanOut.task_state) : bool :=
  match t with
  | FanOut.Running _ => true
  | FanOut.Done _ => false
  end.

Definition is_cancelled (t : FanOut.task_state) : bool :=
  match t with
  | FanOut.Done Cancelled => true
  | _ => false
  end.

(** What every state of a run satisfies: a task that is still running is
    in the orchestrator's [pending]; once a task has been cancelled, or the
    orchestrator has been left, no task is running; and the orchestrator is
    left as soon as an exception leaves it. *)
Definition run_invariant (s : FanOut.run_state) : Prop :=
  (forall i t, nth_error (FanOut.tasks s) i = Some t -> is_running t = true ->
               In i (FanOut.pending s)) /\
  (FanOut.finished s = true -> existsb is_running (FanOut.tasks s) = false) /\
  (existsb is_cancelled (FanOut.tasks s) = true ->
   existsb is_running (FanOut.tasks s) = false) /\
  (raised (FanOut.orch s) <> None -> FanOut.finished s = true).

Local Open Scope Z_scope.

(** ** Product pages *)

(** A response with status 200 whose [result] holds a list of items, the
    integer [total] and some [last_id]. *)
Definition products_page (total : Z) (r : response) : bool :=
  (status r =? 200) &&
  match dict_get "result" (json r) with
  | Some (VDict res) =>
      match dict_get "items" res, dict_get "total" res, dict_get "last_id" res with
      | Some (VList _), Some (VInt t), Some _ => t =? total
      | _, _, _ => false
      end
  | _ => false
  end.

Definition page_products (r : response) : list value :=
  match dict_get "result" (json r) with
  | Some (VDict res) =>
      match dict_get "items" res with
      | Some (VList items) => items
      | _ => []
      end
  | _ => []
  end.

Definition page_last_id (r : response) : value :=
  match dict_get "result" (json r) with
  | Some (VDict res) =>
      match dict_get "last_id" res with
      | Some last_id => last_id
      | None => VNone
      end
  | _ => VNone
  end.

(** A response with status 200 whose [result] holds a list of items. *)
Definition info_page (r : response) : bool :=
  (status r =? 200) &&
  match dict_get "result" (json r) with
  | Some (VDict res) =>
      match dict_get "items" res with
      | Some (VList _) => true
      | _ => false
      end
  | _ => false
  end.

Local Open Scope nat_scope.

(** ** Nested lists *)

(** The items of a value that are not lists, through every depth of
    nested lists. *)
Fixpoint leaves (v : value) : list value :=
  match v with
  | VList l => flat_map leaves l
  | _ => [v]
  end.

(** Every mapping in the value holds a key once, as a Python dict does. *)
Fixpoint well_formed (v : value) : bool :=
  match v with
  | VList l => forallb well_formed l
  | VDict d =>
      unique_keys d &&
      forallb (fun kv : string * value => let (_, x) := kv in well_formed x) d
  | _ => true
  end.

Definition leaves_of (array : list value) : list value := flat_map leaves array.

(** Induction on a value with the items of its lists and the fields of
    its mappings. *)
Section ValueInduction.

Variable P : value -> Prop.
Hypothesis HNone : P VNone.
Hypothesis HBool : forall b, P (VBool b).
Hypothesis HInt : forall z, P (VInt z).
Hypothesis HStr : forall s, P (VStr s).
Hypothesis HList : forall l, Forall P l -> P (VList l).
Hypothesis HDict : forall d, Forall (fun kv => P (snd kv)) d -> P (VDict d).

Fixpoint value_induction (v : value) : P v :=
  match v with
  | VNone => HNone
  | VBool b => HBool b
  | VInt z => HInt z
  | VStr s => HStr s
  | VList l =>
      HList l ((fix go (l : list value) : Forall P l :=
                  match l with
                  | [] => Forall_nil P
                  | x :: l' => Forall_cons x (value_induction x) (go l')
                  end) l)
  | VDict d =>
      HDict d ((fix go (d : list (string * value)) : Forall (fun kv => P (snd kv)) d :=
                  match d with
                  | [] => Forall_nil _
                  | kv :: d' =>
                      Forall_cons kv
                        (match kv return P (snd kv) with (_, x) => value_induction x end)
                        (go d')
                  end) d)
  end.

End ValueInduction.

(** ** Calendar *)

Local Open Scope Z_scope.

(** A date of the calendar. *)
Definition calendar_date (dt : FinanceWindows.datetime) : bool :=
  (1 <=? FinanceWindows.month dt) && (FinanceWindows.month dt <=? 12) &&
  (1 <=? FinanceWindows.day dt) &&
  (FinanceWindows.day dt
   <=? FinanceWindows.monthrange (FinanceWindows.year dt) (FinanceWindows.month dt)).

(* ================================================================== *)
(** * Properties of the dictionary primitives *)
(* ================================================================== *)

Local Open Scope nat_scope.

Section DictLemmas.

Lemma dict_get_In_keys k d : dict_get k d <> None <-> In k (keys d).
Proof.
  induction d as [|[k' v'] d IH]; simpl.
  - split; [congruence | tauto].
  - destruct (String.eqb_spec k k') as [->|Hne].
    + split; [auto | congruence].
    + rewrite IH. split; [auto | intros [H|H]; [congruence | exact H]].
Qed.

Lemma dict_get_set k k' v d :
  dict_get k (dict_set k' v d) = if String.eqb k k' then Some v else dict_get k d.
Proof.
  induction d as [|[k0 v0] d IH]; simpl.
  - destruct (String.eqb k k'); reflexivity.
  - destruct (String.eqb_spec k' k0) as [->|Hne]; simpl.
    + destruct (String.eqb k k0); reflexivity.
    + destruct (String.eqb_spec k k0) as [->|Hne2].
      * destruct (String.eqb_spec k0 k'); [congruence | reflexivity].
      * exact IH.
Qed.

Lemma dict_get_pop_other k k' d :
  k <> k' -> dict_get k (dict_pop k' d) = dict_get k d.
Proof.
  intros Hne. induction d as [|[k0 v0] d IH]; simpl; [reflexivity|].
  destruct (String.eqb_spec k' k0) as [->|Hne0]; simpl.
  - destruct (String.eqb_spec k k0); [congruence | reflexivity].
  - rewrite IH. reflexivity.
Qed.

Lemma keys_set k v d :
  keys (dict_set k v d) = if existsb (String.eqb k) (keys d) then keys d else keys d ++ [k].
Proof.
  induction d as [|[k0 v0] d IH]; simpl; [reflexivity|].
  destruct (String.eqb_spec k k0) as [->|Hne]; simpl; [reflexivity|].
  unfold keys in *. rewrite IH. destruct (existsb _ _); reflexivity.
Qed.

Lemma existsb_eqb_In k l : existsb (String.eqb k) l = true <-> In k l.
Proof.
  rewrite existsb_exists. split.
  - intros [x [Hin Heq]]. apply String.eqb_eq in Heq. subst. exact Hin.
  - intros Hin. exists k. split; [exact Hin | apply String.eqb_refl].
Qed.

Lemma unique_keys_NoDup d : unique_keys d = true <-> NoDup (keys d).
Proof.
  induction d as [|[k v] d IH]; simpl.
  - split; [constructor | reflexivity].
  - rewrite andb_true_iff, negb_true_iff, IH. split.
    + intros [Hn Hd]. constructor; [|exact Hd].
      intros Hin. apply existsb_eqb_In in Hin. congruence.
    + intros H. inversion H as [|? ? Hn Hd]; subst. split; [|exact Hd].
      destruct (existsb _ _) eqn:E; [|reflexivity].
      apply existsb_eqb_In in E. contradiction.
Qed.

Lemma NoDup_keys_set k v d : NoDup (keys d) -> NoDup (keys (dict_set k v d)).
Proof.
  intros H. rewrite keys_set. destruct (existsb _ _) eqn:E; [exact H|].
  apply NoDup_app; [exact H | repeat constructor; simpl; tauto |].
  intros x Hx [<-|[]]. apply existsb_eqb_In in Hx. congruence.
Qed.

Lemma In_keys_pop k k' d : In k (keys (dict_pop k' d)) -> In k (keys d).
Proof.
  induction d as [|[k0 v0] d IH]; simpl; [tauto|].
  destruct (String.eqb k' k0); simpl; intuition.
Qed.

Lemma NoDup_keys_pop k d : NoDup (keys d) -> NoDup (keys (dict_pop k d)).
Proof.
  induction d as [|[k0 v0] d IH]; simpl; [auto|].
  intros H. inversion H as [|? ? Hn Hd]; subst.
  destruct (String.eqb k k0); simpl; [exact Hd|].
  constructor; [|auto]. intros Hin. apply Hn. eapply In_keys_pop. exact Hin.
Qed.

End DictLemmas.

(* ================================================================== *)
(** * flatten_dict: termination *)
(* ================================================================== *)

Section FlattenLemmas.

Lemma string_length_append (s1 s2 : string) :
  String.length (s1 ++ s2)%string = String.length s1 + String.length s2.
Proof. induction s1 as [|c s1 IH]; simpl; [reflexivity | now rewrite IH]. Qed.

Lemma promoted_key_fresh (parent_key nested_key : string) :
  ((parent_key ++ "__") ++ nested_key)%string <> parent_key.
Proof.
  intros H. apply (f_equal String.length) in H.
  rewrite !string_length_append in H. simpl in H. lia.
Qed.

Lemma dict_nodes_VDict d : dict_nodes (VDict d) = S (nodes_of d).
Proof.
  reflexivity.
Qed.

Lemma nodes_of_set k v d : nodes_of (dict_set k v d) <= nodes_of d + dict_nodes v.
Proof.
  induction d as [|[k0 v0] d IH]; simpl; [lia|].
  destruct (String.eqb k k0); simpl; lia.
Qed.

Lemma nodes_of_pop k v d :
  dict_get k d = Some v -> nodes_of (dict_pop k d) + dict_nodes v = nodes_of d.
Proof.
  induction d as [|[k0 v0] d IH]; simpl; [discriminate|].
  destruct (String.eqb k k0); simpl.
  - intros [= ->]. lia.
  - intros H. specialize (IH H). lia.
Qed.

Lemma nodes_of_promote (pk : string) nested parent :
  nodes_of (promote pk nested parent) <= nodes_of parent + nodes_of nested.
Proof.
  revert parent. induction nested as [|[nk nv] nested IH]; intros parent; simpl; [lia|].
  specialize (IH (dict_set ((pk ++ "__") ++ nk)%string nv parent)).
  pose proof (nodes_of_set ((pk ++ "__") ++ nk)%string nv parent). lia.
Qed.

Lemma dict_get_promote_parent (pk : string) nested parent :
  dict_get pk (promote pk nested parent) = dict_get pk parent.
Proof.
  revert parent. induction nested as [|[nk nv] nested IH]; intros parent; simpl; [reflexivity|].
  rewrite IH, dict_get_set.
  destruct (String.eqb_spec pk ((pk ++ "__") ++ nk)%string) as [E|_]; [|reflexivity].
  symmetry in E. now apply promoted_key_fresh in E.
Qed.

Lemma In_keys_promote k pk nested parent :
  In k (keys parent) -> In k (keys (promote pk nested parent)).
Proof.
  revert parent. induction nested as [|[nk nv] nested IH]; intros parent H; simpl; [exact H|].
  apply IH. rewrite keys_set. destruct (existsb _ _); [exact H|].
  apply in_or_app. now left.
Qed.

Lemma NoDup_keys_promote pk nested parent :
  NoDup (keys parent) -> NoDup (keys (promote pk nested parent)).
Proof.
  revert parent. induction nested as [|[nk nv] nested IH]; intros parent H; simpl; [exact H|].
  apply IH. now apply NoDup_keys_set.
Qed.

Lemma any_dict_value_nodes d : any_dict_value d = true -> 1 <= nodes_of d.
Proof.
  induction d as [|[k v] d IH]; simpl; [discriminate|].
  destruct v; simpl; try (intros H; specialize (IH H); lia); intros _; lia.
Qed.

Lemma any_dict_value_get d :
  NoDup (keys d) -> any_dict_value d = true ->
  exists k nested, In k (keys d) /\ dict_get k d = Some (VDict nested).
Proof.
  induction d as [|[k v] d IH]; simpl; [discriminate|].
  intros Hnd H. inversion Hnd as [|? ? Hn Hd]; subst.
  destruct (is_dict v) eqn:Ev; simpl in H.
  - destruct v; try discriminate. exists k, d0. rewrite String.eqb_refl. auto.
  - destruct (IH Hd H) as [k' [nd [Hin Hget]]]. exists k', nd. split; [auto|].
    destruct (String.eqb_spec k' k) as [->|_]; [contradiction | exact Hget].
Qed.

(** One pass over the snapshot: it cannot raise, it keeps the keys unique,
    it never adds a mapping and removes at least one if one is met. *)
Lemma for_parent_keys_pass snapshot :
  forall parent,
    NoDup snapshot ->
    (forall k, In k snapshot -> In k (keys parent)) ->
    NoDup (keys parent) ->
    exists d,
      for_parent_keys snapshot parent = Ok d /\
      NoDup (keys d) /\
      nodes_of d <= nodes_of parent /\
      ((exists k nested, In k snapshot /\ dict_get k parent = Some (VDict nested)) ->
       nodes_of d < nodes_of parent).
Proof.
  induction snapshot as [|pk rest IH]; intros parent Hnd Hin Hu; simpl.
  - exists parent. repeat split; auto. intros [k [nd [[] _]]].
  - inversion Hnd as [|? ? Hpk Hrest]; subst.
    unfold dict_getitem.
    destruct (dict_get pk parent) as [v|] eqn:Eget.
    2:{ exfalso. apply (proj2 (dict_get_In_keys pk parent)); [apply Hin; now left | exact Eget]. }
    simpl.
    assert (Hskip : (forall nd, v <> VDict nd) ->
      exists d, for_parent_keys rest parent = Ok d /\ NoDup (keys d) /\
        nodes_of d <= nodes_of parent /\
        ((exists k nested, In k (pk :: rest) /\ dict_get k parent = Some (VDict nested)) ->
         nodes_of d < nodes_of parent)).
    { intros Hv. destruct (IH parent Hrest (fun k H => Hin k (or_intror H)) Hu)
        as [d [E [Hd [Hle Hlt]]]].
      exists d. repeat split; auto.
      intros [k [nd [[<-|Hk] Hg]]].
      - rewrite Eget in Hg. injection Hg as ->. now elim (Hv nd).
      - apply Hlt. now exists k, nd. }
    destruct v as [| | | | |nested]; try (apply Hskip; intros nd; discriminate).
    clear Hskip.
    set (parent' := dict_pop pk (promote pk nested parent)).
    assert (Hnodes : nodes_of parent' < nodes_of parent).
    { pose proof (nodes_of_pop pk (VDict nested) (promote pk nested parent)) as Hp.
      rewrite dict_get_promote_parent in Hp. specialize (Hp Eget).
      rewrite dict_nodes_VDict in Hp.
      pose proof (nodes_of_promote pk nested parent). unfold parent'. lia. }
    destruct (IH parent') as [d [E [Hd [Hle _]]]].
    + exact Hrest.
    + intros k Hk. apply dict_get_In_keys. unfold parent'.
      rewrite dict_get_pop_other by (intros ->; contradiction).
      apply dict_get_In_keys. apply In_keys_promote. apply Hin. now right.
    + unfold parent'. apply NoDup_keys_pop, NoDup_keys_promote, Hu.
    + exists d. repeat split; auto; lia.
Qed.

Lemma while_any_dict_terminates fuel :
  forall parent,
    NoDup (keys parent) -> nodes_of parent <= fuel ->
    exists d, while_any_dict fuel parent = Some (Ok d) /\
              any_dict_value d = false /\ NoDup (keys d).
Proof.
  induction fuel as [|fuel IH]; intros parent Hu Hfuel.
  - simpl. destruct (any_dict_value parent) eqn:E.
    + apply any_dict_value_nodes in E. lia.
    + exists parent. auto.
  - simpl. destruct (any_dict_value parent) eqn:E.
    + destruct (for_parent_keys_pass (keys parent) parent Hu (fun k H => H) Hu)
        as [d [Epass [Hd [_ Hlt]]]].
      rewrite Epass. apply IH; [exact Hd|].
      destruct (any_dict_value_get parent Hu E) as [k [nd [Hk Hg]]].
      assert (nodes_of d < nodes_of parent) by (apply Hlt; now exists k, nd). lia.
    + exists parent. auto.
Qed.

Lemma flatten_parent_total parent :
  NoDup (keys parent) ->
  exists d, flatten_parent parent = Some (Ok d) /\
            any_dict_value d = false /\ NoDup (keys d).
Proof. intros H. apply while_any_dict_terminates; [exact H | apply Nat.le_refl]. Qed.

Lemma flatten_parent_flat parent :
  any_dict_value parent = false -> flatten_parent parent = Some (Ok parent).
Proof.
  intros H. unfold flatten_parent. destruct (nodes_of parent); simpl; rewrite H; reflexivity.
Qed.

End FlattenLemmas.

(** Nested mappings are promoted at every depth, the new keys being
    [parentKey__nestedKey]. *)
Example flatten_parent_renames_keys :
  flatten_parent
    [("posting", VDict [("id", VInt 7);
                        ("analytics", VDict [("region", VStr "MSK");
                                             ("geo", VDict [("zone", VInt 2)])])]);
     ("status", VStr "delivered")]
  = Some (Ok [("status", VStr "delivered");
              ("posting__id", VInt 7);
              ("posting__analytics__region", VStr "MSK");
              ("posting__analytics__geo__zone", VInt 2)]).
Proof. reflexivity. Qed.

Section HeapLemmas.

Lemma heap_get_set_same h : forall l d d0,
  heap_get h l = Some d0 -> heap_get (heap_set h l d) l = Some d.
Proof.
  unfold heap_get. induction h as [|x h IH]; intros [|l] d d0; simpl; try discriminate; auto.
  apply IH.
Qed.

Lemma heap_get_set_other h : forall l l' d,
  l <> l' -> heap_get (heap_set h l d) l' = heap_get h l'.
Proof.
  unfold heap_get. induction h as [|x h IH]; intros [|l] [|l'] d Hne; simpl; auto; try congruence.
Qed.



Lemma records_ok_spec h data :
  records_ok h data = true ->
  forall l, In l data -> exists d, heap_get h l = Some d /\ NoDup (keys d).
Proof.
  unfold records_ok. rewrite forallb_forall. intros H l Hl. specialize (H l Hl).
  destruct (heap_get h l) as [d|]; [|discriminate].
  exists d. split; [reflexivity | now apply unique_keys_NoDup].
Qed.

End HeapLemmas.

(* ================================================================== *)
(** * mult_data and mult_data2 *)
(* ================================================================== *)

Section ExplodeLemmas.

Lemma heap_get_app_old (h t : heap) l d :
  heap_get h l = Some d -> heap_get (h ++ t) l = Some d.
Proof.
  unfold heap_get. intros H. rewrite nth_error_app1; [exact H|].
  apply nth_error_Some. congruence.
Qed.

Lemma heap_get_app_last (h : heap) d : heap_get (h ++ [d]) (List.length h) = Some d.
Proof.
  unfold heap_get. rewrite nth_error_app2 by apply Nat.le_refl.
  now rewrite Nat.sub_diag.
Qed.

Lemma heap_set_app_last (h : heap) d d' :
  heap_set (h ++ [d]) (List.length h) d' = h ++ [d'].
Proof. induction h as [|x h IH]; simpl; [reflexivity | now rewrite IH]. Qed.

Lemma skipn_nth_error {A} (l : list A) : forall i x,
  nth_error l i = Some x -> skipn i l = x :: skipn (S i) l.
Proof.
  induction l as [|y l IH]; intros [|i] x; simpl; try discriminate.
  - now intros [= ->].
  - intros H. now rewrite (IH i x H).
Qed.

Variables (first_column second_column : string) (note : loc) (d : dict).
Variables (l1 l2 : list value).
Hypothesis Hfirst : dict_get first_column d = Some (VList l1).
Hypothesis Hsecond : dict_get second_column d = Some (VList l2).
Hypothesis Hlen : List.length l1 <> List.length l2.

Let clone (x : value) : dict := dict_set first_column x (dict_set second_column VNone d).

Lemma columns_differ : first_column <> second_column.
Proof. intros E. rewrite E, Hsecond in Hfirst. injection Hfirst as ->. now apply Hlen. Qed.

Lemma unaligned_clones k : forall i hc new_data,
  i + k = List.length l1 ->
  heap_get hc note = Some d ->
  for_each (seq i k) (mult_data2_unaligned first_column second_column note) (hc, new_data)
  = Ok (hc ++ map clone (firstn k (skipn i l1)), new_data ++ seq (List.length hc) k).
Proof.
  induction k as [|k IH]; intros i hc new_data Hik Hnote; simpl.
  - now rewrite !app_nil_r.
  - unfold mult_data2_unaligned at 1, append_deepcopy, heap_getitem, heap_alloc. simpl.
    rewrite Hnote. simpl.
    unfold heap_update at 1, heap_getitem. rewrite heap_get_app_last. simpl.
    rewrite heap_set_app_last.
    unfold heap_update at 1, heap_getitem. rewrite heap_get_app_last. simpl.
    unfold pick_item, dict_getitem. rewrite dict_get_set.
    destruct (String.eqb_spec first_column second_column) as [E|_];
      [now elim columns_differ|].
    rewrite Hfirst. simpl.
    destruct (nth_error l1 i) as [x|] eqn:Ex.
    2:{ apply nth_error_None in Ex. lia. }
    simpl. rewrite heap_set_app_last.
    rewrite (IH (S i)); [| lia | now apply heap_get_app_old].
    rewrite (skipn_nth_error l1 i x Ex). simpl.
    rewrite <- !app_assoc. simpl. rewrite length_app. simpl.
    replace (List.length hc + 1) with (S (List.length hc)) by lia. reflexivity.
Qed.

End ExplodeLemmas.

(** Claim C9, as the code has it.  For every record whose two named
    fields hold lists of different lengths, [mult_data2] appends one clone
    for every element of the list in the FIRST column, whichever list is the
    longer: clone [i] has the first column set to element [i] of that list
    and the second column set to [None]; all other fields are those of the
    record. *)
Theorem mult_data2_unequal_lengths
    (h : heap) (new_data : list loc) (note : loc) (d : dict)
    (first_column second_column : string) (l1 l2 : list value) :
  heap_get h note = Some d ->
  dict_get first_column d = Some (VList l1) ->
  dict_get second_column d = Some (VList l2) ->
  List.length l1 <> List.length l2 ->
  mult_data2_note first_column second_column note (h, new_data)
  = Ok (h ++ map (fun x => dict_set first_column x (dict_set second_column VNone d)) l1,
        new_data ++ seq (List.length h) (List.length l1)).
Proof.
  intros Hnote Hfirst Hsecond Hlen.
  unfold mult_data2_note, column_len, heap_getitem, dict_getitem. simpl.
  rewrite Hnote. simpl. rewrite Hfirst, Hsecond. simpl.
  destruct (Nat.eqb_spec (List.length l1) (List.length l2)) as [E|_]; [contradiction|].
  simpl.
  rewrite (unaligned_clones first_column second_column note d l1 l2 Hfirst Hsecond Hlen
             (List.length l1) 0 h new_data (Nat.add_0_l _) Hnote).
  simpl. now rewrite firstn_all.
Qed.

(** Claim C9 (amended) on a record whose first column is the longer one. *)
Lemma mult_data2_unequal_lengths_witness :
  mult_data2_note "a" "b" 0%nat
    ([[("a", VList [VInt 1; VInt 2; VInt 3]); ("b", VList [VStr "x"]); ("c", VBool true)]], [])
  = Ok ([[("a", VList [VInt 1; VInt 2; VInt 3]); ("b", VList [VStr "x"]); ("c", VBool true)];
         [("a", VInt 1); ("b", VNone); ("c", VBool true)];
         [("a", VInt 2); ("b", VNone); ("c", VBool true)];
         [("a", VInt 3); ("b", VNone); ("c", VBool true)]],
        [1; 2; 3]%nat).
Proof.
  refine (mult_data2_unequal_lengths
            [[("a", VList [VInt 1; VInt 2; VInt 3]); ("b", VList [VStr "x"]); ("c", VBool true)]]
            [] 0%nat
            [("a", VList [VInt 1; VInt 2; VInt 3]); ("b", VList [VStr "x"]); ("c", VBool true)]
            "a" "b" [VInt 1; VInt 2; VInt 3] [VStr "x"] _ _ _ _);
    [reflexivity | reflexivity | reflexivity | simpl; lia].
Defined.

(** Claim C9 as stated fails when the first column is the shorter one: the
    record yields one clone, not one for each of the two elements of the
    longer list, and it is the longer list's field that is set to [None]. *)
Lemma mult_data2_shorter_first_counterexample :
  mult_data2 [[("a", VList [VInt 1]); ("b", VList [VInt 7; VInt 8])]] [0%nat] "a" "b"
  = Ok ([[("a", VList [VInt 1]); ("b", VList [VInt 7; VInt 8])];
         [("a", VInt 1); ("b", VNone)]], [1%nat])
  /\ List.length [1%nat] <> Nat.max (List.length [VInt 1]) (List.length [VInt 7; VInt 8]).
Proof. split; [reflexivity | simpl; lia]. Qed.

Section Purity.

Lemma for_each_invariant {A S : Type} (P : S -> Prop) (body : A -> S -> outcome S) :
  (forall x s s', P s -> body x s = Ok s' -> P s') ->
  forall l s s', P s -> for_each l body s = Ok s' -> P s'.
Proof.
  intros Hbody. induction l as [|x l IH]; intros s s' Hs; simpl.
  - now intros [= <-].
  - destruct (body x s) as [s1|] eqn:E; simpl; try discriminate.
    apply IH. eapply Hbody; eauto.
Qed.

Lemma bind_Ok {A B : Type} (m : outcome A) (k : A -> outcome B) b :
  bind m k = Ok b -> exists a, m = Ok a /\ k a = Ok b.
Proof. destruct m; simpl; try discriminate. eauto. Qed.

Lemma append_deepcopy_extends h record st a :
  extends h st -> append_deepcopy record st = Ok a ->
  exists t d, a = (h ++ t ++ [d], snd st ++ [List.length (h ++ t)], List.length (h ++ t))
              /\ fst st = h ++ t.
Proof.
  intros [[t Ht] _] H. unfold append_deepcopy in H.
  apply bind_Ok in H. destruct H as [d [_ H]]. unfold heap_alloc in H.
  injection H as <-. exists t, d. rewrite Ht, <- app_assoc. auto.
Qed.

Lemma heap_update_last (hc : heap) d f h2 :
  heap_update (List.length hc) f (hc ++ [d]) = Ok h2 -> exists d', h2 = hc ++ [d'].
Proof.
  unfold heap_update. intros H.
  apply bind_Ok in H. destruct H as [d0 [_ H]].
  apply bind_Ok in H. destruct H as [d' [_ H]].
  injection H as <-. exists d'. apply heap_set_app_last.
Qed.

Lemma extends_snoc h t d' new_data :
  Forall (fun l => List.length h <= l) new_data ->
  extends h (h ++ t ++ [d'], new_data ++ [List.length (h ++ t)]).
Proof.
  intros H. split; simpl.
  - now exists (t ++ [d']).
  - apply Forall_app. split; [exact H|]. constructor; [|constructor].
    rewrite length_app. lia.
Qed.

Lemma mult_data_clone_extends h column group_name item st st' :
  extends h st -> mult_data_clone column group_name item st = Ok st' -> extends h st'.
Proof.
  intros Hext H. unfold mult_data_clone in H.
  apply bind_Ok in H. destruct H as [a [Ha H]].
  destruct (append_deepcopy_extends h group_name st a Hext Ha) as [t [d [-> _]]].
  apply bind_Ok in H. destruct H as [h2 [H2 H]]. injection H as <-.
  rewrite app_assoc in H2. apply heap_update_last in H2. destruct H2 as [d' ->].
  rewrite <- app_assoc. apply extends_snoc, Hext.
Qed.

Lemma mult_data2_clone_extends h first_column second_column note i1 st st' :
  extends h st ->
  mult_data2_unaligned first_column second_column note i1 st = Ok st' \/
  mult_data2_aligned first_column second_column note i1 st = Ok st' ->
  extends h st'.
Proof.
  intros Hext [H|H]; unfold mult_data2_unaligned, mult_data2_aligned in H;
    apply bind_Ok in H; destruct H as [a [Ha H]];
    destruct (append_deepcopy_extends h note st a Hext Ha) as [t [d [-> _]]];
    apply bind_Ok in H; destruct H as [h2 [H2 H]];
    apply bind_Ok in H; destruct H as [h3 [H3 H]]; injection H as <-;
    rewrite app_assoc in H2; apply heap_update_last in H2; destruct H2 as [d' ->];
    apply heap_update_last in H3; destruct H3 as [d'' ->];
    rewrite <- app_assoc; apply extends_snoc, Hext.
Qed.

Lemma extends_refl h : extends h (h, []).
Proof. split; simpl; [exists []; now rewrite app_nil_r | constructor]. Qed.

(** [mult_data] leaves every object of the store it is given as it was
    and returns only objects it created. *)
Lemma mult_data_pure h data column st' :
  mult_data h data column = Ok st' -> extends h st'.
Proof.
  unfold mult_data. apply (for_each_invariant (extends h)); [|apply extends_refl].
  intros group_name s s' Hs H. unfold mult_data_record in H.
  apply bind_Ok in H. destruct H as [n [_ H]].
  revert H. apply (for_each_invariant (extends h)); [|exact Hs].
  intros item. apply mult_data_clone_extends.
Qed.

(** So does [mult_data2]. *)
Lemma mult_data2_pure h data first_column second_column st' :
  mult_data2 h data first_column second_column = Ok st' -> extends h st'.
Proof.
  unfold mult_data2. apply (for_each_invariant (extends h)); [|apply extends_refl].
  intros note s s' Hs H. unfold mult_data2_note in H.
  apply bind_Ok in H. destruct H as [n1 [_ H]].
  apply bind_Ok in H. destruct H as [n2 [_ H]].
  destruct (negb (Nat.eqb n1 n2)); revert H;
    (apply (for_each_invariant (extends h)); [|exact Hs]);
    intros i1 s0 s1 Hs0 H; eapply mult_data2_clone_extends; eauto.
Qed.

End Purity.

(** Claim C8 at a failing input.  [flatten_dict] rewrites the record it is
    given in place: the list it returns names the very object of the input
    list, and that object no longer holds what it held. *)
Theorem flatten_dict_mutates_its_input :
  flatten_dict [[("a", VDict [("b", VInt 1)]); ("c", VInt 2)]] [0%nat]
  = Some (Ok ([[("c", VInt 2); ("a__b", VInt 1)]], [0%nat]))
  /\ ~ extends [[("a", VDict [("b", VInt 1)]); ("c", VInt 2)]]
               ([[("c", VInt 2); ("a__b", VInt 1)]], [0%nat]).
Proof.
  split; [reflexivity|].
  intros [[t Ht] _]. simpl in Ht. discriminate.
Qed.

(* ================================================================== *)
(** * The paginator loops *)
(* ================================================================== *)

Local Open Scope Z_scope.

Section CountPaginator.

Import FBOPostingList.

Lemma on_response_page r l data offset :
  page_items r = Some l ->
  on_response r data offset
  = (data ++ l, offset + 1000, inl (negb (Z.of_nat (List.length l) <? 1000))).
Proof.
  unfold page_items, on_response. destruct (get_message (json r)); [discriminate|].
  unfold dict_getitem. destruct (dict_get "result" (json r)) as [v|]; [|discriminate].
  destruct v; try discriminate. intros [= ->]. reflexivity.
Qed.

Lemma offsets_cons start n : offsets start (S n) = start :: offsets (start + 1000) n.
Proof.
  unfold offsets. cbn [seq map]. f_equal; [lia|].
  rewrite <- seq_shift, map_map. apply map_ext. intros i. lia.
Qed.

Lemma loop_full_then_short full : forall last rest data offset sent,
  forallb full_page full = true ->
  short_page last = true ->
  loop (full ++ last :: rest) data offset sent
  = FetchRun (data ++ flat_map items_of (full ++ [last]))
             (offset + 1000 * Z.of_nat (S (List.length full)))
             (sent ++ offsets offset (S (List.length full)))
             Returned.
Proof.
  induction full as [|r full IH]; intros last rest data offset sent Hfull Hshort.
  - simpl app. cbn [loop]. unfold short_page in Hshort.
    destruct (page_items last) as [l|] eqn:El; [|discriminate].
    rewrite (on_response_page last l data offset El).
    apply Nat.ltb_lt in Hshort.
    replace (Z.of_nat (List.length l) <? 1000) with true by (symmetry; apply Z.ltb_lt; lia).
    cbn [negb flat_map app List.length]. unfold items_of. rewrite El, app_nil_r.
    unfold offsets. cbn [seq map]. f_equal. f_equal. f_equal. lia.
  - simpl in Hfull. apply andb_true_iff in Hfull. destruct Hfull as [Hr Hfull].
    simpl app. cbn [loop]. unfold full_page in Hr.
    destruct (page_items r) as [l|] eqn:El; [|discriminate].
    rewrite (on_response_page r l data offset El).
    apply Nat.eqb_eq in Hr.
    replace (Z.of_nat (List.length l) <? 1000) with false by (symmetry; apply Z.ltb_ge; lia).
    simpl negb. cbv iota. rewrite (IH last rest _ _ _ Hfull Hshort).
    rewrite (offsets_cons offset (S (List.length full))).
    cbn [flat_map List.length]. unfold items_of at 2. rewrite El.
    rewrite <- !app_assoc. f_equal. lia.
Qed.

End CountPaginator.

(** Claim C6.  When the endpoint answers with any number of pages of
    exactly 1000 postings followed by a page of fewer than 1000, the loop of
    [FBOPostingList._fetch] posts one request per page and no other, at the
    offsets 0, 1000, 2000, ..., appends the postings of all these pages to
    [self.data], leaves the offset advanced by 1000 for every page, the
    short one included, and returns. *)
Theorem count_paginator_pages (full : list response) (last : response)
    (rest : list response) (data : list value) :
  forallb full_page full = true ->
  short_page last = true ->
  FBOPostingList._fetch (full ++ last :: rest) data
  = FetchRun (data ++ flat_map items_of (full ++ [last]))
             (1000 * Z.of_nat (S (List.length full)))
             (offsets 0 (S (List.length full)))
             Returned.
Proof.
  intros Hfull Hshort. unfold FBOPostingList._fetch.
  now rewrite (loop_full_then_short full last rest data 0 [] Hfull Hshort).
Qed.

(** Claim C6 on pages of 1000, 1000 and 437 postings: 3 requests, 2437
    items. *)
Lemma count_paginator_pages_witness :
  FBOPostingList._fetch [page_of_size 1000; page_of_size 1000; page_of_size 437] []
  = FetchRun (repeat (VDict []) 2437) 3000 [0; 1000; 2000] Returned.
Proof.
  pose proof (count_paginator_pages [page_of_size 1000; page_of_size 1000]
                (page_of_size 437) [] [] eq_refl eq_refl) as H.
  cbn [app] in H. rewrite H. vm_compute. reflexivity.
Defined.

Section OnlyOnMessage.

(** Reading a field never raises the paginators' own exception. *)
Lemma bind_not_PyException {A B : Type} (m : outcome A) (k : A -> outcome B) s msg :
  m <> Raise (PyException s msg) ->
  (forall a, k a <> Raise (PyException s msg)) ->
  bind m k <> Raise (PyException s msg).
Proof.
  intros Hm Hk. destruct m as [a|e]; simpl; [apply Hk|].
  intros [= ->]. now apply Hm.
Qed.

Lemma dict_getitem_not_PyException k d s msg :
  dict_getitem k d <> Raise (PyException s msg).
Proof. unfold dict_getitem. destruct (dict_get k d); discriminate. Qed.

Lemma py_len_not_PyException v s msg : py_len v <> Raise (PyException s msg).
Proof. destruct v; discriminate. Qed.

Lemma py_iter_not_PyException v s msg : py_iter v <> Raise (PyException s msg).
Proof. destruct v; discriminate. Qed.

(** The loop of [FBOPostingList._fetch] raises its own exception for no
    other reason than a message: the status code alone never does it. *)
Lemma FBO_raises_only_on_message r data offset data' offset' s msg :
  FBOPostingList.on_response r data offset = (data', offset', inr (PyException s msg)) ->
  get_message (json r) = Some msg /\ s = status r.
Proof.
  unfold FBOPostingList.on_response.
  destruct (get_message (json r)) as [m|].
  - intros [= _ _ -> ->]. auto.
  - destruct (bind _ _) as [[switcher items]|e] eqn:E; [discriminate|].
    intros [= _ _ ->]. exfalso. revert E.
    apply bind_not_PyException; [apply dict_getitem_not_PyException|].
    intros page. apply bind_not_PyException; [apply py_len_not_PyException|].
    intros n. apply bind_not_PyException; [apply py_iter_not_PyException|].
    discriminate.
Qed.

End OnlyOnMessage.

(** Claim C2, as the code has it.  In the loops of [FBOPostingList._fetch],
    [FBSPostingList._fetch] and [AsyncFinanceRealizationList._fetch], a
    response whose JSON body carries a [message] that Python takes for true
    leaves the loop at once: nothing is appended, the cursor stays, and the
    exception raised carries the HTTP status code and the message. *)
Theorem paginator_raises_on_message (r : response) (m : value)
    (script : list response) (data : list value) (cursor0 : Z) (sent : list Z) :
  get_message (json r) = Some m ->
  FBOPostingList.loop (r :: script) data cursor0 sent
  = FetchRun data cursor0 (sent ++ [cursor0]) (Raised (PyException (status r) m))
  /\ FBSPostingList.loop (r :: script) data cursor0 sent
     = FetchRun data cursor0 (sent ++ [cursor0]) (Raised (PyException (status r) m))
  /\ AsyncFinanceRealizationList.loop (r :: script) data cursor0 sent
     = FetchRun data cursor0 (sent ++ [cursor0]) (Raised (PyException (status r) m)).
Proof.
  intros H. repeat split;
    cbn [FBOPostingList.loop FBSPostingList.loop AsyncFinanceRealizationList.loop];
    unfold FBOPostingList.on_response, FBSPostingList.on_response,
      AsyncFinanceRealizationList.on_response;
    rewrite H; reflexivity.
Qed.

(** Claim C2 (amended) on a 404 response with a message. *)
Lemma paginator_raises_on_message_witness :
  FBOPostingList.loop
    [Response 404 [("code", VInt 5); ("message", VStr "not found")]; page_of_size 3]
    [VInt 7] 1000 [0]
  = FetchRun [VInt 7] 1000 [0; 1000] (Raised (PyException 404 (VStr "not found")))
  /\ FBSPostingList.loop
       [Response 404 [("code", VInt 5); ("message", VStr "not found")]; page_of_size 3]
       [VInt 7] 1000 [0]
     = FetchRun [VInt 7] 1000 [0; 1000] (Raised (PyException 404 (VStr "not found")))
  /\ AsyncFinanceRealizationList.loop
       [Response 404 [("code", VInt 5); ("message", VStr "not found")]; page_of_size 3]
       [VInt 7] 1000 [0]
     = FetchRun [VInt 7] 1000 [0; 1000] (Raised (PyException 404 (VStr "not found"))).
Proof.
  apply (paginator_raises_on_message
           (Response 404 [("code", VInt 5); ("message", VStr "not found")])).
  reflexivity.
Defined.

(** Claim C2 as stated fails: a response with status 500 and no message
    does not leave the loop with an exception, and neither does one whose
    [message] is the empty string. *)
Lemma paginator_ignores_status_counterexample :
  FBOPostingList._fetch [Response 500 [("result", VList [VInt 1])]] []
  = FetchRun [VInt 1] 1000 [0] Returned
  /\ FBOPostingList._fetch [Response 200 [("message", VStr ""); ("result", VList [])]] []
     = FetchRun [] 1000 [0] Returned.
Proof. split; reflexivity. Qed.

Section PageCountPaginator.

Import AsyncFinanceRealizationList.

Lemma on_response_reports r items page_count data page :
  reports r = Some (items, page_count) ->
  on_response r data page
  = (data ++ items, page + 1, inl (negb (py_eq_int page page_count))).
Proof.
  unfold reports, on_response. destruct (get_message (json r)); [discriminate|].
  unfold dict_getitem. destruct (dict_get "result" (json r)) as [v|]; [|discriminate].
  destruct v as [| | | | |res]; try discriminate. cbn [bind py_getitem_str].
  unfold dict_getitem.
  destruct (dict_get "operations" res) as [ops|]; [|discriminate].
  destruct (dict_get "page_count" res) as [pc|]; [|discriminate].
  cbn [bind]. destruct (py_iter ops) as [l|]; try discriminate.
  now intros [= -> ->].
Qed.

(** The loop can only return when the response says so. *)
Lemma on_response_stops r data page data' page' :
  on_response r data page = (data', page', inl false) ->
  exists items page_count,
    reports r = Some (items, page_count) /\ py_eq_int page page_count = true.
Proof.
  unfold reports, on_response. destruct (get_message (json r)); [discriminate|].
  unfold dict_getitem. destruct (dict_get "result" (json r)) as [v|]; [|discriminate].
  destruct v as [| | | | |res]; try discriminate. cbn [bind py_getitem_str].
  unfold dict_getitem.
  destruct (dict_get "operations" res) as [ops|]; [|discriminate].
  cbn [bind]. destruct (py_iter ops) as [l|]; try discriminate.
  destruct (dict_get "page_count" res) as [pc|]; [|discriminate].
  intros [= _ _ H]. exists l, pc. split; [reflexivity|].
  now destruct (py_eq_int page pc).
Qed.

Lemma pages_cons start n : pages start (S n) = start :: pages (start + 1) n.
Proof.
  unfold pages. cbn [seq map]. f_equal; [lia|].
  rewrite <- seq_shift, map_map. apply map_ext. intros i. lia.
Qed.

Lemma loop_below_counter script : forall data page sent,
  below_counter page script = true ->
  ended (loop script data page sent) = Awaiting /\
  posted (loop script data page sent) = sent ++ pages page (S (List.length script)).
Proof.
  induction script as [|r script IH]; intros data page sent H.
  - cbn. split; [reflexivity|]. unfold pages. cbn. do 2 f_equal. lia.
  - cbn [below_counter] in H. destruct (reports r) as [[items pc]|] eqn:Er; [|discriminate].
    destruct pc as [| |pc| | |]; try discriminate.
    apply andb_true_iff in H. destruct H as [Hlt H]. apply Z.ltb_lt in Hlt.
    cbn [loop]. rewrite (on_response_reports r items (VInt pc) data page Er).
    cbn [py_eq_int]. replace (page =? pc) with false by (symmetry; apply Z.eqb_neq; lia).
    cbn [negb]. destruct (IH (data ++ items) (page + 1) (sent ++ [page]) H) as [He Hp].
    split; [exact He|]. rewrite Hp, <- app_assoc. cbn [List.length].
    now rewrite (pages_cons page (S (List.length script))).
Qed.

Lemma loop_returned script : forall data page sent,
  ended (loop script data page sent) = Returned ->
  exists k r items page_count,
    nth_error script k = Some r /\
    reports r = Some (items, page_count) /\
    py_eq_int (page + Z.of_nat k) page_count = true /\
    List.length (posted (loop script data page sent)) = (List.length sent + S k)%nat.
Proof.
  induction script as [|r script IH]; intros data page sent H.
  - discriminate.
  - cbn [loop] in *. destruct (on_response r data page) as [[data' page'] [[|]|e]] eqn:E.
    + pose proof E as E'. unfold on_response in E'.
      assert (Hp : page' = page + 1).
      { destruct (get_message (json r)); [discriminate|].
        destruct (bind _ _) as [items|]; try discriminate.
        destruct (bind _ _) as [pc|]; try discriminate. now injection E'. }
      subst page'. destruct (IH _ _ _ H) as [k [r' [items [pc [Hn [Hr [Heq Hlen]]]]]]].
      exists (S k), r', items, pc. repeat split; auto.
      * rewrite <- Heq. f_equal. lia.
      * rewrite Hlen, length_app. simpl. lia.
    + destruct (on_response_stops r data page data' page' E) as [items [pc [Hr Heq]]].
      exists O, r, items, pc. repeat split; auto.
      * now rewrite Z.add_0_r.
      * cbn. rewrite length_app. reflexivity.
    + discriminate.
Qed.

End PageCountPaginator.

(** Claim C10.  The loop of [AsyncFinanceRealizationList._fetch] stops on
    the equality [page == page_count] alone.  If every response reports a
    page count below the page it answers (0 for instance), the loop has not
    returned after any number of responses and has posted one more request
    than it got responses.  If it returns, the last response it read
    reported a page count equal to the page requested, which is at least 1. *)
Theorem page_count_paginator_termination (script : list response) (data : list value) :
  (below_counter 1 script = true ->
   ended (AsyncFinanceRealizationList._fetch script data) = Awaiting /\
   posted (AsyncFinanceRealizationList._fetch script data)
   = pages 1 (S (List.length script)))
  /\
  (ended (AsyncFinanceRealizationList._fetch script data) = Returned ->
   exists k r items page_count,
     nth_error script k = Some r /\
     reports r = Some (items, page_count) /\
     py_eq_int (Z.of_nat (S k)) page_count = true /\
     List.length (posted (AsyncFinanceRealizationList._fetch script data)) = S k).
Proof.
  unfold AsyncFinanceRealizationList._fetch. split.
  - intros H. exact (loop_below_counter script data 1 [] H).
  - intros H. destruct (loop_returned script data 1 [] H)
      as [k [r [items [pc [Hn [Hr [Heq Hlen]]]]]]].
    exists k, r, items, pc. repeat split; auto.
    rewrite <- Heq. f_equal. lia.
Qed.

(** Claim C10 on three responses that report no page, and on responses
    that report two pages. *)
Lemma page_count_paginator_termination_witness :
  (ended (AsyncFinanceRealizationList._fetch
            [operations_page 0 0; operations_page 0 0; operations_page 0 0] []) = Awaiting /\
   posted (AsyncFinanceRealizationList._fetch
             [operations_page 0 0; operations_page 0 0; operations_page 0 0] [])
   = [1; 2; 3; 4])
  /\
  (exists k r items page_count,
     nth_error [operations_page 2 2; operations_page 1 2; operations_page 0 0] k = Some r /\
     reports r = Some (items, page_count) /\
     py_eq_int (Z.of_nat (S k)) page_count = true /\
     List.length (posted (AsyncFinanceRealizationList._fetch
        [operations_page 2 2; operations_page 1 2; operations_page 0 0] [])) = S k).
Proof.
  split.
  - apply (proj1 (page_count_paginator_termination
             [operations_page 0 0; operations_page 0 0; operations_page 0 0] [])).
    reflexivity.
  - apply (proj2 (page_count_paginator_termination
             [operations_page 2 2; operations_page 1 2; operations_page 0 0] [])).
    reflexivity.
Defined.

(* ================================================================== *)
(** * manage_asyncio_wait and the fan-out *)
(* ================================================================== *)

Local Open Scope nat_scope.

Section Orchestrator.

Lemma continues_refl o : continues o o.
Proof. split; exists []; now rewrite app_nil_r. Qed.

Lemma continues_trans o1 o2 o3 : continues o1 o2 -> continues o2 o3 -> continues o1 o3.
Proof.
  intros [[l1 H1] [c1 G1]] [[l2 H2] [c2 G2]]. split.
  - exists (l1 ++ l2). now rewrite H2, H1, app_assoc.
  - exists (c1 ++ c2). now rewrite G2, G1, app_assoc.
Qed.

Lemma for_done_continues done : forall pending cancelled o,
  quiet o ->
  quiet (snd (for_done done pending cancelled o)) /\
  continues o (snd (for_done done pending cancelled o)).
Proof.
  induction done as [|t done IH]; intros pending cancelled o Hq; simpl.
  - split; [exact Hq | apply continues_refl].
  - unfold exception. destruct (result t) as [|e|].
    + apply IH, Hq.
    + destruct (IH pending true
                  (Orchestration (raised o) (logged o ++ [e]) (cancel_calls o ++ pending)) Hq)
        as [Hq' Hc]. split; [exact Hq'|].
      eapply continues_trans; [|exact Hc]. split; simpl; eauto.
    + simpl. split; [now right|].
      split; exists []; simpl; now rewrite app_nil_r.
Qed.

Lemma wait_loop_continues rounds : forall cancelled o,
  quiet o ->
  quiet (wait_loop rounds cancelled o) /\ continues o (wait_loop rounds cancelled o).
Proof.
  induction rounds as [|done pending IH]; intros cancelled o Hq; simpl.
  - split; [exact Hq | apply continues_refl].
  - pose proof (for_done_continues (map (completed cancelled) done)
                  (map name (List.concat pending)) cancelled o Hq) as [Hq' Hc].
    destruct (for_done _ _ cancelled o) as [cancelled' o']. simpl in *.
    destruct (raised o') eqn:Er; [split; assumption|].
    destruct (IH cancelled' o' Hq') as [Hq'' Hc'].
    split; [exact Hq'' | eapply continues_trans; eauto].
Qed.

Lemma for_done_finishes done : forall pending o,
  forallb finishes done = true ->
  for_done (map (completed false) done) pending false o = (false, o).
Proof.
  induction done as [|c done IH]; intros pending o H; simpl; [reflexivity|].
  simpl in H. apply andb_true_iff in H. destruct H as [Hc H].
  unfold exception, finishes in *. simpl. destruct (body c); [|discriminate].
  now apply IH.
Qed.

Lemma wait_loop_finishes before : forall rounds o,
  raised o = None ->
  forallb finishes (List.concat before) = true ->
  wait_loop (before ++ rounds) false o = wait_loop rounds false o.
Proof.
  induction before as [|done before IH]; intros rounds o Hr H; simpl; [reflexivity|].
  simpl in H. rewrite forallb_app in H. apply andb_true_iff in H. destruct H as [Hd H].
  rewrite (for_done_finishes done _ o Hd), Hr. now apply IH.
Qed.

(** Tasks that were not cancelled never make [exception()] raise. *)
Lemma for_done_uncancelled done : forall pending cancelled o,
  raised (snd (for_done (map (completed false) done) pending cancelled o)) = raised o.
Proof.
  induction done as [|c done IH]; intros pending cancelled o; simpl; [reflexivity|].
  unfold exception. simpl. destruct (body c); [apply IH|]. now rewrite IH.
Qed.

Lemma wait_loop_no_tasks rounds : forall cancelled o,
  List.concat rounds = [] -> wait_loop rounds cancelled o = o.
Proof.
  induction rounds as [|done pending IH]; intros cancelled o H; simpl; [reflexivity|].
  simpl in H. apply app_eq_nil in H. destruct H as [-> H]. simpl.
  destruct (raised o); [reflexivity | now apply IH].
Qed.

End Orchestrator.

(** Claim C1, as the code has it.  [manage_asyncio_wait] never returns or
    raises the failure of a task: nothing but [CancelledError] can leave it.
    When every task succeeds it returns normally, with nothing logged and
    nothing cancelled.  When a task fails, the first failure inspected is
    the first exception logged, [cancel()] is called on every task still
    pending, and if no task is left pending the orchestrator returns
    normally. *)
Theorem orchestrator_logs_first_failure (rounds : list (list Coroutine)) :
  (raised (manage_asyncio_wait rounds) = None \/
   raised (manage_asyncio_wait rounds) = Some CancelledError)
  /\
  (forallb finishes (List.concat rounds) = true ->
   manage_asyncio_wait rounds = Orchestration None [] [])
  /\
  (forall before ok t rest pending e,
     rounds = before ++ (ok ++ t :: rest) :: pending ->
     forallb finishes (List.concat before ++ ok) = true ->
     body t = RaisesExn e ->
     (exists l, logged (manage_asyncio_wait rounds) = e :: l) /\
     (exists c, cancel_calls (manage_asyncio_wait rounds)
                = map name (List.concat pending) ++ c) /\
     (List.concat pending = [] -> raised (manage_asyncio_wait rounds) = None)).
Proof.
  unfold manage_asyncio_wait. split; [|split].
  - apply (wait_loop_continues rounds false (Orchestration None [] [])). now left.
  - intros H. rewrite <- (app_nil_r rounds).
    rewrite (wait_loop_finishes rounds [] (Orchestration None [] []) eq_refl H). reflexivity.
  - intros before ok t rest pending e -> Hok Ht.
    rewrite forallb_app in Hok. apply andb_true_iff in Hok. destruct Hok as [Hb Hok].
    rewrite (wait_loop_finishes before _ (Orchestration None [] []) eq_refl Hb).
    cbn [wait_loop].
    rewrite map_app. cbn [map].
    set (o0 := Orchestration None [] []).
    set (ids := map name (List.concat pending)).
    set (o1 := Orchestration None [e] ids).
    assert (E : for_done (map (completed false) ok ++ completed false t
                            :: map (completed false) rest) ids false o0
                = for_done (map (completed false) rest) ids true o1).
    { clear Hb. induction ok as [|c ok IH]; simpl.
      - unfold exception. simpl. rewrite Ht. reflexivity.
      - simpl in Hok. apply andb_true_iff in Hok. destruct Hok as [Hc Hok].
        unfold exception, finishes in *. simpl. destruct (body c); [|discriminate].
        now apply IH. }
    rewrite E.
    pose proof (for_done_uncancelled rest ids true o1) as Hraised.
    pose proof (for_done_continues (map (completed false) rest) ids true o1
                  (or_introl eq_refl)) as [Hq Hc].
    destruct (for_done (map (completed false) rest) ids true o1) as [cancelled' o'].
    simpl in Hraised, Hq, Hc. rewrite Hraised. simpl.
    pose proof (wait_loop_continues pending cancelled' o' Hq) as [_ Hc'].
    destruct (continues_trans _ _ _ Hc Hc') as [[l Hl] [c Hcc]]. simpl in Hl, Hcc.
    split; [now exists l|]. split; [now exists c|].
    intros Hp. now rewrite (wait_loop_no_tasks pending cancelled' o' Hp).
Qed.

(** Claim C1 (amended) on three tasks that succeed, and on five tasks of
    which the third inspected fails. *)
Lemma orchestrator_logs_first_failure_witness :
  manage_asyncio_wait [[MkCoroutine 0 Finishes]; [MkCoroutine 2 Finishes; MkCoroutine 1 Finishes]]
  = Orchestration None [] []
  /\
  ((exists l, logged (manage_asyncio_wait
        [[MkCoroutine 1 Finishes];
         [MkCoroutine 0 Finishes; MkCoroutine 2 (RaisesExn (PyException 500 (VStr "busy")))];
         [MkCoroutine 3 Finishes; MkCoroutine 4 Finishes]])
      = PyException 500 (VStr "busy") :: l) /\
   (exists c, cancel_calls (manage_asyncio_wait
        [[MkCoroutine 1 Finishes];
         [MkCoroutine 0 Finishes; MkCoroutine 2 (RaisesExn (PyException 500 (VStr "busy")))];
         [MkCoroutine 3 Finishes; MkCoroutine 4 Finishes]])
      = map name (List.concat [[MkCoroutine 3 Finishes; MkCoroutine 4 Finishes]]) ++ c) /\
   (List.concat [[MkCoroutine 3 Finishes; MkCoroutine 4 Finishes]] = [] ->
    raised (manage_asyncio_wait
        [[MkCoroutine 1 Finishes];
         [MkCoroutine 0 Finishes; MkCoroutine 2 (RaisesExn (PyException 500 (VStr "busy")))];
         [MkCoroutine 3 Finishes; MkCoroutine 4 Finishes]]) = None)).
Proof.
  split.
  - apply (proj1 (proj2 (orchestrator_logs_first_failure
             [[MkCoroutine 0 Finishes]; [MkCoroutine 2 Finishes; MkCoroutine 1 Finishes]]))).
    reflexivity.
  - apply (proj2 (proj2 (orchestrator_logs_first_failure
             [[MkCoroutine 1 Finishes];
              [MkCoroutine 0 Finishes; MkCoroutine 2 (RaisesExn (PyException 500 (VStr "busy")))];
              [MkCoroutine 3 Finishes; MkCoroutine 4 Finishes]]))
             [[MkCoroutine 1 Finishes]] [MkCoroutine 0 Finishes]
             (MkCoroutine 2 (RaisesExn (PyException 500 (VStr "busy")))) []
             [[MkCoroutine 3 Finishes; MkCoroutine 4 Finishes]]);
      reflexivity.
Defined.

(** Claim C1 as stated fails: with one task, which fails, the orchestrator
    returns normally; with a second task still pending, what leaves it is
    [CancelledError], not the failure. *)
Lemma orchestrator_swallows_failure_counterexample :
  manage_asyncio_wait [[MkCoroutine 0 (RaisesExn (PyException 500 (VStr "busy")))]]
  = Orchestration None [PyException 500 (VStr "busy")] []
  /\
  manage_asyncio_wait [[MkCoroutine 0 (RaisesExn (PyException 500 (VStr "busy")))];
                       [MkCoroutine 1 Finishes]]
  = Orchestration (Some CancelledError) [PyException 500 (VStr "busy")] [1].
Proof. split; reflexivity. Qed.

Section FanOutLemmas.

Import FanOut.

Lemma on_response_appends r data offset :
  exists items, fst (fst (FBOPostingList.on_response r data offset)) = data ++ items.
Proof.
  unfold FBOPostingList.on_response.
  destruct (get_message (json r)); [exists []; simpl; now rewrite app_nil_r|].
  destruct (bind _ _) as [[switcher items]|]; simpl.
  - now exists items.
  - exists []. now rewrite app_nil_r.
Qed.

Lemma step_appends s ev : exists items, buffer (step s ev) = buffer s ++ items.
Proof.
  destruct ev as [i r|]; simpl.
  - unfold deliver. destruct (nth_error (tasks s) i) as [[offset|res]|];
      try (exists []; now rewrite app_nil_r).
    destruct (on_response_appends r (buffer s) offset) as [items H].
    destruct (FBOPostingList.on_response r (buffer s) offset) as [[data' offset'] next].
    simpl in *. now exists items.
  - unfold wake. exists []. rewrite app_nil_r.
    destruct (finished s); [reflexivity|].
    destruct (filter (is_done (tasks s)) (pending s)); [reflexivity|].
    now destruct (for_done _ _ _ _).
Qed.

Lemma run_appends evs : forall s, exists items, buffer (run evs s) = buffer s ++ items.
Proof.
  unfold run. induction evs as [|ev evs IH]; intros s; simpl.
  - exists []. now rewrite app_nil_r.
  - destruct (IH (step s ev)) as [l2 H2]. destruct (step_appends s ev) as [l1 H1].
    exists (l1 ++ l2). now rewrite H2, H1, app_assoc.
Qed.

End FanOutLemmas.

(** Claim C3, as the code has it.  Nothing is ever taken out of
    [self.data] during a run of the fan-out: whatever the buffer holds at
    some point of the run, after a failure or not, it still holds, in the
    same order and as a prefix, at every later point. *)
Theorem fan_out_never_discards (years : nat) (data : list value)
    (before after : list FanOut.event) :
  exists items,
    FanOut.buffer (FanOut.run (before ++ after) (FanOut._main years data))
    = FanOut.buffer (FanOut.run before (FanOut._main years data)) ++ items.
Proof.
  unfold FanOut.run. rewrite fold_left_app. apply run_appends.
Qed.

(** Claim C3 as stated fails: the second window succeeds with 3 postings,
    the first fails on its second page; the run is over, the orchestrator
    has returned normally, and [self.data] holds the 1003 postings. *)
Lemma fan_out_partial_data_counterexample :
  FanOut.run [FanOut.Deliver 1 (page_of_size 3); FanOut.Wake;
              FanOut.Deliver 0 (page_of_size 1000);
              FanOut.Deliver 0 (Response 500 [("message", VStr "busy")]);
              FanOut.Wake]
             (FanOut._main 2 [])
  = FanOut.RunState (repeat (VDict []) 1003)
      [FanOut.Done (Failed (PyException 500 (VStr "busy"))); FanOut.Done Succeeded]
      []
      (Orchestration None [PyException 500 (VStr "busy")] [])
      true
  /\ repeat (VDict []) 1003 <> [].
Proof. split; [vm_compute; reflexivity | discriminate]. Qed.

(* ================================================================== *)
(** * dates_delta *)
(* ================================================================== *)

Local Open Scope Z_scope.

Section TrueDivision.

Lemma round_half_even_error n d :
  0 <= n -> 0 < d ->
  - d <= 2 * (round_half_even n d * d - n) <= d.
Proof.
  intros Hn Hd. unfold round_half_even.
  pose proof (Z.div_mod n d ltac:(lia)) as E.
  pose proof (Z.mod_pos_bound n d Hd) as Hr.
  destruct (2 * (n mod d) <? d) eqn:E1; [apply Z.ltb_lt in E1; nia|].
  apply Z.ltb_ge in E1.
  destruct (d <? 2 * (n mod d)) eqn:E2; [apply Z.ltb_lt in E2; nia|].
  apply Z.ltb_ge in E2.
  destruct (Z.even (n / d)); nia.
Qed.

Lemma trunc_truediv_pos_error a b :
  0 < b -> b <= a ->
  Z.abs (b * trunc_truediv_pos a b - a) <= 2 * b + a / 2 ^ 53.
Proof.
  intros Hb Hab. unfold trunc_truediv_pos.
  replace (a <? b) with false by (symmetry; apply Z.ltb_ge; lia).
  assert (Hq : 1 <= a / b) by (apply Z.div_le_lower_bound; lia).
  assert (Hdiv : 0 <= a / 2 ^ 53) by (apply Z.div_pos; lia).
  pose proof (Z.log2_spec (a / b) ltac:(lia)) as [Hlog _].
  pose proof (Z.log2_nonneg (a / b)) as Hlog0.
  pose proof (Z.mul_div_le a b Hb) as Hqb.
  set (e := Z.log2 (a / b) - 52) in *.
  destruct (0 <=? e) eqn:Ee.
  - apply Z.leb_le in Ee.
    assert (HP : 0 < 2 ^ e) by (apply Z.pow_pos_nonneg; lia).
    pose proof (round_half_even_error a (b * 2 ^ e) ltac:(lia) ltac:(nia)) as Hm.
    set (m := round_half_even a (b * 2 ^ e)) in *.
    replace (Z.log2 (a / b)) with (52 + e) in Hlog by (unfold e; lia).
    rewrite Z.pow_add_r in Hlog by lia.
    assert (Hx : Z.abs (b * (m * 2 ^ e) - a) * 2 ^ 53 <= a).
    { change (2 ^ 53) with (2 * 2 ^ 52). nia. }
    assert (Z.abs (b * (m * 2 ^ e) - a) <= a / 2 ^ 53)
      by (apply Z.div_le_lower_bound; lia).
    lia.
  - apply Z.leb_gt in Ee.
    assert (HK : 2 <= 2 ^ (- e)).
    { change 2 with (2 ^ 1) at 1. apply Z.pow_le_mono_r; lia. }
    pose proof (round_half_even_error (a * 2 ^ (- e)) b ltac:(nia) Hb) as Hm.
    set (K := 2 ^ (- e)) in *.
    set (m := round_half_even (a * K) b) in *.
    pose proof (Z.div_mod m K ltac:(lia)) as Em.
    pose proof (Z.mod_pos_bound m K ltac:(lia)) as Hr.
    set (s := m / K) in *.
    assert (Hup : b * s - a <= b) by nia.
    assert (Hlo : - (2 * b) <= b * s - a) by nia.
    lia.
Qed.

Lemma ceil_div_pos a b : 0 < b -> 0 <= a -> 0 <= ceil_div a b /\ (ceil_div a b = 0 <-> a = 0).
Proof.
  intros Hb Ha. unfold ceil_div.
  pose proof (Z.div_mod (- a) b ltac:(lia)) as E.
  pose proof (Z.mod_pos_bound (- a) b Hb) as Hr.
  split; [nia | split; intros; nia].
Qed.

Lemma ceil_div_le_self a : 0 <= a -> ceil_div a 365 <= a.
Proof.
  intros Ha. unfold ceil_div.
  pose proof (Z.div_mod (- a) 365 ltac:(lia)) as E.
  pose proof (Z.mod_pos_bound (- a) 365 ltac:(lia)) as Hr. lia.
Qed.

(** What [dates_delta] does on a range with [since < to]: it is refused
    exactly when the range holds no whole day. *)
Lemma dates_delta_positive_range time_since time_to :
  time_since < time_to ->
  let D := time_to - time_since in
  (D < NS_PER_DAY -> dates_delta time_since time_to = Raise ZeroDivisionError) /\
  (NS_PER_DAY <= D ->
   dates_delta time_since time_to
   = Ok (ceil_div (D / NS_PER_DAY) 365,
         trunc_truediv_pos D (ceil_div (D / NS_PER_DAY) 365)) /\
   1 <= ceil_div (D / NS_PER_DAY) 365 <= D).
Proof.
  intros Hlt D. unfold dates_delta, Timedelta_truediv, Timedelta_days. fold D.
  assert (HD : 0 < D) by (unfold D; lia).
  assert (Hday : 0 < NS_PER_DAY) by reflexivity.
  split.
  - intros Hshort. rewrite (Z.div_small D NS_PER_DAY) by lia. reflexivity.
  - intros Hlong.
    assert (Hdays : 1 <= D / NS_PER_DAY) by (apply Z.div_le_lower_bound; lia).
    pose proof (ceil_div_pos (D / NS_PER_DAY) 365 ltac:(lia) ltac:(lia)) as [Hy0 Hy].
    pose proof (ceil_div_le_self (D / NS_PER_DAY) ltac:(lia)) as Hyd.
    pose proof (Z.mul_div_le D NS_PER_DAY Hday) as Hmd.
    set (years := ceil_div (D / NS_PER_DAY) 365) in *.
    assert (Hy1 : 1 <= years) by (destruct (Z.eq_dec years 0) as [E|E]; [apply Hy in E|]; lia).
    assert (Hyle : years <= D) by nia.
    split; [|lia].
    replace (years =? 0) with false by (symmetry; apply Z.eqb_neq; lia).
    simpl. unfold trunc_truediv.
    rewrite (Z.sgn_pos D HD), (Z.sgn_pos years) by lia.
    rewrite (Z.abs_eq D), (Z.abs_eq years) by lia.
    now rewrite !Z.mul_1_l.
Qed.

End TrueDivision.

Section WholeDays.

Lemma round_half_even_le n d k :
  0 <= n -> 0 < d -> n <= k * d -> round_half_even n d <= k.
Proof.
  intros Hn Hd Hk. unfold round_half_even.
  pose proof (Z.div_mod n d ltac:(lia)) as E.
  pose proof (Z.mod_pos_bound n d Hd) as Hr.
  assert (Hq : n / d <= k) by nia.
  destruct (2 * (n mod d) <? d) eqn:E1; [exact Hq|].
  apply Z.ltb_ge in E1.
  assert (n / d < k) by nia.
  destruct (d <? 2 * (n mod d)); [lia|].
  destruct (Z.even (n / d)); lia.
Qed.

(** The rounded quotient does not pass a bound [c] that the exact quotient
    does not pass, when [c] is itself a binary64 number at the scale of the
    quotient. *)
Lemma trunc_truediv_pos_le a b c :
  0 < b -> b <= a -> a <= c * b ->
  (forall e, 0 <= e -> 2 ^ (52 + e) <= a / b -> (2 ^ e | c)) ->
  trunc_truediv_pos a b <= c.
Proof.
  intros Hb Hab Hc Hrep. unfold trunc_truediv_pos.
  replace (a <? b) with false by (symmetry; apply Z.ltb_ge; lia).
  assert (Hq : 1 <= a / b) by (apply Z.div_le_lower_bound; lia).
  pose proof (Z.log2_spec (a / b) ltac:(lia)) as [Hlog _].
  set (e := Z.log2 (a / b) - 52) in *.
  destruct (0 <=? e) eqn:Ee.
  - apply Z.leb_le in Ee.
    assert (HP : 0 < 2 ^ e) by (apply Z.pow_pos_nonneg; lia).
    destruct (Hrep e Ee) as [c' Hc'].
    { replace (52 + e) with (Z.log2 (a / b)) by (unfold e; lia). exact Hlog. }
    subst c.
    assert (round_half_even a (b * 2 ^ e) <= c')
      by (apply round_half_even_le; nia).
    nia.
  - apply Z.leb_gt in Ee.
    assert (HK : 0 < 2 ^ (- e)) by (apply Z.pow_pos_nonneg; lia).
    assert (Hm : round_half_even (a * 2 ^ (- e)) b <= c * 2 ^ (- e))
      by (apply round_half_even_le; nia).
    apply Z.div_le_upper_bound; [exact HK | lia].
Qed.

Lemma ceil_div_spec a b : 0 < b -> a <= ceil_div a b * b < a + b.
Proof.
  intros Hb. unfold ceil_div.
  pose proof (Z.div_mod (- a) b ltac:(lia)) as E.
  pose proof (Z.mod_pos_bound (- a) b Hb) as Hr. nia.
Qed.

Lemma ceil_div_scale a b k : 0 < b -> 0 < k -> ceil_div (a * k) (b * k) = ceil_div a b.
Proof.
  intros Hb Hk. unfold ceil_div.
  now rewrite <- Z.mul_opp_l, Z.div_mul_cancel_r by lia.
Qed.

Lemma year_is_binary64 e :
  0 <= e -> 2 ^ (52 + e) <= 365 * NS_PER_DAY -> (2 ^ e | 365 * NS_PER_DAY).
Proof.
  intros He H.
  assert (e < 3).
  { destruct (Z_lt_le_dec e 3) as [|Hge]; [assumption|].
    assert (2 ^ 55 <= 2 ^ (52 + e)) by (apply Z.pow_le_mono_r; lia).
    assert (365 * NS_PER_DAY < 2 ^ 55) by reflexivity. lia. }
  assert (He3 : e = 0 \/ e = 1 \/ e = 2) by lia.
  destruct He3 as [He3|[He3|He3]]; subst e.
  - exists (365 * NS_PER_DAY). reflexivity.
  - exists (365 * NS_PER_DAY / 2). reflexivity.
  - exists (365 * NS_PER_DAY / 4). reflexivity.
Qed.

(** Extra X4.  On a range of [d >= 1] whole days [dates_delta] does what the
    partitioner is specified to do with a maximum span of 365 days: the
    count is the ceiling of the duration over the span, it is at least 1,
    and the step does not exceed the span. *)
Lemma dates_delta_whole_days (time_since : Timestamp) (d : Z) :
  1 <= d ->
  exists count step,
    dates_delta time_since (time_since + d * NS_PER_DAY) = Ok (count, step) /\
    count = ceil_div (d * NS_PER_DAY) (365 * NS_PER_DAY) /\
    1 <= count /\
    step <= 365 * NS_PER_DAY.
Proof.
  intros Hd.
  assert (Hday : 0 < NS_PER_DAY) by reflexivity.
  destruct (dates_delta_positive_range time_since (time_since + d * NS_PER_DAY)
              ltac:(nia)) as [_ Hlong].
  replace (time_since + d * NS_PER_DAY - time_since) with (d * NS_PER_DAY) in Hlong by lia.
  destruct (Hlong ltac:(nia)) as [E [Hy1 Hyle]]. clear Hlong.
  rewrite Z.div_mul in E, Hy1, Hyle by lia.
  pose proof (ceil_div_spec d 365 ltac:(lia)) as [Hceil _].
  set (years := ceil_div d 365) in *.
  exists years, (trunc_truediv_pos (d * NS_PER_DAY) years).
  split; [exact E|]. split; [|split; [lia|]].
  - unfold years. symmetry. apply ceil_div_scale; lia.
  - apply trunc_truediv_pos_le; [lia | lia | nia |].
    intros e He Hpow. apply year_is_binary64; [exact He|].
    eapply Z.le_trans; [exact Hpow|].
    apply Z.div_le_upper_bound; [lia | nia].
Qed.

End WholeDays.

Section AnyResolution.

Variable unit : resolution.

Lemma ticks_per_day_day : 86400 <= ticks_per_day unit.
Proof. destruct unit; compute; discriminate. Qed.

(** On counts of nanoseconds [dates_delta_at] is [dates_delta]. *)
Lemma dates_delta_at_nanoseconds time_since time_to :
  dates_delta_at Nanoseconds time_since time_to = dates_delta time_since time_to.
Proof. reflexivity. Qed.

(** What [dates_delta] does on a range with [since < to], at any
    resolution: it is refused exactly when the range holds no whole day. *)
Lemma dates_delta_at_positive_range time_since time_to :
  time_since < time_to ->
  let D := time_to - time_since in
  (D < ticks_per_day unit ->
   dates_delta_at unit time_since time_to = Raise ZeroDivisionError) /\
  (ticks_per_day unit <= D ->
   dates_delta_at unit time_since time_to
   = Ok (ceil_div (D / ticks_per_day unit) 365,
         trunc_truediv_pos D (ceil_div (D / ticks_per_day unit) 365)) /\
   1 <= ceil_div (D / ticks_per_day unit) 365 <= D).
Proof.
  intros Hlt D. unfold dates_delta_at, Timedelta_truediv, Timedelta_days_at. fold D.
  assert (HD : 0 < D) by (unfold D; lia).
  pose proof ticks_per_day_day as Hday.
  split.
  - intros Hshort. rewrite (Z.div_small D (ticks_per_day unit)) by lia. reflexivity.
  - intros Hlong.
    assert (Hdays : 1 <= D / ticks_per_day unit) by (apply Z.div_le_lower_bound; lia).
    pose proof (ceil_div_pos (D / ticks_per_day unit) 365 ltac:(lia) ltac:(lia))
      as [Hy0 Hy].
    pose proof (ceil_div_le_self (D / ticks_per_day unit) ltac:(lia)) as Hyd.
    pose proof (Z.mul_div_le D (ticks_per_day unit) ltac:(lia)) as Hmd.
    set (years := ceil_div (D / ticks_per_day unit) 365) in *.
    assert (Hy1 : 1 <= years)
      by (destruct (Z.eq_dec years 0) as [E|E]; [apply Hy in E|]; lia).
    assert (Hyle : years <= D) by nia.
    split; [|lia].
    replace (years =? 0) with false by (symmetry; apply Z.eqb_neq; lia).
    simpl. unfold trunc_truediv.
    rewrite (Z.sgn_pos D HD), (Z.sgn_pos years) by lia.
    rewrite (Z.abs_eq D), (Z.abs_eq years) by lia.
    now rewrite !Z.mul_1_l.
Qed.

End AnyResolution.

(** Claim C5.  On every range with [since < to] on which [dates_delta]
    succeeds, at whatever resolution the timestamps carry, [count * step] is
    the duration [to - since] up to the rounding of the division: the two
    differ by less than two ticks of the resolution per window plus the
    relative error [2^-53] of the binary64 quotient. *)
Theorem dates_delta_subdivision (unit : resolution) (time_since time_to : Timestamp)
    (count : Z) (step : Timedelta) :
  time_since < time_to ->
  dates_delta_at unit time_since time_to = Ok (count, step) ->
  1 <= count /\
  Z.abs (count * step - (time_to - time_since))
  <= 2 * count + (time_to - time_since) / 2 ^ 53.
Proof.
  intros Hlt H.
  destruct (dates_delta_at_positive_range unit time_since time_to Hlt) as [Hshort Hlong].
  destruct (Z_lt_le_dec (time_to - time_since) (ticks_per_day unit)) as [Hs|Hl].
  - rewrite (Hshort Hs) in H. discriminate.
  - destruct (Hlong Hl) as [E [Hy1 Hyle]]. rewrite E in H. injection H as <- <-.
    split; [exact Hy1|]. apply trunc_truediv_pos_error; lia.
Qed.

(** Claim C5 on the 2192 days from 2023-01-01, in microseconds: seven
    windows, 6 microseconds lost. *)
Lemma dates_delta_subdivision_witness :
  1 <= 7 /\
  Z.abs (7 * 27055542857142 - (1861920000000000 - 1672531200000000))
  <= 2 * 7 + (1861920000000000 - 1672531200000000) / 2 ^ 53.
Proof.
  apply (dates_delta_subdivision Microseconds 1672531200000000 1861920000000000);
    [reflexivity | vm_compute; reflexivity].
Defined.

(** The same range at the two resolutions pandas gives it: the step in
    microseconds, and the step in nanoseconds, where 8 nanoseconds are
    lost. *)
Example dates_delta_at_resolutions :
  dates_delta_at Microseconds 1672531200000000 1861920000000000
  = Ok (7, 27055542857142)
  /\
  dates_delta_at Nanoseconds 1672531200000000000 1861920000000000000
  = Ok (7, 27055542857142856).
Proof. split; vm_compute; reflexivity. Qed.

(** Claim C4 at two failing inputs, both with [since < to], from
    2023-01-01 00:00.  Twelve hours later: the division by zero.  365 days
    and one hour later: one window, where [ceil(D / M)] is 2, and a step
    longer than the maximum span [M] of 365 days. *)
Theorem dates_delta_drops_part_days :
  dates_delta 1672531200000000000 (1672531200000000000 + 43200000000000)
  = Raise ZeroDivisionError
  /\
  dates_delta 1672531200000000000 (1672531200000000000 + 365 * NS_PER_DAY + 3600000000000)
  = Ok (1, 365 * NS_PER_DAY + 3600000000000)
  /\
  ceil_div (365 * NS_PER_DAY + 3600000000000) (365 * NS_PER_DAY) = 2
  /\
  365 * NS_PER_DAY < 365 * NS_PER_DAY + 3600000000000.
Proof. repeat split. Qed.

(* ================================================================== *)
(** * Further properties: dates_delta and the windows of the posting fetchers *)
(* ================================================================== *)

Local Open Scope Z_scope.

Section DatesDeltaMore.

Lemma dates_delta_cases time_since time_to :
  let years := ceil_div (Timedelta_days (time_to - time_since)) 365 in
  (years = 0 /\ dates_delta time_since time_to = Raise ZeroDivisionError) \/
  (years <> 0 /\
   dates_delta time_since time_to
   = Ok (years, trunc_truediv (time_to - time_since) years)).
Proof.
  intros years. unfold dates_delta, Timedelta_truediv. fold years.
  destruct (Z.eqb_spec years 0) as [E|E]; [left | right]; split; auto.
Qed.

Lemma years_zero_iff D :
  ceil_div (Timedelta_days D) 365 = 0 <-> - 364 * NS_PER_DAY <= D < NS_PER_DAY.
Proof.
  unfold ceil_div, Timedelta_days.
  assert (Hday : 0 < NS_PER_DAY) by reflexivity.
  pose proof (Z.div_mod D NS_PER_DAY ltac:(lia)) as E.
  pose proof (Z.mod_pos_bound D NS_PER_DAY Hday) as Hr.
  set (days := D / NS_PER_DAY) in *.
  pose proof (Z.div_mod (- days) 365 ltac:(lia)) as E2.
  pose proof (Z.mod_pos_bound (- days) 365 ltac:(lia)) as Hr2.
  split.
  - intros H. assert (- 364 <= days <= 0) by lia. nia.
  - intros H. assert (- 364 <= days <= 0) by nia. nia.
Qed.

Lemma trunc_truediv_pos_positive a b :
  0 < b -> 8 * b <= a -> 0 < trunc_truediv_pos a b.
Proof.
  intros Hb Hab.
  pose proof (trunc_truediv_pos_error a b Hb ltac:(lia)) as H.
  assert (a / 2 ^ 53 <= a / 2).
  { apply Z.div_le_compat_l; [lia|]. split; [lia | compute; discriminate]. }
  assert (2 * (a / 2) <= a) by (apply Z.mul_div_le; lia).
  destruct (Z_lt_le_dec 0 (trunc_truediv_pos a b)) as [|Hle]; [assumption|].
  exfalso. assert (b * trunc_truediv_pos a b <= 0) by nia. lia.
Qed.

Lemma days_366_is_binary64 e :
  0 <= e -> 2 ^ (52 + e) <= 366 * NS_PER_DAY -> (2 ^ e | 366 * NS_PER_DAY).
Proof.
  intros He H.
  assert (e < 3).
  { destruct (Z_lt_le_dec e 3) as [|Hge]; [assumption|].
    assert (2 ^ 55 <= 2 ^ (52 + e)) by (apply Z.pow_le_mono_r; lia).
    assert (366 * NS_PER_DAY < 2 ^ 55) by reflexivity. lia. }
  assert (He3 : e = 0 \/ e = 1 \/ e = 2) by lia.
  destruct He3 as [He3|[He3|He3]]; subst e.
  - exists (366 * NS_PER_DAY). reflexivity.
  - exists (366 * NS_PER_DAY / 2). reflexivity.
  - exists (366 * NS_PER_DAY / 4). reflexivity.
Qed.

Lemma step_bounds D :
  NS_PER_DAY <= D ->
  0 < trunc_truediv_pos D (ceil_div (D / NS_PER_DAY) 365) <= 366 * NS_PER_DAY.
Proof.
  intros HD.
  assert (Hday : 0 < NS_PER_DAY) by reflexivity.
  pose proof (Z.div_mod D NS_PER_DAY ltac:(lia)) as E.
  pose proof (Z.mod_pos_bound D NS_PER_DAY Hday) as Hr.
  assert (Hdays : 1 <= D / NS_PER_DAY) by (apply Z.div_le_lower_bound; lia).
  pose proof (ceil_div_spec (D / NS_PER_DAY) 365 ltac:(lia)) as [Hc1 Hc2].
  pose proof (ceil_div_pos (D / NS_PER_DAY) 365 ltac:(lia) ltac:(lia)) as [Hy0 Hy].
  set (days := D / NS_PER_DAY) in *.
  set (years := ceil_div days 365) in *.
  assert (Hy1 : 1 <= years) by (destruct (Z.eq_dec years 0) as [E0|E0]; [apply Hy in E0|]; lia).
  assert (Hyd : years <= days) by lia.
  split.
  - apply trunc_truediv_pos_positive; [lia|]. unfold NS_PER_DAY in *. nia.
  - apply trunc_truediv_pos_le; [lia | nia | unfold NS_PER_DAY in *; nia |].
    intros e He Hpow. apply days_366_is_binary64; [exact He|].
    eapply Z.le_trans; [exact Hpow|].
    apply Z.div_le_upper_bound; [lia | unfold NS_PER_DAY in *; nia].
Qed.

End DatesDeltaMore.

(** Extra X1.  [dates_delta] raises [ZeroDivisionError] exactly on
    the ranges whose whole days, rounded down, make no year: from 364 days
    backwards to less than one day forwards.  On such a range, and on no
    other, the constructors of the posting fetchers fail. *)
Theorem dates_delta_zero_division (time_since time_to : Timestamp) :
  dates_delta time_since time_to = Raise ZeroDivisionError
  <-> - 364 * NS_PER_DAY <= time_to - time_since < NS_PER_DAY.
Proof.
  rewrite <- years_zero_iff.
  destruct (dates_delta_cases time_since time_to) as [[E H]|[E H]]; rewrite H.
  - tauto.
  - split; [discriminate | intros E'; now elim E].
Qed.

(** Extra X2.  Whenever [time_since] is before [time_to] and
    [dates_delta] returns, the step it returns is positive and at most 366
    days long. *)
Theorem dates_delta_window_length (time_since time_to : Timestamp)
    (count : Z) (step : Timedelta) :
  time_since < time_to ->
  dates_delta time_since time_to = Ok (count, step) ->
  0 < step <= 366 * NS_PER_DAY.
Proof.
  intros Hlt H.
  destruct (dates_delta_positive_range time_since time_to Hlt) as [Hshort Hlong].
  destruct (Z_lt_le_dec (time_to - time_since) NS_PER_DAY) as [Hs|Hl].
  - rewrite (Hshort Hs) in H. discriminate.
  - destruct (Hlong Hl) as [E _]. rewrite E in H. injection H as <- <-.
    now apply step_bounds.
Qed.

(** Extra X2 on a range of 365 days and one hour. *)
Lemma dates_delta_window_length_witness :
  0 < 365 * NS_PER_DAY + 3600000000000 <= 366 * NS_PER_DAY.
Proof.
  apply (dates_delta_window_length 1672531200000000000
           (1672531200000000000 + 365 * NS_PER_DAY + 3600000000000) 1);
    [reflexivity | vm_compute; reflexivity].
Defined.

Section WindowsAtResolution.

Variable unit : resolution.

Lemma days_366_at e :
  0 <= e -> 2 ^ (52 + e) <= 366 * ticks_per_day unit ->
  (2 ^ e | 366 * ticks_per_day unit).
Proof.
  intros He H.
  assert (H52 : 2 ^ 52 <= 2 ^ (52 + e)) by (apply Z.pow_le_mono_r; lia).
  destruct unit.
  - exfalso. assert (366 * ticks_per_day Seconds < 2 ^ 52) by reflexivity. lia.
  - exfalso. assert (366 * ticks_per_day Milliseconds < 2 ^ 52) by reflexivity. lia.
  - exfalso. assert (366 * ticks_per_day Microseconds < 2 ^ 52) by reflexivity. lia.
  - exact (days_366_is_binary64 e He H).
Qed.

Lemma step_bounds_at D :
  ticks_per_day unit <= D ->
  0 < trunc_truediv_pos D (ceil_div (D / ticks_per_day unit) 365)
  <= 366 * ticks_per_day unit.
Proof.
  intros HD.
  pose proof (ticks_per_day_day unit) as Hday.
  pose proof (Z.div_mod D (ticks_per_day unit) ltac:(lia)) as E.
  pose proof (Z.mod_pos_bound D (ticks_per_day unit) ltac:(lia)) as Hr.
  assert (Hdays : 1 <= D / ticks_per_day unit) by (apply Z.div_le_lower_bound; lia).
  pose proof (ceil_div_spec (D / ticks_per_day unit) 365 ltac:(lia)) as [Hc1 Hc2].
  pose proof (ceil_div_pos (D / ticks_per_day unit) 365 ltac:(lia) ltac:(lia))
    as [Hy0 Hy].
  set (tpd := ticks_per_day unit) in *.
  set (days := D / tpd) in *.
  set (years := ceil_div days 365) in *.
  assert (Hy1 : 1 <= years)
    by (destruct (Z.eq_dec years 0) as [E0|E0]; [apply Hy in E0|]; lia).
  assert (Hyd : years <= days) by lia.
  assert (Hlow : 8 * years <= D) by nia.
  assert (Hup : D <= 366 * tpd * years) by nia.
  split.
  - apply trunc_truediv_pos_positive; lia.
  - apply trunc_truediv_pos_le; [lia | lia | exact Hup |].
    intros e He Hpow. apply days_366_at; [exact He|].
    eapply Z.le_trans; [exact Hpow|].
    apply Z.div_le_upper_bound; [lia | lia].
Qed.

Variable second : Z.

Lemma task_windows_length n : forall since interval,
  List.length (task_windows second n since interval) = n.
Proof. induction n as [|n IH]; intros; simpl; [reflexivity | now rewrite IH]. Qed.

Lemma task_windows_nth n : forall k since interval w,
  nth_error (task_windows second n since interval) k = Some w ->
  w = (since + Z.of_nat k * (interval + second),
       since + Z.of_nat k * (interval + second) + interval).
Proof.
  induction n as [|n IH]; intros [|k] since interval w; cbn [task_windows nth_error];
    try discriminate.
  - intros [= <-]. f_equal; lia.
  - intros H. rewrite (IH k _ _ w H). f_equal; lia.
Qed.

Lemma task_windows_last n : forall since interval d,
  last (task_windows second (S n) since interval) d
  = (since + Z.of_nat n * (interval + second),
     since + Z.of_nat n * (interval + second) + interval).
Proof.
  induction n as [|n IH]; intros since interval d.
  - cbn. f_equal; lia.
  - change (task_windows second (S (S n)) since interval)
      with ((since, since + interval)
              :: task_windows second (S n) (since + (interval + second)) interval).
    change (last (?x :: task_windows second (S n) ?s ?i) d)
      with (last (task_windows second (S n) s i) d).
    rewrite IH. f_equal; lia.
Qed.

End WindowsAtResolution.

(** Extra X3.  The windows for which [FBOPostingList._main] and
    [FBSPostingList._main] create their tasks, when [date_since] is before
    [date_to], at whatever resolution the timestamps carry: there is a first
    window and it starts at [date_since]; every further window starts one
    second after the end of the window before; every window is longer than
    nothing and at most 366 days; and the last window ends at [date_to]
    moved by the seconds put between the windows, up to the rounding of the
    step: less than two ticks of the resolution per window plus the relative
    error [2^-53] of the binary64 quotient. *)
Theorem posting_windows_layout (unit : resolution) (date_since date_to : Timestamp)
    (windows : list (Timestamp * Timestamp)) :
  date_since < date_to ->
  posting_windows unit date_since date_to = Ok windows ->
  (exists w rest, windows = w :: rest /\ fst w = date_since) /\
  (forall k w w',
     nth_error windows k = Some w -> nth_error windows (S k) = Some w' ->
     fst w' = snd w + ticks_per_second unit) /\
  (forall w, In w windows -> 0 < snd w - fst w <= 366 * ticks_per_day unit) /\
  Z.abs (snd (last windows (date_since, date_since))
         - (date_to + (Z.of_nat (List.length windows) - 1) * ticks_per_second unit))
  <= 2 * Z.of_nat (List.length windows) + (date_to - date_since) / 2 ^ 53.
Proof.
  intros Hlt H. unfold posting_windows in H.
  destruct (dates_delta_at_positive_range unit date_since date_to Hlt) as [Hshort Hlong].
  destruct (Z_lt_le_dec (date_to - date_since) (ticks_per_day unit)) as [Hs|Hl].
  { rewrite (Hshort Hs) in H. discriminate. }
  destruct (Hlong Hl) as [E [Hy1 Hyle]]. rewrite E in H. cbn [bind] in H.
  injection H as <-.
  pose proof (step_bounds_at unit (date_to - date_since) Hl) as Hstep.
  pose proof (trunc_truediv_pos_error (date_to - date_since)
                (ceil_div ((date_to - date_since) / ticks_per_day unit) 365)
                ltac:(lia) ltac:(lia)) as Herr.
  set (years := ceil_div ((date_to - date_since) / ticks_per_day unit) 365) in *.
  set (step := trunc_truediv_pos (date_to - date_since) years) in *.
  set (second := ticks_per_second unit) in *.
  destruct (Z.to_nat years) as [|n] eqn:En; [lia|].
  assert (Hn : Z.of_nat (S n) = years) by lia.
  split; [|split; [|split]].
  - cbn [task_windows]. eexists _, _. split; reflexivity.
  - intros k w w' Hk Hk'.
    rewrite (task_windows_nth _ _ _ _ _ _ Hk), (task_windows_nth _ _ _ _ _ _ Hk').
    cbn [fst snd]. lia.
  - intros w Hw. apply In_nth_error in Hw. destruct Hw as [k Hk].
    rewrite (task_windows_nth _ _ _ _ _ _ Hk). cbn [fst snd]. lia.
  - rewrite task_windows_last, task_windows_length. cbn [snd].
    rewrite Hn.
    replace (date_since + Z.of_nat n * (step + second) + step
             - (date_to + (years - 1) * second))
      with (years * step - (date_to - date_since)) by nia.
    lia.
Qed.

(** Extra X3 on the 2192 days from 2023-01-01, in microseconds: seven
    windows of 27055542857142 microseconds, a second apart. *)
Lemma posting_windows_layout_witness :
  (exists w rest,
     task_windows 1000000 7 1672531200000000 27055542857142 = w :: rest /\
     fst w = 1672531200000000) /\
  (forall k w w',
     nth_error (task_windows 1000000 7 1672531200000000 27055542857142) k = Some w ->
     nth_error (task_windows 1000000 7 1672531200000000 27055542857142) (S k)
     = Some w' ->
     fst w' = snd w + ticks_per_second Microseconds) /\
  (forall w,
     In w (task_windows 1000000 7 1672531200000000 27055542857142) ->
     0 < snd w - fst w <= 366 * ticks_per_day Microseconds) /\
  Z.abs (snd (last (task_windows 1000000 7 1672531200000000 27055542857142)
                   (1672531200000000, 1672531200000000))
         - (1861920000000000
            + (Z.of_nat (List.length
                 (task_windows 1000000 7 1672531200000000 27055542857142)) - 1)
              * ticks_per_second Microseconds))
  <= 2 * Z.of_nat (List.length
                     (task_windows 1000000 7 1672531200000000 27055542857142))
     + (1861920000000000 - 1672531200000000) / 2 ^ 53.
Proof.
  apply (posting_windows_layout Microseconds 1672531200000000 1861920000000000);
    [reflexivity | vm_compute; reflexivity].
Defined.

(** The windows of the witness. *)
Example posting_windows_example :
  posting_windows Microseconds 1672531200000000 1861920000000000
  = Ok [(1672531200000000, 1699586742857142);
        (1699586743857142, 1726642286714284);
        (1726642287714284, 1753697830571426);
        (1753697831571426, 1780753374428568);
        (1780753375428568, 1807808918285710);
        (1807808919285710, 1834864462142852);
        (1834864463142852, 1861920005999994)].
Proof. vm_compute. reflexivity. Qed.

(** Extra X4 on two years of 365 days. *)
Lemma dates_delta_whole_days_witness :
  exists count step,
    dates_delta 1672531200000000000 (1672531200000000000 + 730 * NS_PER_DAY)
    = Ok (count, step) /\
    count = ceil_div (730 * NS_PER_DAY) (365 * NS_PER_DAY) /\
    1 <= count /\
    step <= 365 * NS_PER_DAY.
Proof.
  apply (dates_delta_whole_days 1672531200000000000 730). lia.
Defined.

(* ================================================================== *)
(** * Further properties: mult_data and mult_data2 *)
(* ================================================================== *)

Local Open Scope nat_scope.

Section ExplodeMore.

Lemma for_each_app {A S : Type} (body : A -> S -> outcome S) (l1 l2 : list A) : forall s,
  for_each (l1 ++ l2) body s = bind (for_each l1 body s) (for_each l2 body).
Proof.
  induction l1 as [|x l1 IH]; intros s; simpl; [reflexivity|].
  destruct (body x s) as [s'|e]; simpl; [apply IH | reflexivity].
Qed.

Lemma mult_data_clones column note d items :
  dict_get column d = Some (VList items) ->
  forall k i hc new_data,
    i + k = List.length items ->
    heap_get hc note = Some d ->
    for_each (seq i k) (mult_data_clone column note) (hc, new_data)
    = Ok (hc ++ map (fun x => dict_set column x d) (firstn k (skipn i items)),
          new_data ++ seq (List.length hc) k).
Proof.
  intros Hcol. induction k as [|k IH]; intros i hc new_data Hik Hnote; simpl.
  - now rewrite !app_nil_r.
  - unfold mult_data_clone at 1, append_deepcopy, heap_getitem, heap_alloc. simpl.
    rewrite Hnote. simpl.
    unfold heap_update at 1, heap_getitem. rewrite heap_get_app_last. simpl.
    unfold pick_item, dict_getitem. rewrite Hcol. simpl.
    destruct (nth_error items i) as [x|] eqn:Ex.
    2:{ apply nth_error_None in Ex. lia. }
    simpl. rewrite heap_set_app_last.
    rewrite (IH (S i)); [| lia | now apply heap_get_app_old].
    rewrite (skipn_nth_error items i x Ex). simpl.
    rewrite <- !app_assoc. simpl. rewrite length_app. simpl.
    replace (List.length hc + 1) with (S (List.length hc)) by lia. reflexivity.
Qed.

Lemma mult_data_record_explodes column note d items hc new_data :
  heap_get hc note = Some d ->
  dict_get column d = Some (VList items) ->
  mult_data_record column note (hc, new_data)
  = Ok (hc ++ explode_record column d,
        new_data ++ seq (List.length hc) (List.length (explode_record column d))).
Proof.
  intros Hnote Hcol. unfold mult_data_record, column_len, heap_getitem, dict_getitem.
  simpl. rewrite Hnote. simpl. rewrite Hcol. simpl.
  rewrite (mult_data_clones column note d items Hcol (List.length items) 0 hc new_data
             (Nat.add_0_l _) Hnote).
  unfold explode_record. rewrite Hcol. simpl. now rewrite firstn_all, length_map.
Qed.

Lemma list_column_spec h column l :
  list_column h column l = true ->
  exists items,
    heap_get h l = Some (record_at h l) /\
    dict_get column (record_at h l) = Some (VList items).
Proof.
  unfold list_column, record_at. destruct (heap_get h l) as [d|]; [|discriminate].
  destruct (dict_get column d) as [[| | | |items|]|]; try discriminate. eauto.
Qed.

Lemma mult_data_loop h column data : forall extra new_data,
  forallb (list_column h column) data = true ->
  for_each data (mult_data_record column) (h ++ extra, new_data)
  = Ok (h ++ extra ++ flat_map (fun l => explode_record column (record_at h l)) data,
        new_data ++ seq (List.length (h ++ extra))
          (List.length (flat_map (fun l => explode_record column (record_at h l)) data))).
Proof.
  induction data as [|l data IH]; intros extra new_data Hall; cbn [for_each flat_map].
  - cbn. now rewrite !app_nil_r.
  - simpl in Hall. apply andb_true_iff in Hall. destruct Hall as [Hl Hall].
    destruct (list_column_spec h column l Hl) as [items [Hget Hcol]].
    pose proof (mult_data_record_explodes column l (record_at h l) items (h ++ extra)
                  new_data (heap_get_app_old h extra l _ Hget) Hcol) as R.
    unfold heap in R. rewrite R. clear R.
    cbn [bind]. rewrite <- app_assoc. rewrite (IH _ _ Hall).
    f_equal. f_equal; [now rewrite <- app_assoc|].
    rewrite <- app_assoc. f_equal.
    rewrite (length_app (explode_record column (record_at h l))), seq_app. f_equal.
    f_equal. rewrite !length_app. lia.
Qed.

Variables (first_column second_column : string) (note : loc) (d : dict).
Variables (l1 l2 : list value).
Hypothesis Hfirst : dict_get first_column d = Some (VList l1).
Hypothesis Hsecond : dict_get second_column d = Some (VList l2).
Hypothesis Hcols : first_column <> second_column.
Hypothesis Hlen : List.length l1 = List.length l2.

Lemma aligned_clones k : forall i hc new_data,
  i + k = List.length l1 ->
  heap_get hc note = Some d ->
  for_each (seq i k) (mult_data2_aligned first_column second_column note) (hc, new_data)
  = Ok (hc ++ map (fun xy => dict_set first_column (fst xy)
                               (dict_set second_column (snd xy) d))
                  (firstn k (skipn i (combine l1 l2))),
        new_data ++ seq (List.length hc) k).
Proof.
  induction k as [|k IH]; intros i hc new_data Hik Hnote; simpl.
  - now rewrite !app_nil_r.
  - unfold mult_data2_aligned at 1, append_deepcopy, heap_getitem, heap_alloc. simpl.
    rewrite Hnote. simpl.
    destruct (nth_error l1 i) as [x|] eqn:Ex.
    2:{ apply nth_error_None in Ex. lia. }
    destruct (nth_error l2 i) as [y|] eqn:Ey.
    2:{ apply nth_error_None in Ey. lia. }
    unfold heap_update at 1, heap_getitem. rewrite heap_get_app_last. simpl.
    unfold pick_item at 1, dict_getitem. rewrite Hsecond. simpl. rewrite Ey. simpl.
    rewrite heap_set_app_last.
    unfold heap_update at 1, heap_getitem. rewrite heap_get_app_last. simpl.
    unfold pick_item, dict_getitem. rewrite dict_get_set.
    destruct (String.eqb_spec first_column second_column) as [E|_]; [contradiction|].
    rewrite Hfirst. simpl. rewrite Ex. simpl. rewrite heap_set_app_last.
    rewrite (IH (S i)); [| lia | now apply heap_get_app_old].
    assert (Exy : nth_error (combine l1 l2) i = Some (x, y)).
    { clear - Ex Ey. revert l2 i Ex Ey.
      induction l1 as [|a l1' IHl]; intros [|b l2'] [|i]; simpl; try discriminate.
      - now intros [= ->] [= ->].
      - apply IHl. }
    rewrite (skipn_nth_error _ i _ Exy). simpl.
    rewrite <- !app_assoc. simpl. rewrite length_app. simpl.
    replace (List.length hc + 1) with (S (List.length hc)) by lia. reflexivity.
Qed.

End ExplodeMore.

(** Extra X5.  When every record of [data] holds a list under
    [column], [mult_data] returns: to the store it appends, record by record
    and element by element, one copy of the record with the list replaced by
    the element, and its result lists exactly these copies, in this order.
    A record with an empty list gives no record. *)
Theorem mult_data_explodes (h : heap) (data : list loc) (column : string) :
  forallb (list_column h column) data = true ->
  mult_data h data column
  = Ok (h ++ flat_map (fun l => explode_record column (record_at h l)) data,
        seq (List.length h)
            (List.length (flat_map (fun l => explode_record column (record_at h l)) data))).
Proof.
  intros Hall. unfold mult_data.
  pose proof (mult_data_loop h column data [] [] Hall) as H.
  rewrite !app_nil_r in H. exact H.
Qed.

(** Extra X5 on three postings with two, no and one product. *)
Lemma mult_data_explodes_witness :
  mult_data [[("posting", VStr "A"); ("products", VList [VInt 1; VInt 2])];
             [("posting", VStr "B"); ("products", VList [])];
             [("posting", VStr "C"); ("products", VList [VInt 3])]]
            [0; 1; 2] "products"
  = Ok ([[("posting", VStr "A"); ("products", VList [VInt 1; VInt 2])];
         [("posting", VStr "B"); ("products", VList [])];
         [("posting", VStr "C"); ("products", VList [VInt 3])];
         [("posting", VStr "A"); ("products", VInt 1)];
         [("posting", VStr "A"); ("products", VInt 2)];
         [("posting", VStr "C"); ("products", VInt 3)]],
        [3; 4; 5]).
Proof.
  exact (mult_data_explodes
           [[("posting", VStr "A"); ("products", VList [VInt 1; VInt 2])];
            [("posting", VStr "B"); ("products", VList [])];
            [("posting", VStr "C"); ("products", VList [VInt 3])]]
           [0; 1; 2] "products" eq_refl).
Defined.

(** Extra X6.  [mult_data] raises [KeyError(column)] at the
    first record that lacks the column, whatever the records after it
    hold. *)
Theorem mult_data_missing_column (h : heap) (before after : list loc) (note : loc)
    (column : string) :
  forallb (list_column h column) before = true ->
  heap_get h note <> None ->
  dict_get column (record_at h note) = None ->
  mult_data h (before ++ note :: after) column = Raise (KeyError (VStr column)).
Proof.
  intros Hall Hnote Hcol. unfold mult_data. rewrite for_each_app.
  pose proof (mult_data_loop h column before [] [] Hall) as H.
  rewrite !app_nil_r in H. unfold heap in *. rewrite H. cbn [bind for_each].
  unfold mult_data_record, column_len, heap_getitem, dict_getitem. cbn [fst].
  unfold record_at in Hcol.
  destruct (heap_get h note) as [d|] eqn:E; [|now elim Hnote].
  rewrite (heap_get_app_old h _ note d E). cbn [bind]. rewrite Hcol. reflexivity.
Qed.

(** Extra X6 on a second record without the column. *)
Lemma mult_data_missing_column_witness :
  mult_data [[("posting", VStr "A"); ("products", VList [VInt 1; VInt 2])];
             [("posting", VStr "B")]]
            ([0] ++ 1 :: [0]) "products"
  = Raise (KeyError (VStr "products")).
Proof.
  apply mult_data_missing_column; [reflexivity | discriminate | reflexivity].
Defined.

(** On a record whose two columns are different keys holding lists of one
    length, the body of [mult_data2]'s loop appends one copy of the record
    for every index, with each of the two lists replaced by its element at
    that index. *)
Lemma mult_data2_note_aligned
    (h : heap) (new_data : list loc) (note : loc) (d : dict)
    (first_column second_column : string) (l1 l2 : list value) :
  heap_get h note = Some d ->
  dict_get first_column d = Some (VList l1) ->
  dict_get second_column d = Some (VList l2) ->
  first_column <> second_column ->
  List.length l1 = List.length l2 ->
  mult_data2_note first_column second_column note (h, new_data)
  = Ok (h ++ explode_record2 first_column second_column d,
        new_data ++ seq (List.length h) (List.length l1)).
Proof.
  intros Hnote Hfirst Hsecond Hcols Hlen.
  unfold mult_data2_note, column_len, heap_getitem, dict_getitem. simpl.
  rewrite Hnote. simpl. rewrite Hfirst, Hsecond. simpl.
  rewrite Hlen, Nat.eqb_refl. simpl. rewrite <- Hlen.
  rewrite (aligned_clones first_column second_column note d l1 l2 Hfirst Hsecond Hcols Hlen
             (List.length l1) 0 h new_data (Nat.add_0_l _) Hnote).
  unfold explode_record2. rewrite Hfirst, Hsecond. simpl.
  rewrite firstn_all2; [reflexivity|]. rewrite length_combine. lia.
Qed.

Lemma aligned_columns_spec h first_column second_column l :
  aligned_columns h first_column second_column l = true ->
  exists l1 l2,
    heap_get h l = Some (record_at h l) /\
    dict_get first_column (record_at h l) = Some (VList l1) /\
    dict_get second_column (record_at h l) = Some (VList l2) /\
    List.length l1 = List.length l2.
Proof.
  unfold aligned_columns, record_at. destruct (heap_get h l) as [d|]; [|discriminate].
  destruct (dict_get first_column d) as [[| | | |l1|]|]; try discriminate.
  destruct (dict_get second_column d) as [[| | | |l2|]|]; try discriminate.
  intros H. apply Nat.eqb_eq in H. eauto 6.
Qed.

Lemma mult_data2_loop h first_column second_column data : forall extra new_data,
  first_column <> second_column ->
  forallb (aligned_columns h first_column second_column) data = true ->
  for_each data (mult_data2_note first_column second_column) (h ++ extra, new_data)
  = Ok (h ++ extra
          ++ flat_map (fun l => explode_record2 first_column second_column (record_at h l))
                      data,
        new_data
          ++ seq (List.length (h ++ extra))
               (List.length
                  (flat_map (fun l => explode_record2 first_column second_column
                                        (record_at h l)) data))).
Proof.
  induction data as [|l data IH]; intros extra new_data Hcols Hall; cbn [for_each flat_map].
  - cbn. now rewrite !app_nil_r.
  - simpl in Hall. apply andb_true_iff in Hall. destruct Hall as [Hl Hall].
    destruct (aligned_columns_spec h first_column second_column l Hl)
      as [l1 [l2 [Hget [H1 [H2 Hlen]]]]].
    pose proof (mult_data2_note_aligned (h ++ extra) new_data l (record_at h l)
                  first_column second_column l1 l2
                  (heap_get_app_old h extra l _ Hget) H1 H2 Hcols Hlen) as R.
    unfold heap in R. rewrite R. clear R.
    assert (Hn : List.length (explode_record2 first_column second_column (record_at h l))
                 = List.length l1).
    { unfold explode_record2. rewrite H1, H2, length_map, length_combine. lia. }
    cbn [bind]. rewrite <- app_assoc. rewrite (IH _ _ Hcols Hall).
    f_equal. f_equal; [now rewrite <- app_assoc|].
    rewrite <- app_assoc. f_equal.
    rewrite (length_app (explode_record2 first_column second_column (record_at h l))),
      seq_app, Hn. f_equal.
    f_equal. rewrite !length_app. lia.
Qed.

(** Extra X7.  When the two columns are different keys and every record
    of the data holds under them two lists of one length, [mult_data2]
    returns: to the store it appends, record by record and index by index,
    one copy of the record with each of the two lists replaced by its
    element at that index, and its result lists exactly these copies, in
    this order. *)
Theorem mult_data2_equal_lengths (h : heap) (data : list loc)
    (first_column second_column : string) :
  first_column <> second_column ->
  forallb (aligned_columns h first_column second_column) data = true ->
  mult_data2 h data first_column second_column
  = Ok (h ++ flat_map (fun l => explode_record2 first_column second_column (record_at h l))
                      data,
        seq (List.length h)
            (List.length
               (flat_map (fun l => explode_record2 first_column second_column
                                     (record_at h l)) data))).
Proof.
  intros Hcols Hall. unfold mult_data2.
  pose proof (mult_data2_loop h first_column second_column data [] [] Hcols Hall) as R.
  rewrite !app_nil_r in R. cbn [app] in R. exact R.
Qed.

(** Extra X7 on a record with two items and two prices, and one with
    none. *)
Lemma mult_data2_equal_lengths_witness :
  mult_data2
    [[("sku", VList [VInt 1; VInt 2]); ("price", VList [VStr "10"; VStr "20"]);
      ("posting", VStr "A")];
     [("sku", VList []); ("price", VList []); ("posting", VStr "B")]]
    [0; 1] "sku" "price"
  = Ok ([[("sku", VList [VInt 1; VInt 2]); ("price", VList [VStr "10"; VStr "20"]);
          ("posting", VStr "A")];
         [("sku", VList []); ("price", VList []); ("posting", VStr "B")];
         [("sku", VInt 1); ("price", VStr "10"); ("posting", VStr "A")];
         [("sku", VInt 2); ("price", VStr "20"); ("posting", VStr "A")]],
        [2; 3]).
Proof.
  refine (mult_data2_equal_lengths
            [[("sku", VList [VInt 1; VInt 2]); ("price", VList [VStr "10"; VStr "20"]);
              ("posting", VStr "A")];
             [("sku", VList []); ("price", VList []); ("posting", VStr "B")]]
            [0; 1] "sku" "price" _ _); [discriminate | reflexivity].
Defined.

(** Extra X8.  Whenever [mult_data] or [mult_data2] returns, the
    store it was called on is a prefix of the store it leaves and every
    record of its result was created by the call: no record of the input is
    modified. *)
Theorem explode_keeps_input (h : heap) (data : list loc)
    (first_column second_column : string) (st' : heap * list loc) :
  mult_data h data first_column = Ok st' \/
  mult_data2 h data first_column second_column = Ok st' ->
  extends h st'.
Proof.
  intros [H|H]; [eapply mult_data_pure | eapply mult_data2_pure]; exact H.
Qed.

(** Extra X8 on a record with two items. *)
Lemma explode_keeps_input_witness :
  extends [[("id", VInt 1); ("items", VList [VStr "a"; VStr "b"])]]
          ([[("id", VInt 1); ("items", VList [VStr "a"; VStr "b"])];
            [("id", VInt 1); ("items", VStr "a")];
            [("id", VInt 1); ("items", VStr "b")]], [1; 2]).
Proof.
  apply (explode_keeps_input
           [[("id", VInt 1); ("items", VList [VStr "a"; VStr "b"])]] [0] "items" "id").
  left. reflexivity.
Defined.

(* ================================================================== *)
(** * Further properties: the paginator loops *)
(* ================================================================== *)

Local Open Scope Z_scope.

Section FlagPaginator.

Import FBSPostingList.

Lemma on_response_postings r items has_next data offset :
  postings_page r = Some (items, has_next) ->
  on_response r data offset = (data ++ items, offset + 1000, inl (truthy has_next)).
Proof.
  unfold postings_page, on_response. destruct (get_message (json r)); [discriminate|].
  unfold dict_getitem. destruct (dict_get "result" (json r)) as [v|]; [|discriminate].
  destruct v as [| | | | |res]; try discriminate. cbn [bind py_getitem_str].
  unfold dict_getitem.
  destruct (dict_get "postings" res) as [ps|]; [|discriminate].
  destruct (dict_get "has_next" res) as [hn|]; [|discriminate].
  cbn [bind]. destruct (py_iter ps) as [l|]; try discriminate.
  now intros [= -> ->].
Qed.

Lemma loop_more_then_final more : forall last rest data offset sent,
  forallb more_page more = true ->
  final_page last = true ->
  loop (more ++ last :: rest) data offset sent
  = FetchRun (data ++ flat_map postings_of (more ++ [last]))
             (offset + 1000 * Z.of_nat (S (List.length more)))
             (sent ++ offsets offset (S (List.length more)))
             Returned.
Proof.
  induction more as [|r more IH]; intros last rest data offset sent Hmore Hfinal.
  - simpl app. cbn [loop]. unfold final_page in Hfinal.
    destruct (postings_page last) as [[items hn]|] eqn:El; [|discriminate].
    rewrite (on_response_postings last items hn data offset El).
    apply negb_true_iff in Hfinal. rewrite Hfinal.
    cbn [flat_map app List.length]. unfold postings_of. rewrite El, app_nil_r.
    unfold offsets. cbn [seq map]. f_equal. f_equal. f_equal. lia.
  - simpl in Hmore. apply andb_true_iff in Hmore. destruct Hmore as [Hr Hmore].
    simpl app. cbn [loop]. unfold more_page in Hr.
    destruct (postings_page r) as [[items hn]|] eqn:El; [|discriminate].
    rewrite (on_response_postings r items hn data offset El). rewrite Hr.
    rewrite (IH last rest _ _ _ Hmore Hfinal).
    rewrite (offsets_cons offset (S (List.length more))).
    cbn [flat_map List.length]. unfold postings_of at 2. rewrite El.
    rewrite <- !app_assoc. f_equal. lia.
Qed.

End FlagPaginator.

(** Extra X9.  [FBSPostingList._fetch] on responses whose [has_next]
    is true followed by one whose [has_next] is false: it posts one request
    for each of them, at the offsets 0, 1000, ..., appends all their postings
    to [self.data] and returns, without a request for what may follow.  The
    number of postings of a page plays no part. *)
Theorem flag_paginator_pages (more : list response) (last : response)
    (rest : list response) (data : list value) :
  forallb more_page more = true ->
  final_page last = true ->
  FBSPostingList._fetch (more ++ last :: rest) data
  = FetchRun (data ++ flat_map postings_of (more ++ [last]))
             (1000 * Z.of_nat (S (List.length more)))
             (offsets 0 (S (List.length more)))
             Returned.
Proof.
  intros Hmore Hfinal. unfold FBSPostingList._fetch.
  now rewrite (loop_more_then_final more last rest data 0 [] Hmore Hfinal).
Qed.

(** Extra X9 on pages of 1000, 1000 and 12 postings, and a response never asked for. *)
Lemma flag_paginator_pages_witness :
  FBSPostingList._fetch
    [postings_response 1000 true; postings_response 1000 true;
     postings_response 12 false; postings_response 5 true] []
  = FetchRun (repeat (VDict []) 2012) 3000 [0; 1000; 2000] Returned.
Proof.
  pose proof (flag_paginator_pages
                [postings_response 1000 true; postings_response 1000 true]
                (postings_response 12 false) [postings_response 5 true] []
                eq_refl eq_refl) as H.
  cbn [app] in H. rewrite H. vm_compute. reflexivity.
Defined.

Section PageCountSufficient.

Import AsyncFinanceRealizationList.

Lemma loop_until_last_page before : forall last rest data page sent,
  other_pages page before = true ->
  last_page (page + Z.of_nat (List.length before)) last = true ->
  loop (before ++ last :: rest) data page sent
  = FetchRun (data ++ flat_map operations_of (before ++ [last]))
             (page + Z.of_nat (S (List.length before)))
             (sent ++ pages page (S (List.length before)))
             Returned.
Proof.
  induction before as [|r before IH]; intros last rest data page sent Hother Hlast.
  - simpl app. cbn [loop]. unfold last_page in Hlast.
    destruct (reports last) as [[items pc]|] eqn:El; [|discriminate].
    rewrite (on_response_reports last items pc data page El).
    cbn [List.length] in Hlast. rewrite Z.add_0_r in Hlast. rewrite Hlast.
    cbn [negb flat_map app List.length]. unfold operations_of. rewrite El, app_nil_r.
    unfold pages. cbn [seq map]. f_equal. f_equal. f_equal. lia.
  - cbn [other_pages] in Hother.
    destruct (reports r) as [[items pc]|] eqn:El; [|discriminate].
    apply andb_true_iff in Hother. destruct Hother as [Hr Hother].
    simpl app. cbn [loop].
    rewrite (on_response_reports r items pc data page El). rewrite Hr.
    rewrite (IH last rest _ _ _ Hother).
    2:{ rewrite <- Hlast. f_equal. cbn [List.length]. lia. }
    rewrite (pages_cons page (S (List.length before))).
    cbn [flat_map List.length]. unfold operations_of at 2. rewrite El.
    rewrite <- !app_assoc. f_equal. lia.
Qed.

End PageCountSufficient.

(** Extra X10.  [AsyncFinanceRealizationList._fetch] on
    responses that report a page count other than the page they answer,
    followed by one that reports its own page: it posts the pages 1, 2, ...
    up to that one, appends all their operations to [self.data] and
    returns. *)
Theorem page_count_paginator_pages (before : list response) (last : response)
    (rest : list response) (data : list value) :
  other_pages 1 before = true ->
  last_page (1 + Z.of_nat (List.length before)) last = true ->
  AsyncFinanceRealizationList._fetch (before ++ last :: rest) data
  = FetchRun (data ++ flat_map operations_of (before ++ [last]))
             (1 + Z.of_nat (S (List.length before)))
             (pages 1 (S (List.length before)))
             Returned.
Proof.
  intros Hother Hlast. unfold AsyncFinanceRealizationList._fetch.
  now rewrite (loop_until_last_page before last rest data 1 [] Hother Hlast).
Qed.

(** Extra X10 on four pages of a page count of four, and a response never asked for. *)
Lemma page_count_paginator_pages_witness :
  AsyncFinanceRealizationList._fetch
    [operations_page 1000 4; operations_page 1000 4; operations_page 1000 4;
     operations_page 7 4; operations_page 9 4] []
  = FetchRun (repeat (VDict []) 3007) 5 [1; 2; 3; 4] Returned.
Proof.
  pose proof (page_count_paginator_pages
                [operations_page 1000 4; operations_page 1000 4; operations_page 1000 4]
                (operations_page 7 4) [operations_page 9 4] []
                eq_refl eq_refl) as H.
  cbn [app] in H. rewrite H. vm_compute. reflexivity.
Defined.

Section AnyPaginator.

(** The three loops have one shape; what is proved of the shape holds of
    each. *)
Variable on_response : response -> list value -> Z -> iteration.
Variable loop : list response -> list value -> Z -> list Z -> fetch_run.
Variable step : Z.

Hypothesis loop_nil : forall data c sent,
  loop [] data c sent = FetchRun data c (sent ++ [c]) Awaiting.
Hypothesis loop_cons : forall r script data c sent,
  loop (r :: script) data c sent
  = match on_response r data c with
    | (data', c', inr e) => FetchRun data' c' (sent ++ [c]) (Raised e)
    | (data', c', inl true) => loop script data' c' (sent ++ [c])
    | (data', c', inl false) => FetchRun data' c' (sent ++ [c]) Returned
    end.
Hypothesis goes_on_by_step : forall r data c data' c',
  on_response r data c = (data', c', inl true) -> c' = c + step.
Hypothesis appends : forall r data c,
  exists items, fst (fst (on_response r data c)) = data ++ items.

Lemma cursors_cons start n :
  cursors start step (S n) = start :: cursors (start + step) step n.
Proof.
  unfold cursors. cbn [seq map]. f_equal; [lia|].
  rewrite <- seq_shift, map_map. apply map_ext. intros i. lia.
Qed.

Lemma any_loop_requests script : forall data c sent,
  exists n,
    (1 <= n <= S (List.length script))%nat /\
    posted (loop script data c sent) = sent ++ cursors c step n /\
    (ended (loop script data c sent) = Awaiting <-> n = S (List.length script)).
Proof.
  induction script as [|r script IH]; intros data c sent.
  - exists 1%nat. rewrite loop_nil. cbn. repeat split; try lia.
    unfold cursors. cbn. do 2 f_equal. lia.
  - rewrite loop_cons.
    destruct (on_response r data c) as [[data' c'] [[|]|e]] eqn:E.
    + rewrite (goes_on_by_step r data c data' c' E).
      destruct (IH data' (c + step) (sent ++ [c])) as [n [Hn [Hp He]]].
      exists (S n). cbn [List.length]. split; [lia|]. split.
      * rewrite Hp, <- app_assoc, cursors_cons. reflexivity.
      * rewrite He. lia.
    + exists 1%nat. cbn. split; [lia|]. split.
      * unfold cursors. cbn. do 2 f_equal. lia.
      * split; [discriminate | lia].
    + exists 1%nat. cbn. split; [lia|]. split.
      * unfold cursors. cbn. do 2 f_equal. lia.
      * split; [discriminate | lia].
Qed.

Lemma any_loop_keeps_buffer script : forall data c sent,
  exists items, self_data (loop script data c sent) = data ++ items.
Proof.
  induction script as [|r script IH]; intros data c sent.
  - rewrite loop_nil. exists []. cbn. now rewrite app_nil_r.
  - rewrite loop_cons. destruct (appends r data c) as [items Hi].
    destruct (on_response r data c) as [[data' c'] [[|]|e]]; cbn in Hi; subst data'.
    + destruct (IH (data ++ items) c' (sent ++ [c])) as [more Hm].
      exists (items ++ more). now rewrite Hm, app_assoc.
    + now exists items.
    + now exists items.
Qed.

End AnyPaginator.

Section ThreeLoops.

Lemma FBO_goes_on_by_step r data c data' c' :
  FBOPostingList.on_response r data c = (data', c', inl true) -> c' = c + 1000.
Proof.
  unfold FBOPostingList.on_response. destruct (get_message (json r)); [discriminate|].
  destruct (bind _ _) as [[switcher items]|e]; [|discriminate]. now intros [= _ <- _].
Qed.

Lemma FBS_goes_on_by_step r data c data' c' :
  FBSPostingList.on_response r data c = (data', c', inl true) -> c' = c + 1000.
Proof.
  unfold FBSPostingList.on_response. destruct (get_message (json r)); [discriminate|].
  destruct (bind _ _) as [items|e]; [|discriminate].
  destruct (bind _ _) as [hn|e]; [|discriminate]. now intros [= _ <- _].
Qed.

Lemma Finance_goes_on_by_step r data c data' c' :
  AsyncFinanceRealizationList.on_response r data c = (data', c', inl true) -> c' = c + 1.
Proof.
  unfold AsyncFinanceRealizationList.on_response.
  destruct (get_message (json r)); [discriminate|].
  destruct (bind _ _) as [items|e]; [|discriminate].
  destruct (bind _ _) as [pc|e]; [|discriminate]. now intros [= _ <- _].
Qed.

Lemma FBS_appends r data c :
  exists items, fst (fst (FBSPostingList.on_response r data c)) = data ++ items.
Proof.
  unfold FBSPostingList.on_response.
  destruct (get_message (json r)); [exists []; simpl; now rewrite app_nil_r|].
  destruct (bind _ _) as [items|e]; [|exists []; simpl; now rewrite app_nil_r].
  destruct (bind _ _) as [hn|e]; simpl; now exists items.
Qed.

Lemma Finance_appends r data c :
  exists items,
    fst (fst (AsyncFinanceRealizationList.on_response r data c)) = data ++ items.
Proof.
  unfold AsyncFinanceRealizationList.on_response.
  destruct (get_message (json r)); [exists []; simpl; now rewrite app_nil_r|].
  destruct (bind _ _) as [items|e]; [|exists []; simpl; now rewrite app_nil_r].
  destruct (bind _ _) as [pc|e]; simpl; now exists items.
Qed.

End ThreeLoops.

(** Extra X11.  Whatever the responses, each of the three
    [_fetch] loops posts at least one request and at most one more than the
    responses it is given, at consecutive cursors (the offsets 0, 1000, ...
    or the pages 1, 2, ...); it is left waiting for a response exactly when
    it has read every response given. *)
Theorem paginators_request_in_order (script : list response) (data : list value) :
  (exists n,
     (1 <= n <= S (List.length script))%nat /\
     posted (FBOPostingList._fetch script data) = cursors 0 1000 n /\
     (ended (FBOPostingList._fetch script data) = Awaiting <-> n = S (List.length script)))
  /\
  (exists n,
     (1 <= n <= S (List.length script))%nat /\
     posted (FBSPostingList._fetch script data) = cursors 0 1000 n /\
     (ended (FBSPostingList._fetch script data) = Awaiting <-> n = S (List.length script)))
  /\
  (exists n,
     (1 <= n <= S (List.length script))%nat /\
     posted (AsyncFinanceRealizationList._fetch script data) = cursors 1 1 n /\
     (ended (AsyncFinanceRealizationList._fetch script data) = Awaiting
      <-> n = S (List.length script))).
Proof.
  split; [|split].
  - exact (any_loop_requests FBOPostingList.on_response FBOPostingList.loop 1000
             (fun _ _ _ => eq_refl) (fun _ _ _ _ _ => eq_refl)
             FBO_goes_on_by_step script data 0 []).
  - exact (any_loop_requests FBSPostingList.on_response FBSPostingList.loop 1000
             (fun _ _ _ => eq_refl) (fun _ _ _ _ _ => eq_refl)
             FBS_goes_on_by_step script data 0 []).
  - exact (any_loop_requests AsyncFinanceRealizationList.on_response
             AsyncFinanceRealizationList.loop 1
             (fun _ _ _ => eq_refl) (fun _ _ _ _ _ => eq_refl)
             Finance_goes_on_by_step script data 1 []).
Qed.

(** Extra X12.  Whatever the responses, and also when it raises,
    a run of each of the three [_fetch] loops leaves [self.data] as it found
    it followed by what it appended: it removes and rewrites nothing. *)
Theorem paginators_keep_buffer (script : list response) (data : list value) :
  (exists items, self_data (FBOPostingList._fetch script data) = data ++ items) /\
  (exists items, self_data (FBSPostingList._fetch script data) = data ++ items) /\
  (exists items,
     self_data (AsyncFinanceRealizationList._fetch script data) = data ++ items).
Proof.
  split; [|split].
  - exact (any_loop_keeps_buffer FBOPostingList.on_response FBOPostingList.loop
             (fun _ _ _ => eq_refl) (fun _ _ _ _ _ => eq_refl)
             on_response_appends script data 0 []).
  - exact (any_loop_keeps_buffer FBSPostingList.on_response FBSPostingList.loop
             (fun _ _ _ => eq_refl) (fun _ _ _ _ _ => eq_refl)
             FBS_appends script data 0 []).
  - exact (any_loop_keeps_buffer AsyncFinanceRealizationList.on_response
             AsyncFinanceRealizationList.loop
             (fun _ _ _ => eq_refl) (fun _ _ _ _ _ => eq_refl)
             Finance_appends script data 1 []).
Qed.

(* ================================================================== *)
(** * Further properties: manage_asyncio_wait and the fan-out *)
(* ================================================================== *)

Local Open Scope nat_scope.

Section OrchestratorOutcome.

Lemma for_done_uncancelled_record done : forall ids cancelled o,
  for_done (map (completed false) done) ids cancelled o
  = (cancelled || negb (forallb finishes done),
     Orchestration (raised o) (logged o ++ failures done)
       (cancel_calls (snd (for_done (map (completed false) done) ids cancelled o)))).
Proof.
  induction done as [|c done IH]; intros ids cancelled o; cbn [map for_done forallb failures flat_map].
  - destruct o. cbn. now rewrite orb_false_r, app_nil_r.
  - unfold exception, finishes. cbn [completed result]. destruct (body c) as [|e].
    + rewrite IH at 1. cbn [andb negb app]. reflexivity.
    + rewrite IH at 1. cbn [andb negb orb raised logged]. rewrite orb_true_r.
      rewrite <- app_assoc. reflexivity.
Qed.

Lemma wait_loop_cancelled rounds : forall o,
  raised o = None ->
  raised (wait_loop rounds true o)
  = match List.concat rounds with [] => None | _ => Some CancelledError end.
Proof.
  induction rounds as [|done pending IH]; intros o Ho; cbn [wait_loop List.concat].
  - exact Ho.
  - destruct done as [|c done]; cbn [map for_done app].
    + rewrite Ho. now apply IH.
    + unfold exception. cbn. reflexivity.
Qed.

Lemma wait_loop_cancelled_logged rounds : forall o,
  logged (wait_loop rounds true o) = logged o.
Proof.
  induction rounds as [|done pending IH]; intros o; cbn [wait_loop]; [reflexivity|].
  destruct done as [|c done]; cbn [map for_done].
  - destruct (raised o); [reflexivity | apply IH].
  - unfold exception. cbn. reflexivity.
Qed.

Lemma failures_app l1 l2 : failures (l1 ++ l2) = failures l1 ++ failures l2.
Proof. unfold failures. apply flat_map_app. Qed.

Lemma failures_finishes done : forallb finishes done = true -> failures done = [].
Proof.
  induction done as [|c done IH]; simpl; [reflexivity|].
  unfold finishes at 1. destruct (body c); [|discriminate]. simpl. exact IH.
Qed.

Lemma wait_loop_outcome rounds : forall o,
  raised o = None ->
  raised (wait_loop rounds false o)
  = (if fails_with_pending rounds then Some CancelledError else None) /\
  (fails_with_pending rounds = false ->
   logged (wait_loop rounds false o) = logged o ++ failures (List.concat rounds)).
Proof.
  induction rounds as [|done pending IH]; intros o Ho;
    cbn [wait_loop fails_with_pending List.concat].
  - split; [exact Ho | intros _; cbn; now rewrite app_nil_r].
  - rewrite for_done_uncancelled_record. cbn [orb raised]. rewrite Ho.
    set (o' := Orchestration None (logged o ++ failures done) _).
    destruct (forallb finishes done) eqn:Ef; cbn [negb andb orb].
    + destruct (IH o' eq_refl) as [Hr Hl]. split; [exact Hr|].
      intros Hf. rewrite (Hl Hf). unfold o'. cbn [logged].
      now rewrite failures_app, app_assoc.
    + rewrite (wait_loop_cancelled pending o' eq_refl), wait_loop_cancelled_logged.
      destruct (List.concat pending) as [|c cs] eqn:Ec; cbn [orb].
      * assert (Hnone : fails_with_pending pending = false).
        { clear - Ec. induction pending as [|r p IHp]; [reflexivity|].
          cbn in Ec. apply app_eq_nil in Ec. destruct Ec as [-> Ec].
          cbn. now apply IHp. }
        rewrite Hnone. split; [reflexivity|]. intros _. unfold o'. cbn [logged].
        now rewrite app_nil_r.
      * split; [reflexivity | discriminate].
Qed.

End OrchestratorOutcome.

(** Extra X13.  The one exception that leaves
    [manage_asyncio_wait] is [CancelledError], and it leaves it exactly when
    a task fails in a round of [asyncio.wait] after which tasks are still
    pending.  In every other run the orchestrator returns normally and has
    logged the exception of every task that failed, in the order in which it
    read them. *)
Theorem orchestrator_outcome (rounds : list (list Coroutine)) :
  raised (manage_asyncio_wait rounds)
  = (if fails_with_pending rounds then Some CancelledError else None)
  /\
  (fails_with_pending rounds = false ->
   logged (manage_asyncio_wait rounds) = failures (List.concat rounds)).
Proof.
  unfold manage_asyncio_wait.
  exact (wait_loop_outcome rounds (Orchestration None [] []) eq_refl).
Qed.

(** Extra X13 on a last round in which two of three tasks fail. *)
Lemma orchestrator_outcome_witness :
  logged (manage_asyncio_wait
            [[MkCoroutine 0 Finishes];
             [MkCoroutine 2 (RaisesExn TypeError); MkCoroutine 1 Finishes;
              MkCoroutine 3 (RaisesExn (KeyError (VStr "result")))]])
  = [TypeError; KeyError (VStr "result")].
Proof.
  apply (proj2 (orchestrator_outcome
           [[MkCoroutine 0 Finishes];
            [MkCoroutine 2 (RaisesExn TypeError); MkCoroutine 1 Finishes;
             MkCoroutine 3 (RaisesExn (KeyError (VStr "result")))]])).
  reflexivity.
Defined.

Section RunIsOver.

Import FanOut.

Lemma existsb_false_nth {A} (f : A -> bool) l i x :
  existsb f l = false -> nth_error l i = Some x -> f x = false.
Proof.
  intros H Hn. apply nth_error_In in Hn.
  destruct (f x) eqn:E; [|reflexivity].
  assert (existsb f l = true) by (apply existsb_exists; eauto). congruence.
Qed.

Lemma nth_error_set_task ts : forall i j t,
  nth_error (set_task ts i t) j
  = if Nat.eqb i j then match nth_error ts i with Some _ => Some t | None => None end
    else nth_error ts j.
Proof.
  induction ts as [|x ts IH]; intros [|i] [|j] t; cbn; try reflexivity.
  - now destruct (Nat.eqb i j).
  - apply IH.
Qed.

Lemma existsb_set_task (f : task_state -> bool) ts : forall i t,
  f t = false -> existsb f ts = false -> existsb f (set_task ts i t) = false.
Proof.
  induction ts as [|x ts IH]; intros [|i] t Ht H; cbn in *; auto.
  - apply orb_false_iff in H. destruct H as [_ H]. rewrite Ht. exact H.
  - apply orb_false_iff in H. destruct H as [Hx H]. rewrite Hx. cbn. now apply IH.
Qed.

Lemma existsb_cancelled_set_task ts : forall i t,
  is_cancelled t = false ->
  existsb is_cancelled (set_task ts i t) = true -> existsb is_cancelled ts = true.
Proof.
  induction ts as [|x ts IH]; intros [|i] t Ht H; cbn in *; auto.
  - rewrite Ht in H. cbn in H. rewrite H. apply orb_true_r.
  - apply orb_true_iff in H. destruct H as [H|H]; [now rewrite H|].
    rewrite (IH _ _ Ht H). apply orb_true_r.
Qed.

Lemma no_running_after_cancel ts : existsb is_running (map cancel_running ts) = false.
Proof. induction ts as [|[o|r] ts IH]; cbn; auto. Qed.

Lemma deliver_no_running i r s :
  existsb is_running (tasks s) = false -> deliver i r s = s.
Proof.
  intros H. unfold deliver. destruct (nth_error (tasks s) i) as [[o|res]|] eqn:E; auto.
  pose proof (existsb_false_nth _ _ _ _ H E). discriminate.
Qed.

Lemma for_done_raises done : forall ids cancelled o,
  raised o = None ->
  raised (snd (for_done done ids cancelled o)) <> None ->
  exists t, In t done /\ result t = Cancelled.
Proof.
  induction done as [|t done IH]; intros ids cancelled o Ho H; cbn [for_done] in H.
  - now elim H.
  - unfold exception in H. destruct (result t) as [|e|] eqn:Er.
    + destruct (IH _ _ _ Ho H) as [t' [Hin Ht']]. exists t'. split; [now right | exact Ht'].
    + destruct cancelled;
        (apply IH in H; [|exact Ho]; destruct H as [t' [Hin Ht']];
         exists t'; split; [now right | exact Ht']).
    + exists t. split; [now left | exact Er].
Qed.

Lemma as_task_cancelled ts i :
  result (as_task ts i) = Cancelled -> existsb is_cancelled ts = true.
Proof.
  unfold as_task. destruct (nth_error ts i) as [[o|r]|] eqn:E; try discriminate.
  cbn. intros ->. apply existsb_exists. exists (Done Cancelled).
  split; [eapply nth_error_In; eauto | reflexivity].
Qed.

Lemma existsb_cancel_running ts :
  existsb is_running ts = false -> map cancel_running ts = ts.
Proof.
  induction ts as [|[o|r] ts IH]; cbn; intros H; try discriminate; auto.
  now rewrite IH.
Qed.

Lemma step_invariant s ev : run_invariant s -> run_invariant (step s ev).
Proof.
  intros Hs. destruct ev as [i r|]; cbn [step].
  - (* a response reaches task [i] *)
    unfold deliver. destruct (nth_error (tasks s) i) as [[offset|res]|] eqn:E;
      try exact Hs.
    destruct Hs as [I1 [I2 [I3 I4]]].
    destruct (FBOPostingList.on_response r (buffer s) offset) as [[data' offset'] next].
    set (t := match next with
              | inl true => Running offset'
              | inl false => Done Succeeded
              | inr e => Done (Failed e)
              end).
    assert (Ht : is_cancelled t = false) by (unfold t; destruct next as [[|]|e]; reflexivity).
    assert (Hrun : existsb is_running (tasks s) = true).
    { apply existsb_exists. exists (Running offset).
      split; [eapply nth_error_In; eauto | reflexivity]. }
    repeat split; cbn [tasks pending finished orch].
    + intros j t' Hj Hr. rewrite nth_error_set_task in Hj.
      destruct (Nat.eqb_spec i j) as [<-|Hne].
      * apply (I1 i (Running offset) E eq_refl).
      * now apply (I1 j t').
    + intros Hf. rewrite (I2 Hf) in Hrun. discriminate.
    + intros Hc. apply existsb_cancelled_set_task in Hc; [|exact Ht].
      rewrite (I3 Hc) in Hrun. discriminate.
    + exact I4.
  - (* the orchestrator is resumed *)
    unfold wake. destruct (finished s) eqn:Ef; [exact Hs|].
    destruct (filter (is_done (tasks s)) (pending s)) as [|d0 done] eqn:Ed;
      [exact Hs|].
    destruct Hs as [I1 [I2 [I3 I4]]].
    assert (Ho : raised (orch s) = None).
    { destruct (raised (orch s)) eqn:Er; [|reflexivity].
      assert (finished s = true) by (apply I4; congruence). congruence. }
    pose proof (for_done_raises (map (as_task (tasks s)) (d0 :: done))
                  (filter (fun i => negb (is_done (tasks s) i)) (pending s))
                  false (orch s) Ho) as Hraise.
    destruct (for_done _ _ false (orch s)) as [cancelled o]. cbn [snd] in Hraise.
    assert (Hnorun : raised o <> None -> existsb is_running (tasks s) = false).
    { intros Hr. destruct (Hraise Hr) as [t [Hin Ht]].
      apply in_map_iff in Hin. destruct Hin as [j [<- _]].
      apply I3. eapply as_task_cancelled; eauto. }
    assert (Hts : forall j t, nth_error (if cancelled then map cancel_running (tasks s)
                                         else tasks s) j = Some t ->
                              is_running t = true ->
                              nth_error (tasks s) j = Some t /\ cancelled = false).
    { intros j t Hj Hr. destruct cancelled; [|auto].
      pose proof (existsb_false_nth _ _ _ _ (no_running_after_cancel (tasks s)) Hj).
      congruence. }
    repeat split; cbn [tasks pending finished orch].
    + intros j t Hj Hr. destruct (Hts j t Hj Hr) as [Hj' _].
      apply filter_In. split; [now apply (I1 j t)|].
      unfold is_done. rewrite Hj'. now destruct t.
    + intros Hover.
      destruct (existsb is_running (if cancelled then map cancel_running (tasks s)
                                    else tasks s)) eqn:Eex; [|reflexivity].
      exfalso. apply existsb_exists in Eex. destruct Eex as [t [Hin Hr]].
      apply In_nth_error in Hin. destruct Hin as [j Hj].
      destruct (Hts j t Hj Hr) as [Hj' ->].
      destruct (raised o) eqn:Er.
      * assert (Hn : existsb is_running (tasks s) = false) by (apply Hnorun; congruence).
        pose proof (existsb_false_nth _ _ _ _ Hn Hj'). congruence.
      * destruct (filter (fun i => negb (is_done (tasks s) i)) (pending s)) eqn:Ep;
          [|discriminate].
        assert (Hin : In j (filter (fun i => negb (is_done (tasks s) i)) (pending s))).
        { apply filter_In. split; [now apply (I1 j t)|].
          unfold is_done. rewrite Hj'. now destruct t. }
        rewrite Ep in Hin. destruct Hin.
    + intros Hc. destruct cancelled; [apply no_running_after_cancel|]. now apply I3.
    + intros Hr. destruct (raised o); [reflexivity | now elim Hr].
Qed.

Lemma main_invariant years data : run_invariant (_main years data).
Proof.
  unfold _main. repeat split; cbn [tasks pending finished orch raised].
  - intros i t Hi _. apply in_seq. split; [lia|]. cbn.
    assert (i < List.length (repeat (Running 0) years)) by (apply nth_error_Some; congruence).
    now rewrite repeat_length in H.
  - intros H. apply Nat.eqb_eq in H. now subst.
  - intros H. exfalso. apply existsb_exists in H. destruct H as [t [Hin Ht]].
    apply repeat_spec in Hin. subst. discriminate.
  - intros H. now elim H.
Qed.

Lemma run_invariant_run evs : forall s, run_invariant s -> run_invariant (run evs s).
Proof.
  unfold run. induction evs as [|ev evs IH]; intros s H; cbn; [exact H|].
  apply IH. now apply step_invariant.
Qed.

Lemma run_over evs : forall s,
  finished s = true -> existsb is_running (tasks s) = false -> run evs s = s.
Proof.
  unfold run. induction evs as [|ev evs IH]; intros s Hf Hr; cbn; [reflexivity|].
  assert (E : step s ev = s).
  { destruct ev as [i r|]; cbn.
    - now apply deliver_no_running.
    - unfold wake. now rewrite Hf. }
  rewrite E. now apply IH.
Qed.

End RunIsOver.

(** Extra X14.  In every interleaving of the fetch tasks and the
    orchestrator, once [manage_asyncio_wait] has been left no fetch task is
    running any more, and nothing that the event loop may still deliver
    changes the run: [self.data] is final. *)
Theorem fan_out_run_is_over (years : nat) (data : list value)
    (evs more : list FanOut.event) :
  FanOut.finished (FanOut.run evs (FanOut._main years data)) = true ->
  existsb is_running (FanOut.tasks (FanOut.run evs (FanOut._main years data))) = false /\
  FanOut.run (evs ++ more) (FanOut._main years data)
  = FanOut.run evs (FanOut._main years data).
Proof.
  intros Hf.
  destruct (run_invariant_run evs _ (main_invariant years data)) as [_ [I2 _]].
  split; [exact (I2 Hf)|].
  unfold FanOut.run at 1. rewrite fold_left_app.
  exact (run_over more _ Hf (I2 Hf)).
Qed.

(** Extra X14 on three tasks: the first fails, the others are cancelled, and a
    response that arrives afterwards is not read. *)
Lemma fan_out_run_is_over_witness :
  existsb is_running
    (FanOut.tasks
       (FanOut.run [FanOut.Deliver 0 (Response 500 [("message", VStr "busy")]);
                    FanOut.Wake; FanOut.Deliver 1 (page_of_size 3); FanOut.Wake]
                   (FanOut._main 3 []))) = false /\
  FanOut.run ([FanOut.Deliver 0 (Response 500 [("message", VStr "busy")]);
               FanOut.Wake; FanOut.Deliver 1 (page_of_size 3); FanOut.Wake]
              ++ [FanOut.Deliver 2 (page_of_size 5); FanOut.Wake])
             (FanOut._main 3 [])
  = FanOut.run [FanOut.Deliver 0 (Response 500 [("message", VStr "busy")]);
                FanOut.Wake; FanOut.Deliver 1 (page_of_size 3); FanOut.Wake]
               (FanOut._main 3 []).
Proof.
  apply fan_out_run_is_over. reflexivity.
Defined.

(* ================================================================== *)
(** * flatten_dict: idempotence, and what the loop computes *)
(* ================================================================== *)

Section FlattenPaths.

Lemma distinct_NoDup l : distinct l = true <-> NoDup l.
Proof.
  induction l as [|k l IH]; simpl.
  - split; [constructor | reflexivity].
  - rewrite andb_true_iff, negb_true_iff, IH. split.
    + intros [Hn Hd]. constructor; [|exact Hd].
      intros Hin. apply existsb_eqb_In in Hin. congruence.
    + intros H. inversion H as [|? ? Hn Hd]; subst. split; [|exact Hd].
      destruct (existsb _ _) eqn:E; [|reflexivity].
      apply existsb_eqb_In in E. contradiction.
Qed.

Lemma NoDup_app_disjoint (l1 l2 : list string) k :
  NoDup (l1 ++ l2) -> In k l1 -> In k l2 -> False.
Proof.
  induction l1 as [|x l1 IH]; intros H H1 H2; [destruct H1|].
  cbn in H. inversion H as [|? ? Hn Hd]; subst. destruct H1 as [<-|H1].
  - apply Hn. apply in_or_app. now right.
  - now apply IH.
Qed.

Lemma paths_entry_dict key d : paths_entry key (VDict d) = paths (promoted key d).
Proof.
  unfold paths, promoted. cbn [paths_entry].
  induction d as [|[nk x] d IH]; cbn [map flat_map fst snd]; [reflexivity|].
  now rewrite IH.
Qed.

Lemma node_keys_entry_dict key d :
  node_keys_entry key (VDict d) = key :: node_keys (promoted key d).
Proof.
  unfold node_keys, promoted. cbn [node_keys_entry]. f_equal.
  induction d as [|[nk x] d IH]; cbn [map flat_map fst snd]; [reflexivity|].
  now rewrite IH.
Qed.

Lemma node_keys_entry_head key v : exists tl, node_keys_entry key v = key :: tl.
Proof. destruct v; cbn; eauto. Qed.

Lemma keys_in_node_keys d k : In k (keys d) -> In k (node_keys d).
Proof.
  unfold keys, node_keys. induction d as [|[k0 v] d IH]; cbn [map flat_map fst snd]; [tauto|].
  intros [<-|H]; apply in_or_app.
  - left. destruct (node_keys_entry_head k0 v) as [tl ->]. now left.
  - right. now apply IH.
Qed.

Lemma node_keys_app a b : node_keys (a ++ b) = node_keys a ++ node_keys b.
Proof. apply flat_map_app. Qed.

Lemma paths_app a b : paths (a ++ b) = paths a ++ paths b.
Proof. apply flat_map_app. Qed.

Lemma NoDup_node_keys_keys d : NoDup (node_keys d) -> NoDup (keys d).
Proof.
  induction d as [|[k v] d IH]; intros H; [constructor|].
  change (node_keys ((k, v) :: d)) with (node_keys_entry k v ++ node_keys d) in H.
  destruct (node_keys_entry_head k v) as [tl E]. rewrite E in H. cbn in H.
  inversion H as [|? ? Hn Hd]; subst. cbn. constructor.
  - intros Hin. apply Hn. apply in_or_app. right. now apply keys_in_node_keys.
  - apply IH. now apply NoDup_app_remove_l in Hd.
Qed.

Lemma dict_set_fresh k v d : ~ In k (keys d) -> dict_set k v d = d ++ [(k, v)].
Proof.
  induction d as [|[k0 v0] d IH]; intros H; simpl; [reflexivity|].
  destruct (String.eqb_spec k k0) as [->|_]; [elim H; now left|].
  rewrite IH; [reflexivity|]. intros Hin. apply H. now right.
Qed.

Lemma promote_fresh pk nested : forall parent,
  NoDup (keys (promoted pk nested)) ->
  (forall k, In k (keys (promoted pk nested)) -> ~ In k (keys parent)) ->
  promote pk nested parent = parent ++ promoted pk nested.
Proof.
  induction nested as [|[nk nv] nested IH]; intros parent Hnd Hfresh;
    cbn [promote promoted map fst snd].
  - now rewrite app_nil_r.
  - cbn [promoted map keys fst snd] in Hnd, Hfresh. inversion Hnd as [|? ? Hn Hd]; subst.
    rewrite dict_set_fresh by (apply Hfresh; now left).
    rewrite IH; [now rewrite <- app_assoc | exact Hd |].
    intros k Hk Hin. unfold keys in Hin. rewrite map_app in Hin.
    apply in_app_or in Hin. destruct Hin as [Hin|[<-|[]]].
    + apply (Hfresh k); [now right | exact Hin].
    + now apply Hn.
Qed.

Lemma dict_get_split k v d :
  dict_get k d = Some v ->
  exists l1 l2, d = l1 ++ (k, v) :: l2 /\ ~ In k (keys l1).
Proof.
  induction d as [|[k0 v0] d IH]; simpl; [discriminate|].
  destruct (String.eqb_spec k k0) as [->|Hne].
  - intros [= ->]. exists [], d. split; [reflexivity | intros []].
  - intros H. destruct (IH H) as [l1 [l2 [-> Hn]]].
    exists ((k0, v0) :: l1), l2. split; [reflexivity|].
    intros [E|Hin]; [now apply Hne | now apply Hn].
Qed.

Lemma dict_pop_split k v l1 l2 :
  ~ In k (keys l1) -> dict_pop k (l1 ++ (k, v) :: l2) = l1 ++ l2.
Proof.
  induction l1 as [|[k0 v0] l1 IH]; intros Hn; simpl.
  - now rewrite String.eqb_refl.
  - destruct (String.eqb_spec k k0) as [->|_]; [elim Hn; now left|].
    rewrite IH; [reflexivity|]. intros Hin. apply Hn. now right.
Qed.

(** Promoting one mapping moves its fields to the end of the record and
    nothing else. *)
Lemma promote_step pk nested l1 l2 :
  ~ In pk (keys l1) ->
  NoDup (node_keys (l1 ++ (pk, VDict nested) :: l2)) ->
  dict_pop pk (promote pk nested (l1 ++ (pk, VDict nested) :: l2))
  = l1 ++ l2 ++ promoted pk nested
  /\ NoDup (node_keys (l1 ++ l2 ++ promoted pk nested)).
Proof.
  intros Hl1 Hnd.
  rewrite node_keys_app in Hnd.
  change (node_keys ((pk, VDict nested) :: l2))
    with (node_keys_entry pk (VDict nested) ++ node_keys l2) in Hnd.
  rewrite node_keys_entry_dict in Hnd.
  assert (Hperm : Permutation
            (node_keys l1 ++ (pk :: node_keys (promoted pk nested)) ++ node_keys l2)
            (pk :: node_keys l1 ++ node_keys l2 ++ node_keys (promoted pk nested))).
  { cbn [app]. rewrite <- Permutation_middle. constructor.
    apply Permutation_app_head. apply Permutation_app_comm. }
  pose proof (Permutation_NoDup Hperm Hnd) as Hnd'.
  inversion Hnd' as [|? ? Hpk Hrest]; subst.
  assert (Hfresh : forall k, In k (keys (promoted pk nested)) ->
                             ~ In k (keys (l1 ++ (pk, VDict nested) :: l2))).
  { intros k Hk Hin. apply keys_in_node_keys in Hk.
    unfold keys in Hin. rewrite map_app in Hin. cbn in Hin.
    apply in_app_or in Hin. destruct Hin as [Hin|[<-|Hin]].
    - apply (keys_in_node_keys l1) in Hin.
      rewrite app_assoc in Hrest.
      apply (NoDup_app_disjoint _ _ k Hrest); [apply in_or_app; now left | exact Hk].
    - apply Hpk. apply in_or_app. right. apply in_or_app. now right.
    - apply (keys_in_node_keys l2) in Hin.
      apply NoDup_app_remove_l in Hrest.
      apply (NoDup_app_disjoint _ _ k Hrest); assumption. }
  split.
  - rewrite promote_fresh; [| |exact Hfresh].
    + rewrite <- app_assoc. cbn [app]. now rewrite dict_pop_split.
    + apply NoDup_node_keys_keys.
      now apply NoDup_app_remove_l, NoDup_app_remove_l in Hrest.
  - now rewrite !node_keys_app.
Qed.

Lemma for_parent_keys_paths snapshot : forall parent d,
  for_parent_keys snapshot parent = Ok d ->
  NoDup (node_keys parent) ->
  NoDup (node_keys d) /\ Permutation (paths d) (paths parent).
Proof.
  induction snapshot as [|pk rest IH]; intros parent d H Hnd; cbn [for_parent_keys] in H.
  - injection H as <-. split; [exact Hnd | reflexivity].
  - unfold dict_getitem in H. destruct (dict_get pk parent) as [v|] eqn:Eget; [|discriminate].
    cbn [bind] in H.
    destruct v as [| | | | |nested]; try (now apply IH).
    destruct (dict_get_split pk _ parent Eget) as [l1 [l2 [-> Hl1]]].
    destruct (promote_step pk nested l1 l2 Hl1 Hnd) as [E Hnd'].
    rewrite E in H. destruct (IH _ _ H Hnd') as [Hd Hp]. split; [exact Hd|].
    rewrite Hp, !paths_app.
    change (paths ((pk, VDict nested) :: l2))
      with (paths_entry pk (VDict nested) ++ paths l2).
    rewrite paths_entry_dict. apply Permutation_app_head. apply Permutation_app_comm.
Qed.

Lemma while_any_dict_paths fuel : forall parent d,
  while_any_dict fuel parent = Some (Ok d) ->
  NoDup (node_keys parent) ->
  Permutation (paths d) (paths parent).
Proof.
  induction fuel as [|fuel IH]; intros parent d H Hnd; cbn [while_any_dict] in H.
  - destruct (any_dict_value parent); [discriminate|]. now injection H as <-.
  - destruct (any_dict_value parent); [|now injection H as <-].
    destruct (for_parent_keys (keys parent) parent) as [d1|e] eqn:E; [|discriminate].
    destruct (for_parent_keys_paths _ _ _ E Hnd) as [Hnd1 Hp1].
    rewrite (IH _ _ H Hnd1). exact Hp1.
Qed.

Lemma paths_flat d : any_dict_value d = false -> paths d = d.
Proof.
  unfold paths, any_dict_value. induction d as [|[k v] d IH]; cbn [existsb flat_map fst snd];
    [reflexivity|].
  intros H. apply orb_false_iff in H. destruct H as [Hv H].
  rewrite (IH H). destruct v; try discriminate; reflexivity.
Qed.

End FlattenPaths.

(** Extra X15.  On a record whose keys stay distinct when the keys
    on the way to every field are joined by [__], the loop of [flatten_dict]
    returns a record that holds exactly the values that are not mappings,
    each under the joined keys on the way to it, in some order.  A mapping
    without fields leaves no field. *)
Theorem flatten_parent_paths (parent_dict : dict) :
  distinct (node_keys parent_dict) = true ->
  exists d,
    flatten_parent parent_dict = Some (Ok d) /\
    Permutation d (paths parent_dict).
Proof.
  intros H. apply distinct_NoDup in H.
  destruct (flatten_parent_total parent_dict (NoDup_node_keys_keys _ H))
    as [d [E [Hflat _]]].
  exists d. split; [exact E|].
  rewrite <- (paths_flat d Hflat).
  exact (while_any_dict_paths _ _ _ E H).
Qed.

(** Extra X15 on a posting nested two deep; the mapping inside the list stays. *)
Lemma flatten_parent_paths_witness :
  exists d,
    flatten_parent
      [("posting", VDict [("id", VInt 7);
                          ("analytics", VDict [("region", VStr "MSK");
                                               ("tags", VList [VDict [("k", VInt 1)]])])]);
       ("status", VStr "delivered")]
    = Some (Ok d) /\
    Permutation d
      (paths
         [("posting", VDict [("id", VInt 7);
                             ("analytics", VDict [("region", VStr "MSK");
                                                  ("tags", VList [VDict [("k", VInt 1)]])])]);
          ("status", VStr "delivered")]).
Proof.
  apply flatten_parent_paths. reflexivity.
Defined.

Section InPlace.

Lemma for_array_result array : forall h,
  (forall l, In l array -> exists d, heap_get h l = Some d /\ NoDup (keys d)) ->
  exists h',
    for_array array h = Some (Ok h') /\
    (forall l, In l array ->
       exists d d', heap_get h l = Some d /\ flatten_parent d = Some (Ok d') /\
                    heap_get h' l = Some d') /\
    (forall l, ~ In l array -> heap_get h' l = heap_get h l).
Proof.
  induction array as [|l rest IH]; intros h H; cbn [for_array].
  - exists h. repeat split; auto. intros l [].
  - destruct (H l (or_introl eq_refl)) as [d [Hg Hu]]. rewrite Hg.
    destruct (flatten_parent_total d Hu) as [d' [Ef [Hflat Hu']]]. rewrite Ef.
    set (h1 := heap_set h l d').
    assert (Hl1 : heap_get h1 l = Some d') by (apply (heap_get_set_same h l d' d Hg)).
    assert (Hother : forall l', l' <> l -> heap_get h1 l' = heap_get h l').
    { intros l' Hne. apply heap_get_set_other. congruence. }
    destruct (IH h1) as [h' [E [Hin Hout]]].
    { intros l' Hl'. destruct (Nat.eq_dec l' l) as [->|Hne].
      - exists d'. split; assumption.
      - rewrite (Hother l' Hne). apply H. now right. }
    exists h'. split; [exact E|]. split.
    + intros l' Hl'. destruct (Nat.eq_dec l' l) as [->|Hne].
      * exists d, d'. split; [exact Hg|]. split; [exact Ef|].
        destruct (in_dec Nat.eq_dec l rest) as [Hr|Hr].
        -- destruct (Hin l Hr) as [d1 [d1' [G1 [F1 G1']]]].
           rewrite Hl1 in G1. injection G1 as <-.
           rewrite (flatten_parent_flat d' Hflat) in F1. injection F1 as <-. exact G1'.
        -- rewrite (Hout l Hr). exact Hl1.
      * destruct Hl' as [->|Hl']; [congruence|].
        destruct (Hin l' Hl') as [d1 [d1' [G1 [F1 G1']]]].
        rewrite (Hother l' Hne) in G1. exists d1, d1'. auto.
    + intros l' Hl'. rewrite (Hout l'); [|intros C; apply Hl'; now right].
      apply Hother. intros ->. apply Hl'. now left.
Qed.

End InPlace.

Section FlattenSound.








End FlattenSound.



(** What the first application leaves of the records of the witness. *)
Example flatten_dict_idempotent_example :
  flatten_dict [[("a", VDict [("b", VDict [("c", VInt 1)]); ("d", VInt 2)]); ("e", VInt 3)];
                [("x", VInt 0)]] [0; 1; 0]%nat
  = Some (Ok ([[("e", VInt 3); ("a__d", VInt 2); ("a__b__c", VInt 1)]; [("x", VInt 0)]],
              [0; 1; 0]%nat)).
Proof. reflexivity. Qed.


(** Extra X16.  [flatten_dict] returns the list of records it
    was given; every record of the list holds afterwards what the flattening
    loop makes of its content before the call, once, however often the list
    names it; and no other object of the store is changed. *)
Theorem flatten_dict_in_place (h : heap) (data : list loc) :
  records_ok h data = true ->
  exists h',
    flatten_dict h data = Some (Ok (h', data)) /\
    (forall l, In l data ->
       exists d d', heap_get h l = Some d /\ flatten_parent d = Some (Ok d') /\
                    heap_get h' l = Some d') /\
    (forall l, ~ In l data -> heap_get h' l = heap_get h l).
Proof.
  intros Hok.
  destruct (for_array_result data h (records_ok_spec h data Hok)) as [h' [E [Hin Hout]]].
  exists h'. unfold flatten_dict. rewrite E. auto.
Qed.

(** Extra X16 on a list that names one of three records twice. *)
Lemma flatten_dict_in_place_witness :
  exists h',
    flatten_dict [[("a", VDict [("b", VInt 1)])]; [("c", VDict [("d", VInt 2)])];
                  [("a", VDict [("b", VInt 3)]); ("e", VInt 4)]] [2; 0; 2]
    = Some (Ok (h', [2; 0; 2])) /\
    (forall l, In l [2; 0; 2] ->
       exists d d',
         heap_get [[("a", VDict [("b", VInt 1)])]; [("c", VDict [("d", VInt 2)])];
                   [("a", VDict [("b", VInt 3)]); ("e", VInt 4)]] l = Some d /\
         flatten_parent d = Some (Ok d') /\ heap_get h' l = Some d') /\
    (forall l, ~ In l [2; 0; 2] ->
       heap_get h' l
       = heap_get [[("a", VDict [("b", VInt 1)])]; [("c", VDict [("d", VInt 2)])];
                   [("a", VDict [("b", VInt 3)]); ("e", VInt 4)]] l).
Proof.
  apply flatten_dict_in_place. reflexivity.
Defined.

(* ================================================================== *)
(** * Further properties: flatten_list *)
(* ================================================================== *)

Section FlattenList.

Lemma dict_get_unique k x d : NoDup (keys d) -> In (k, x) d -> dict_get k d = Some x.
Proof.
  induction d as [|[k' x'] d IH]; intros Hnd Hin; [destruct Hin|].
  cbn in Hnd. inversion Hnd as [|? ? Hn Hd]; subst. cbn [dict_get].
  destruct Hin as [[= -> ->]|Hin].
  - now rewrite String.eqb_refl.
  - destruct (String.eqb_spec k k') as [->|_]; [|now apply IH].
    exfalso. apply Hn. unfold keys. apply in_map_iff. exists (k', x). auto.
Qed.

Lemma py_eqb_refl v : well_formed v = true -> py_eqb v v = true.
Proof.
  induction v as [| b | z | s | l IH | d IH] using value_induction; cbn [py_eqb well_formed];
    intros Hwf; try reflexivity.
  - now destruct b.
  - apply Z.eqb_refl.
  - apply String.eqb_refl.
  - induction l as [|x l IHl]; [reflexivity|]. cbn [all2 forallb] in *.
    apply andb_true_iff in Hwf. destruct Hwf as [Hx Hl].
    inversion IH as [|? ? Px Pl]; subst. rewrite (Px Hx). cbn. now apply IHl.
  - apply andb_true_iff in Hwf. destruct Hwf as [Hu Hall].
    rewrite Nat.eqb_refl. cbn [andb]. apply unique_keys_NoDup in Hu.
    apply forallb_forall. intros [k x] Hin.
    rewrite (dict_get_unique k x d Hu Hin).
    rewrite Forall_forall in IH. apply (IH (k, x) Hin).
    rewrite forallb_forall in Hall. apply (Hall (k, x) Hin).
Qed.

Lemma py_eqb_same_shape a : forall b,
  py_eqb a b = true ->
  nodes a = nodes b /\ List.length (leaves a) = List.length (leaves b).
Proof.
  induction a as [| x | x | x | l IH | d IH] using value_induction;
    intros [| y | y | y | m | e]; cbn [py_eqb]; try discriminate; intros H;
    try (split; reflexivity).
  cbn [nodes leaves].
  assert (G : list_sum (map nodes l) = list_sum (map nodes m) /\
              List.length (flat_map leaves l) = List.length (flat_map leaves m)).
  { revert m H. induction l as [|x l IHl]; intros [|y m] H; cbn [all2] in H;
      try discriminate; [split; reflexivity|].
    apply andb_true_iff in H. destruct H as [Hxy Hlm].
    inversion IH as [|? ? Px Pl]; subst.
    destruct (Px y Hxy) as [N1 L1]. destruct (IHl Pl m Hlm) as [N2 L2].
    unfold list_sum in *; cbn [map fold_right flat_map]. rewrite !length_app. lia. }
  destruct G as [G1 G2]. now rewrite G1, G2.
Qed.

Lemma leaves_le_nodes v : List.length (leaves v) <= nodes v.
Proof.
  induction v as [| x | x | x | l IH | d IH] using value_induction; cbn [leaves nodes];
    try (cbn; lia).
  induction l as [|x l IHl]; [cbn; lia|].
  inversion IH as [|? ? Px Pl]; subst. specialize (IHl Pl).
  unfold list_sum in *. cbn [flat_map map fold_right]. rewrite length_app. lia.
Qed.

Lemma leaves_of_le_weight array : List.length (leaves_of array) <= weight array.
Proof.
  unfold leaves_of, weight. induction array as [|x l IH]; [cbn; lia|].
  unfold list_sum in *. cbn [flat_map map fold_right]. rewrite length_app.
  pose proof (leaves_le_nodes x). lia.
Qed.

Lemma length_le_weight array : List.length array <= weight array.
Proof.
  unfold weight. induction array as [|x l IH]; [cbn; lia|].
  unfold list_sum in *; cbn [List.length map fold_right].
  assert (1 <= nodes x) by (destruct x; cbn; lia). lia.
Qed.

Lemma leaves_of_flat array : existsb is_list array = false -> leaves_of array = array.
Proof.
  unfold leaves_of. induction array as [|x l IH]; [reflexivity|].
  cbn [existsb flat_map]. intros H. apply orb_false_iff in H. destruct H as [Hx Hl].
  rewrite (IH Hl). destruct x; try reflexivity. discriminate.
Qed.

(** What [remove] does to a list that holds [v]. *)
Lemma list_remove_spec v array :
  In v array -> well_formed v = true ->
  exists removed,
    list_remove v array = Some removed /\
    weight removed + nodes v = weight array /\
    List.length (leaves_of removed) + List.length (leaves v)
    = List.length (leaves_of array) /\
    incl removed array.
Proof.
  intros Hin Hwf. induction array as [|item l IH]; [destruct Hin|].
  cbn [list_remove]. destruct (py_eqb item v) eqn:E.
  - exists l. destruct (py_eqb_same_shape item v E) as [N L].
    unfold weight, leaves_of, list_sum in *. cbn [map fold_right flat_map].
    rewrite length_app.
    repeat split; try lia. intros x Hx. now right.
  - destruct Hin as [->|Hin]; [rewrite (py_eqb_refl v Hwf) in E; discriminate|].
    destruct (IH Hin) as [r [-> [W [L I]]]]. exists (item :: r).
    unfold weight, leaves_of, list_sum in *. cbn [map fold_right flat_map].
    rewrite !length_app.
    repeat split; try lia.
    intros x [<-|Hx]; [now left | right; now apply I].
Qed.

Lemma well_formed_items l :
  well_formed (VList l) = true -> Forall (fun v => well_formed v = true) l.
Proof. cbn [well_formed]. intros H. apply Forall_forall. now apply forallb_forall. Qed.

Lemma incl_leaves_of a b : incl a b -> incl (leaves_of a) (leaves_of b).
Proof.
  unfold leaves_of. intros H x Hx. apply in_flat_map in Hx. destruct Hx as [v [Hv Hx]].
  apply in_flat_map. exists v. split; [now apply H | exact Hx].
Qed.

Lemma for_values_spec fuel : forall i array,
  Forall (fun v => well_formed v = true) array ->
  weight array - i < fuel ->
  exists out,
    for_values fuel i array = Gives out /\
    Forall (fun v => well_formed v = true) out /\
    weight out <= weight array /\
    List.length (leaves_of out) = List.length (leaves_of array) /\
    incl (leaves_of out) (leaves_of array) /\
    (existsb is_list (skipn i array) = true -> weight out < weight array).
Proof.
  induction fuel as [|fuel IH]; intros i array Hwf Hfuel; [lia|].
  cbn [for_values]. destruct (nth_error array i) as [v|] eqn:En.
  - assert (Hi : i < List.length array) by (apply nth_error_Some; congruence).
    pose proof (length_le_weight array) as Hlw.
    assert (Hin : In v array) by (eapply nth_error_In; eauto).
    assert (Hskip : skipn i array = v :: skipn (S i) array).
    { clear - En. revert i En. induction array as [|x l IHl]; intros [|i] En;
        try discriminate; cbn in *; [congruence | now apply IHl]. }
    assert (Hnext : forall (P : Prop),
               is_list v = false ->
               (exists out,
                  for_values fuel (S i) array = Gives out /\
                  Forall (fun v => well_formed v = true) out /\
                  weight out <= weight array /\
                  List.length (leaves_of out) = List.length (leaves_of array) /\
                  incl (leaves_of out) (leaves_of array) /\
                  (existsb is_list (skipn i array) = true -> weight out < weight array))).
    { intros _ Hv. destruct (IH (S i) array Hwf ltac:(lia)) as [out [E [W [Wt [L [I D]]]]]].
      exists out. repeat split; auto. intros Hex. apply D.
      rewrite Hskip in Hex. cbn [existsb] in Hex. now rewrite Hv in Hex. }
    destruct v as [| b | z | s | for_append | d];
      try (apply (Hnext True); reflexivity).
    assert (Hwv : well_formed (VList for_append) = true).
    { rewrite Forall_forall in Hwf. now apply Hwf. }
    destruct (list_remove_spec (VList for_append) array Hin Hwv)
      as [removed [-> [W [L I]]]].
    cbn [nodes leaves] in W, L. fold (weight for_append) in W. fold (leaves_of for_append) in L.
    assert (Wt : weight (removed ++ for_append) + 1 = weight array).
    { unfold weight in *. rewrite map_app, list_sum_app. lia. }
    assert (Lt : List.length (leaves_of (removed ++ for_append))
                 = List.length (leaves_of array)).
    { unfold leaves_of in *. rewrite flat_map_app, length_app. lia. }
    assert (It : incl (leaves_of (removed ++ for_append)) (leaves_of array)).
    { unfold leaves_of at 1. rewrite flat_map_app. apply incl_app.
      - now apply incl_leaves_of.
      - intros x Hx. unfold leaves_of. apply in_flat_map. exists (VList for_append).
        split; [exact Hin | exact Hx]. }
    destruct (IH (S i) (removed ++ for_append)) as [out [E [Wf' [Wo [Lo [Io _]]]]]].
    + apply Forall_app. split.
      * apply Forall_forall. intros x Hx. rewrite Forall_forall in Hwf. apply Hwf. now apply I.
      * now apply well_formed_items.
    + lia.
    + exists out. repeat split; auto; try lia.
      intros x Hx. apply It. now apply Io.
  - exists array. repeat split; auto.
    + apply incl_refl.
    + intros Hex. apply nth_error_None in En. rewrite skipn_all2 in Hex by exact En.
      discriminate.
Qed.

Lemma while_any_list_spec fuel : forall array,
  Forall (fun v => well_formed v = true) array ->
  weight array - List.length (leaves_of array) < fuel ->
  exists out,
    while_any_list fuel array = Gives out /\
    existsb is_list out = false /\
    List.length (leaves_of out) = List.length (leaves_of array) /\
    incl (leaves_of out) (leaves_of array).
Proof.
  induction fuel as [|fuel IH]; intros array Hwf Hfuel; [lia|].
  cbn [while_any_list]. destruct (existsb is_list array) eqn:Ex.
  - destruct (for_values_spec (S (weight array)) 0 array Hwf ltac:(lia))
      as [out [E [Wf' [Wo [Lo [Io D]]]]]].
    rewrite E. specialize (D Ex).
    pose proof (leaves_of_le_weight out).
    destruct (IH out Wf' ltac:(lia)) as [out' [E' [F' [L' I']]]].
    exists out'. repeat split; auto; try lia.
    intros x Hx. apply Io. now apply I'.
  - exists array. repeat split; auto. apply incl_refl.
Qed.

End FlattenList.

(** Extra X17.  On every list of values whose mappings hold every
    key once, [flatten_list] returns, without a [ValueError] from [remove]:
    no item of its result is a list, the result has as many items as the
    input has items that are not lists at any depth of nested lists, and
    every item of the result is one of them. *)
Theorem flatten_list_flattens (array : list value) :
  forallb well_formed array = true ->
  exists out,
    flatten_list array = Gives out /\
    existsb is_list out = false /\
    List.length out = List.length (flat_map leaves array) /\
    incl out (flat_map leaves array).
Proof.
  intros Hwf. unfold flatten_list.
  destruct (while_any_list_spec (S (weight array)) array) as [out [E [F [L I]]]].
  - apply Forall_forall. now apply forallb_forall.
  - lia.
  - exists out. rewrite (leaves_of_flat out F) in L, I. auto.
Qed.

(** Extra X17 on lists nested three deep. *)
Lemma flatten_list_flattens_witness :
  exists out,
    flatten_list [VList [VInt 1; VList [VInt 2; VList []]]; VStr "a";
                  VList [VDict [("k", VList [VInt 3])]]] = Gives out /\
    existsb is_list out = false /\
    List.length out
    = List.length (flat_map leaves [VList [VInt 1; VList [VInt 2; VList []]]; VStr "a";
                                    VList [VDict [("k", VList [VInt 3])]]]) /\
    incl out (flat_map leaves [VList [VInt 1; VList [VInt 2; VList []]]; VStr "a";
                               VList [VDict [("k", VList [VInt 3])]]]).
Proof.
  apply flatten_list_flattens. reflexivity.
Defined.

(* ================================================================== *)
(** * Further properties: fetchers/Products.py *)
(* ================================================================== *)

Local Open Scope Z_scope.

Section ProductsPaging.

Import Products.

Lemma on_products_page api total r :
  products_page total r = true ->
  _post_request api r = inl (VList (page_products r), VInt total, page_last_id r).
Proof.
  unfold products_page, _post_request, page_products, page_last_id.
  intros H. apply andb_true_iff in H. destruct H as [Hs H]. rewrite Hs. cbn [negb].
  unfold dict_getitem.
  destruct (dict_get "result" (json r)) as [[| | | | |res]|]; try discriminate.
  cbn [bind py_getitem_str]. unfold dict_getitem.
  destruct (dict_get "items" res) as [[| | | |items|]|]; try discriminate.
  destruct (dict_get "total" res) as [[| |t| | |]|]; try discriminate.
  destruct (dict_get "last_id" res) as [lid|]; try discriminate.
  apply Z.eqb_eq in H. subst. reflexivity.
Qed.

Lemma last_cons_default {A : Type} (l : list A) : forall x d,
  last (x :: l) d = last l x.
Proof.
  induction l as [|y l IH]; intros x d; [reflexivity|].
  change (last (y :: l) d = last (y :: l) x). now rewrite !IH.
Qed.

Lemma loop_good_pages api total good : forall rest data last_id cnt sent,
  Forall (fun r => products_page total r = true) good ->
  cnt + 1000 * Z.of_nat (List.length good) < total ->
  loop api (good ++ rest) data last_id cnt sent
  = loop api rest (data ++ flat_map page_products good)
         (last (map page_last_id good) last_id)
         (cnt + 1000 * Z.of_nat (List.length good))
         (sent ++ removelast (last_id :: map page_last_id good)).
Proof.
  induction good as [|r good IH]; intros rest data last_id cnt sent Hall Hlt.
  - cbn [app flat_map map last List.length removelast]. cbn [Z.of_nat].
    now rewrite !app_nil_r, Z.mul_0_r, Z.add_0_r.
  - inversion Hall as [|? ? Hr Hgood]; subst.
    cbn [app loop]. rewrite (on_products_page api total r Hr). cbn [py_iter py_int_ge].
    cbn [List.length] in Hlt. rewrite Nat2Z.inj_succ in Hlt.
    unfold limit. destruct (Z.leb_spec total (cnt + 1000)) as [Hle|Hgt]; [lia|].
    rewrite IH; [|exact Hgood|lia].
    cbn [flat_map map List.length]. rewrite Nat2Z.inj_succ.
    f_equal.
    + now rewrite app_assoc.
    + symmetry. apply last_cons_default.
    + lia.
    + rewrite <- app_assoc. reflexivity.
Qed.

End ProductsPaging.

(** Extra X18.  The number of requests of
    [_get_products_prices_stocks] follows from [total] alone: on responses
    with status 200 that report [total], it posts one request for every
    started thousand of [total], and one when [total] is not positive,
    whatever the number of items of a page.  The first request carries the
    [last_id] the object holds and every further one the [last_id] of the
    response before; all items are appended to the list, and
    [self.body["last_id"]] is [None] again at the end. *)
Theorem products_paging_by_total (api : string) (total : Z)
    (good : list response) (final : response) (unread : list response)
    (data : list value) (last_id : value) :
  Forall (fun r => products_page total r = true) good ->
  products_page total final = true ->
  1000 * Z.of_nat (List.length good) < total <= 1000 * Z.of_nat (S (List.length good)) \/
  (good = [] /\ total <= 1000) ->
  Products._get_products_prices_stocks api (good ++ final :: unread) data last_id
  = Products.Paging (data ++ flat_map page_products (good ++ [final])) VNone
                    (last_id :: map page_last_id good) Products.Returned.
Proof.
  intros Hgood Hfinal Htotal. unfold Products._get_products_prices_stocks.
  assert (Hlt : 0 + 1000 * Z.of_nat (List.length good) < total \/ good = []).
  { destruct Htotal as [H|[H _]]; [left; lia | now right]. }
  assert (Hle : total <= 1000 * Z.of_nat (S (List.length good))).
  { destruct Htotal as [H|[-> H]]; [lia | cbn; lia]. }
  assert (E : Products.loop api (good ++ final :: unread) data last_id 0 []
              = Products.loop api (final :: unread) (data ++ flat_map page_products good)
                  (last (map page_last_id good) last_id)
                  (0 + 1000 * Z.of_nat (List.length good))
                  ([] ++ removelast (last_id :: map page_last_id good))).
  { destruct Hlt as [Hlt| ->].
    - now apply (loop_good_pages api total).
    - cbn. now rewrite app_nil_r. }
  rewrite E. cbn [Products.loop]. rewrite (on_products_page api total final Hfinal).
  cbn [py_iter Products.py_int_ge]. unfold Products.limit.
  destruct (Z.leb_spec total (0 + 1000 * Z.of_nat (List.length good) + 1000)) as [_|Hgt];
    [|rewrite Nat2Z.inj_succ in Hle; lia].
  f_equal.
  - rewrite flat_map_app. cbn [flat_map]. now rewrite app_nil_r, app_assoc.
  - cbn [app]. rewrite <- (last_cons_default (map page_last_id good) last_id VNone).
    symmetry. apply app_removelast_last. discriminate.
Qed.

(** Extra X18 with a total of 1500: two requests. *)
Lemma products_paging_by_total_witness :
  Products._get_products_prices_stocks "https://api-seller.ozon.ru/v2/product/list"
    ([Response 200 [("result", VDict [("items", VList [VInt 1; VInt 2]);
                                      ("total", VInt 1500);
                                      ("last_id", VStr "a")])]]
     ++ Response 200 [("result", VDict [("items", VList [VInt 3]);
                                        ("total", VInt 1500);
                                        ("last_id", VStr "b")])] :: [])
    [] VNone
  = Products.Paging
      ([] ++ flat_map page_products
         ([Response 200 [("result", VDict [("items", VList [VInt 1; VInt 2]);
                                           ("total", VInt 1500);
                                           ("last_id", VStr "a")])]]
          ++ [Response 200 [("result", VDict [("items", VList [VInt 3]);
                                              ("total", VInt 1500);
                                              ("last_id", VStr "b")])]]))
      VNone
      (VNone :: map page_last_id
         [Response 200 [("result", VDict [("items", VList [VInt 1; VInt 2]);
                                          ("total", VInt 1500);
                                          ("last_id", VStr "a")])]])
      Products.Returned.
Proof.
  apply (products_paging_by_total _ 1500).
  - repeat constructor.
  - reflexivity.
  - left. cbn. lia.
Defined.

(** Extra X19.  [_get_products_prices_stocks] raises on the
    first response whose status is not 200, with the status code, the URL
    of the method and the message of the response, also when the response
    holds a page.  The items of the pages before it stay in the list, and
    [self.body["last_id"]] stays the [last_id] of the page before: it is not
    set back to [None]. *)
Theorem products_paging_refused (api : string) (total : Z)
    (good : list response) (refused : response) (unread : list response)
    (message : value) (data : list value) (last_id : value) :
  Forall (fun r => products_page total r = true) good ->
  1000 * Z.of_nat (List.length good) < total \/ good = [] ->
  status refused <> 200 ->
  dict_get "message" (json refused) = Some message ->
  Products._get_products_prices_stocks api (good ++ refused :: unread) data last_id
  = Products.Paging (data ++ flat_map page_products good)
                    (last (map page_last_id good) last_id)
                    (last_id :: map page_last_id good)
                    (Products.Raised (Products.RequestError (status refused) api message)).
Proof.
  intros Hgood Hlt Hstatus Hmessage. unfold Products._get_products_prices_stocks.
  assert (E : Products.loop api (good ++ refused :: unread) data last_id 0 []
              = Products.loop api (refused :: unread) (data ++ flat_map page_products good)
                  (last (map page_last_id good) last_id)
                  (0 + 1000 * Z.of_nat (List.length good))
                  ([] ++ removelast (last_id :: map page_last_id good))).
  { destruct Hlt as [Hlt| ->].
    - apply (loop_good_pages api total); [exact Hgood | lia].
    - cbn. now rewrite app_nil_r. }
  rewrite E. cbn [Products.loop]. unfold Products._post_request.
  destruct (Z.eqb_spec (status refused) 200) as [C|_]; [contradiction|]. cbn [negb].
  unfold dict_getitem. rewrite Hmessage.
  f_equal. cbn [app]. rewrite <- (last_cons_default (map page_last_id good) last_id VNone).
  symmetry. apply app_removelast_last. discriminate.
Qed.

(** Extra X19 on a second response with status 429. *)
Lemma products_paging_refused_witness :
  Products._get_products_prices_stocks "https://api-seller.ozon.ru/v4/product/info/prices"
    ([Response 200 [("result", VDict [("items", VList [VInt 1; VInt 2]);
                                      ("total", VInt 1500);
                                      ("last_id", VStr "a")])]]
     ++ Response 429 [("message", VStr "too many requests");
                      ("result", VDict [("items", VList [VInt 3]);
                                        ("total", VInt 1500);
                                        ("last_id", VStr "b")])] :: [])
    [] VNone
  = Products.Paging
      ([] ++ flat_map page_products
         [Response 200 [("result", VDict [("items", VList [VInt 1; VInt 2]);
                                          ("total", VInt 1500);
                                          ("last_id", VStr "a")])]])
      (last (map page_last_id
               [Response 200 [("result", VDict [("items", VList [VInt 1; VInt 2]);
                                                ("total", VInt 1500);
                                                ("last_id", VStr "a")])]]) VNone)
      (VNone :: map page_last_id
         [Response 200 [("result", VDict [("items", VList [VInt 1; VInt 2]);
                                          ("total", VInt 1500);
                                          ("last_id", VStr "a")])]])
      (Products.Raised
         (Products.RequestError 429 "https://api-seller.ozon.ru/v4/product/info/prices"
                                (VStr "too many requests"))).
Proof.
  apply (products_paging_refused _ 1500).
  - repeat constructor.
  - left. cbn. lia.
  - discriminate.
  - reflexivity.
Defined.

Local Open Scope nat_scope.

Section Thousands.

Import Products.

Lemma slice_succ ids n : slice ids (S n) = slice (skipn 1000 ids) n.
Proof.
  unfold slice. rewrite skipn_skipn. do 2 f_equal. lia.
Qed.

Lemma slices_concat k : forall ids,
  List.length ids <= 1000 * k ->
  List.concat (map (slice ids) (seq 0 k)) = ids.
Proof.
  induction k as [|k IH]; intros ids Hlen.
  - destruct ids; [reflexivity | cbn in Hlen; lia].
  - cbn [seq]. rewrite <- seq_shift. cbn [map List.concat]. rewrite map_map.
    rewrite (map_ext _ (slice (skipn 1000 ids)) (slice_succ ids)).
    rewrite IH by (rewrite length_skipn; lia).
    unfold slice. rewrite Nat.mul_0_r. cbn [skipn]. apply firstn_skipn.
Qed.

Lemma thousands_spec ids :
  List.length ids <= 1000 * thousands ids /\
  (ids <> [] -> 1000 * (thousands ids - 1) < List.length ids).
Proof.
  unfold thousands.
  pose proof (ceil_div_spec (Z.of_nat (List.length ids)) 1000) as H.
  revert H. generalize (ceil_div (Z.of_nat (List.length ids)) 1000). intros c H.
  assert (Hlen : (0 <= Z.of_nat (List.length ids))%Z) by lia.
  split.
  - lia.
  - intros Hne. destruct ids; [congruence|]. cbn [List.length] in *. lia.
Qed.

Lemma slice_bounds ids n :
  1000 * n < List.length ids -> 1 <= List.length (slice ids n) <= 1000.
Proof.
  intros H. unfold slice. rewrite length_firstn, length_skipn. lia.
Qed.

Lemma on_info_page r :
  info_page r = true ->
  status r = 200%Z /\
  (result <- dict_getitem "result" (json r) ;;
   items <- py_getitem_str result "items" ;;
   py_iter items) = Ok (page_products r).
Proof.
  unfold info_page, page_products. intros H. apply andb_true_iff in H.
  destruct H as [Hs H]. apply Z.eqb_eq in Hs. split; [exact Hs|].
  unfold dict_getitem.
  destruct (dict_get "result" (json r)) as [[| | | | |res]|]; try discriminate.
  cbn [bind py_getitem_str]. unfold dict_getitem.
  destruct (dict_get "items" res) as [[| | | |items|]|]; try discriminate.
  reflexivity.
Qed.

Lemma for_thousands_pages ids range : forall script info sent,
  Forall (fun r => info_page r = true) script ->
  List.length script = List.length range ->
  for_thousands ids range script info sent
  = InfoRun (info ++ flat_map page_products script) (sent ++ map (slice ids) range) Returned.
Proof.
  induction range as [|n range IH]; intros script info sent Hall Hlen.
  - destruct script; [|discriminate]. cbn. now rewrite !app_nil_r.
  - destruct script as [|r script]; [discriminate|].
    inversion Hall as [|? ? Hr Hrest]; subst.
    destruct (on_info_page r Hr) as [Hs Hitems].
    cbn [for_thousands]. rewrite Hs, Z.eqb_refl, Hitems.
    rewrite IH; [|exact Hrest|now injection Hlen].
    cbn [flat_map map]. now rewrite <- !app_assoc.
Qed.

End Thousands.

(** Extra X20.  On responses with status 200,
    [_get_products_info_list] asks for every product id once and in order:
    the id lists of its requests, put end to end, are the ids of
    [self.products]; every request carries from 1 to 1000 ids; there is one
    request for every started thousand of ids, and none when there is no
    product. *)
Theorem info_list_requests_every_id (products ids : list value)
    (script : list response) (product_info : list value) :
  Products.products_id products = Ok ids ->
  Forall (fun r => info_page r = true) script ->
  List.length script = Products.thousands ids ->
  exists requested,
    Products._get_products_info_list products script product_info
    = Products.InfoRun (product_info ++ flat_map page_products script) requested
                       Products.Returned /\
    List.concat requested = ids /\
    Forall (fun chunk => 1 <= List.length chunk <= 1000) requested /\
    List.length ids <= 1000 * List.length requested < List.length ids + 1000.
Proof.
  intros Hids Hall Hlen.
  exists (map (Products.slice ids) (seq 0 (Products.thousands ids))).
  unfold Products._get_products_info_list. rewrite Hids.
  destruct (thousands_spec ids) as [Hup Hlow].
  repeat split.
  - rewrite for_thousands_pages; [reflexivity | exact Hall | now rewrite length_seq].
  - now apply slices_concat.
  - apply Forall_forall. intros chunk Hin. apply in_map_iff in Hin.
    destruct Hin as [n [<- Hn]]. apply in_seq in Hn. apply slice_bounds.
    destruct ids as [|x ids']; [cbn in Hn; lia|].
    specialize (Hlow ltac:(discriminate)). lia.
  - rewrite length_map, length_seq. lia.
  - rewrite length_map, length_seq.
    destruct ids as [|x ids']; [cbn; lia|]. specialize (Hlow ltac:(discriminate)). lia.
Qed.

(** Extra X20 on two products. *)
Lemma info_list_requests_every_id_witness :
  exists requested,
    Products._get_products_info_list
      [VDict [("product_id", VInt 11); ("offer_id", VStr "a")];
       VDict [("product_id", VInt 12); ("offer_id", VStr "b")]]
      [Response 200 [("result", VDict [("items", VList [VDict [("id", VInt 11)];
                                                        VDict [("id", VInt 12)]])])]]
      []
    = Products.InfoRun
        ([] ++ flat_map page_products
           [Response 200 [("result", VDict [("items", VList [VDict [("id", VInt 11)];
                                                             VDict [("id", VInt 12)]])])]])
        requested Products.Returned /\
    List.concat requested = [VInt 11; VInt 12] /\
    Forall (fun chunk => 1 <= List.length chunk <= 1000) requested /\
    List.length [VInt 11; VInt 12] <= 1000 * List.length requested
      < List.length [VInt 11; VInt 12] + 1000.
Proof.
  apply info_list_requests_every_id.
  - reflexivity.
  - repeat constructor.
  - reflexivity.
Defined.

(* ================================================================== *)
(** * Further properties: the windows of the finance fetcher *)
(* ================================================================== *)

Local Open Scope Z_scope.

Section FinanceWindowsProofs.

Import FinanceWindows.

Lemma monthrange_bounds y m : 28 <= monthrange y m <= 31.
Proof.
  unfold monthrange. destruct (m =? 2); [destruct (isleap y); lia|].
  destruct ((m =? 4) || (m =? 6) || (m =? 9) || (m =? 11)); lia.
Qed.

Lemma calendar_date_spec dt :
  calendar_date dt = true <->
  1 <= month dt <= 12 /\ 1 <= day dt <= monthrange (year dt) (month dt).
Proof.
  unfold calendar_date. rewrite !andb_true_iff, !Z.leb_le. tauto.
Qed.

Lemma plus_month_date dt :
  calendar_date dt = true ->
  calendar_date (plus_month dt) = true /\
  month_index (plus_month dt) = month_index dt + 1.
Proof.
  rewrite !calendar_date_spec. intros [Hm Hd]. unfold plus_month, month_index.
  cbn [year month day time].
  destruct (Z.ltb_spec 12 (month dt + 1)) as [H|H].
  - pose proof (monthrange_bounds (year dt + 1) (month dt + 1 - 12)). lia.
  - pose proof (monthrange_bounds (year dt) (month dt + 1)). lia.
Qed.

Lemma plus_day_date dt :
  calendar_date dt = true ->
  calendar_date (plus_day dt) = true /\
  month_index dt <= month_index (plus_day dt) <= month_index dt + 1.
Proof.
  rewrite !calendar_date_spec. intros [Hm Hd]. unfold plus_day, month_index.
  destruct (Z.ltb_spec (day dt) (monthrange (year dt) (month dt))) as [H|H];
    cbn [year month day time].
  - lia.
  - destruct (Z.ltb_spec (month dt) 12) as [H'|H']; cbn [year month day time].
    + pose proof (monthrange_bounds (year dt) (month dt + 1)). lia.
    + pose proof (monthrange_bounds (year dt + 1) 1). lia.
Qed.

Lemma lt_month_index a b :
  calendar_date a = true -> calendar_date b = true -> lt a b = true ->
  month_index a <= month_index b.
Proof.
  rewrite !calendar_date_spec. intros [Ha _] [Hb _]. unfold lt, month_index.
  destruct (Z.eqb_spec (year a) (year b)) as [Ey|Ny].
  - destruct (Z.eqb_spec (month a) (month b)) as [Em|Nm]; [lia|].
    rewrite Z.ltb_lt. lia.
  - rewrite Z.ltb_lt. lia.
Qed.

Lemma while_start_spec fuel : forall start to pending,
  calendar_date start = true -> calendar_date to = true ->
  (Z.to_nat (month_index to - month_index start + 1) < fuel)%nat ->
  exists windows,
    while_start fuel start to pending = Some (pending ++ windows) /\
    (windows = [] <-> lt start to = false) /\
    (forall w, In w windows -> snd w = plus_month (fst w) /\ lt (fst w) to = true) /\
    (forall i w w', nth_error windows i = Some w -> nth_error windows (S i) = Some w' ->
                    fst w' = plus_day (snd w)) /\
    (forall w, nth_error windows 0 = Some w -> fst w = start) /\
    (forall d, windows <> [] -> lt (plus_day (snd (last windows d))) to = false).
Proof.
  induction fuel as [|fuel IH]; intros start to pending Hs Ht Hfuel; [lia|].
  cbn [while_start]. destruct (lt start to) eqn:El.
  - destruct (plus_month_date start Hs) as [Hpm Ipm].
    destruct (plus_day_date (plus_month start) Hpm) as [Hpd Ipd].
    pose proof (lt_month_index start to Hs Ht El) as Hix.
    destruct (IH (plus_month_day start) to (pending ++ [(start, plus_month start)]) Hpd Ht)
      as [ws [E [Hnil [Hin [Hnext [Hfirst Hlast]]]]]].
    { unfold plus_month_day. lia. }
    exists ((start, plus_month start) :: ws). rewrite E, <- app_assoc. cbn [app].
    split; [reflexivity|]. split; [split; [discriminate | congruence]|].
    split.
    { intros w [<-|Hw]; [cbn; auto | now apply Hin]. }
    split.
    { intros [|i] w w' Hw Hw'; cbn [nth_error] in Hw, Hw'.
      - injection Hw as <-. cbn [snd]. now apply Hfirst.
      - now apply (Hnext i). }
    split; [intros w [= <-]; reflexivity|].
    intros d _. destruct ws as [|w ws'].
    + cbn [last snd]. now apply Hnil.
    + change (last ((start, plus_month start) :: w :: ws') d) with (last (w :: ws') d).
      apply Hlast. discriminate.
  - exists []. rewrite app_nil_r. split; [reflexivity|]. split; [tauto|].
    split; [intros w []|]. split; [intros [|i] w w' Hw; discriminate|].
    split; [intros w Hw; discriminate|]. intros d Hne. now elim Hne.
Qed.

End FinanceWindowsProofs.

(** Extra X21.  The windows for which
    [AsyncFinanceRealizationList._main] creates its tasks: the loop
    terminates; it creates no task exactly when [self.since] is not before
    [self.to]; every window starts before [self.to] and ends one month after
    its start; the first window starts at [self.since] and every further one
    on the day after the end of the window before; and the day after the end
    of the last window is not before [self.to]. *)
Theorem finance_windows_layout (since to : FinanceWindows.datetime) :
  calendar_date since = true -> calendar_date to = true ->
  exists windows,
    FinanceWindows._main since to = Some windows /\
    (windows = [] <-> FinanceWindows.lt since to = false) /\
    (forall w, In w windows ->
       snd w = FinanceWindows.plus_month (fst w) /\ FinanceWindows.lt (fst w) to = true) /\
    (forall i w w', nth_error windows i = Some w -> nth_error windows (S i) = Some w' ->
                    fst w' = FinanceWindows.plus_day (snd w)) /\
    (forall w, nth_error windows 0 = Some w -> fst w = since) /\
    (forall d, windows <> [] ->
       FinanceWindows.lt (FinanceWindows.plus_day (snd (last windows d))) to = false).
Proof.
  intros Hs Ht. unfold FinanceWindows._main.
  destruct (while_start_spec
              (S (Z.to_nat (FinanceWindows.month_index to
                            - FinanceWindows.month_index since + 1)))
              since to [] Hs Ht ltac:(lia)) as [windows H].
  exists windows. exact H.
Qed.

(** Extra X21 from 31 January to 1 April 2023. *)
Lemma finance_windows_layout_witness :
  exists windows,
    FinanceWindows._main (FinanceWindows.Datetime 2023 1 31 0)
                         (FinanceWindows.Datetime 2023 4 1 0) = Some windows /\
    (windows = [] <->
     FinanceWindows.lt (FinanceWindows.Datetime 2023 1 31 0)
                       (FinanceWindows.Datetime 2023 4 1 0) = false) /\
    (forall w, In w windows ->
       snd w = FinanceWindows.plus_month (fst w) /\
       FinanceWindows.lt (fst w) (FinanceWindows.Datetime 2023 4 1 0) = true) /\
    (forall i w w', nth_error windows i = Some w -> nth_error windows (S i) = Some w' ->
                    fst w' = FinanceWindows.plus_day (snd w)) /\
    (forall w, nth_error windows 0 = Some w -> fst w = FinanceWindows.Datetime 2023 1 31 0) /\
    (forall d, windows <> [] ->
       FinanceWindows.lt (FinanceWindows.plus_day (snd (last windows d)))
                         (FinanceWindows.Datetime 2023 4 1 0) = false).
Proof.
  apply finance_windows_layout; reflexivity.
Defined.

(** The windows of the witness: the month from 31 January ends on 28
    February, and the second window starts on the day after. *)
Example finance_windows_example :
  FinanceWindows._main (FinanceWindows.Datetime 2023 1 31 0)
                       (FinanceWindows.Datetime 2023 4 1 0)
  = Some [(FinanceWindows.Datetime 2023 1 31 0, FinanceWindows.Datetime 2023 2 28 0);
          (FinanceWindows.Datetime 2023 3 1 0, FinanceWindows.Datetime 2023 4 1 0)].
Proof. reflexivity. Qed.
